(** * GymRegister frontend: image-quality heuristic and analysis-job poller

    A shallow embedding of the logic of the repository:

    - [src/utils/imageAnalysisUtils.ts], class [ImageAnalysisUtils]
      (brightness, contrast, Sobel sharpness, quality tier, recommendations,
      and the filters of [enhanceImage]);
    - [src/pages/EquipmentScanner.tsx], [pollAnalysisResult] / [checkStatus]
      and [resetScanner] (the polling loop of the scanner page), with the
      drawer of [components/Layout/Layout.tsx] by which the page is left;
    - [src/store/assetStore.ts] and the statistics of [pages/Reports.tsx].

    JavaScript numbers are IEEE-754 binary64 numbers.  Each finite one is
    a rational, so the type [number] holds a rational, an infinity or
    [NaN].  The scoring functions only compare their arguments with integer
    constants.  The pixel computations add, multiply, divide and take square
    roots: [Double] gives each operation as the exact operation on the
    rationals followed by rounding to the nearest binary64 number, ties to
    even, with overflow to the infinities. *)

From Stdlib Require Import Bool List String ZArith QArith Qround Qabs Qpower.
From Stdlib Require Import DecimalString Lia.
From Stdlib Require Lqa.
Import ListNotations.

#[local] Close Scope Q_scope.
#[local] Open Scope nat_scope.

(* ================================================================== *)
(** * JavaScript numbers and their comparisons *)

Module JsNumber.

Inductive number : Type :=
| NaN
| NegInfinity
| Finite (q : Q)
| PosInfinity.

(** [a < b] of JavaScript: false as soon as one side is [NaN]. *)
Definition lt (a b : number) : bool :=
  match a, b with
  | NaN, _ | _, NaN => false
  | _, NegInfinity => false
  | NegInfinity, _ => true
  | PosInfinity, _ => false
  | Finite _, PosInfinity => true
  | Finite x, Finite y => negb (Qle_bool y x)
  end.

(** [a <= b] of JavaScript. *)
Definition le (a b : number) : bool :=
  match a, b with
  | NaN, _ | _, NaN => false
  | NegInfinity, _ => true
  | _, PosInfinity => true
  | _, NegInfinity => false
  | PosInfinity, _ => false
  | Finite x, Finite y => Qle_bool x y
  end.

Definition gt (a b : number) : bool := lt b a.
Definition ge (a b : number) : bool := le b a.

Definition of_Z (z : Z) : number := Finite (inject_Z z).

Definition is_finite (n : number) : bool :=
  match n with
  | Finite _ => true
  | _ => false
  end.

End JsNumber.

Import JsNumber.

(* ================================================================== *)
(** * Quality tier and recommendations ([imageAnalysisUtils.ts]) *)

Module Scoring.

(** ['excellent' | 'good' | 'fair' | 'poor'] *)
Inductive Quality : Type := excellent | good | fair | poor.

(** The four [if / else if] cascades of [determineQuality], each giving
    the amount it adds to the local variable [score]. *)
Definition brightnessPoints (brightness : number) : nat :=
  if ge brightness (of_Z 120) && le brightness (of_Z 180) then 3
  else if ge brightness (of_Z 100) && le brightness (of_Z 200) then 2
  else if ge brightness (of_Z 80) && le brightness (of_Z 220) then 1
  else 0.

Definition contrastPoints (contrast : number) : nat :=
  if ge contrast (of_Z 50) && le contrast (of_Z 80) then 3
  else if ge contrast (of_Z 30) && le contrast (of_Z 100) then 2
  else if ge contrast (of_Z 20) && le contrast (of_Z 120) then 1
  else 0.

Definition sharpnessPoints (sharpness : number) : nat :=
  if ge sharpness (of_Z 15) then 3
  else if ge sharpness (of_Z 10) then 2
  else if ge sharpness (of_Z 5) then 1
  else 0.

Definition resolutionPoints (pixels : number) : nat :=
  if ge pixels (of_Z 2073600) then 3
  else if ge pixels (of_Z 921600) then 2
  else if ge pixels (of_Z 307200) then 1
  else 0.

(** Final value of the local [score] of [determineQuality]. *)
Definition qualityScore (brightness contrast sharpness pixels : number) : nat :=
  let score := 0 in
  let score := score + brightnessPoints brightness in
  let score := score + contrastPoints contrast in
  let score := score + sharpnessPoints sharpness in
  let score := score + resolutionPoints pixels in
  score.

Definition determineQuality (brightness contrast sharpness pixels : number)
  : Quality :=
  let score := qualityScore brightness contrast sharpness pixels in
  if 10 <=? score then excellent
  else if 7 <=? score then good
  else if 4 <=? score then fair
  else poor.

Definition msgIncreaseLighting : string :=
  "📡 Increase lighting or move to a brighter area".
Definition msgReduceLighting : string :=
  "☀️ Reduce lighting or avoid direct sunlight".
Definition msgImproveContrast : string :=
  "🎨 Improve contrast by adjusting lighting or background".
Definition msgHoldSteady : string :=
  "🎯 Hold camera steady and ensure equipment is in focus".
Definition msgMoveCloser : string :=
  "📱 Move closer to equipment or use higher camera resolution".
Definition msgOptimal : string :=
  "✨ Image quality is optimal for analysis!".

(** [generateRecommendations]: the array is threaded through the
    successive [push]es. *)
Definition generateRecommendations
  (brightness contrast sharpness pixels : number) : list string :=
  let recommendations := [] in
  let recommendations :=
    if lt brightness (of_Z 80) then recommendations ++ [msgIncreaseLighting]
    else if gt brightness (of_Z 220) then recommendations ++ [msgReduceLighting]
    else recommendations in
  let recommendations :=
    if lt contrast (of_Z 20) then recommendations ++ [msgImproveContrast]
    else recommendations in
  let recommendations :=
    if lt sharpness (of_Z 5) then recommendations ++ [msgHoldSteady]
    else recommendations in
  let recommendations :=
    if lt pixels (of_Z 307200) then recommendations ++ [msgMoveCloser]
    else recommendations in
  let recommendations :=
    if (List.length recommendations =? 0)%nat
    then recommendations ++ [msgOptimal]
    else recommendations in
  recommendations.

(** ** The wording of the specification, to compare with the code *)

(** A closed band [lo, hi]. *)
Definition inBand (lo hi : Z) (x : number) : bool := ge x (of_Z lo) && le x (of_Z hi).

(** "+3 if in [a3]; else +2 if in [a2]; else +1 if in [a1]; else 0". *)
Definition banded (b3 b2 b1 : number -> bool) (x : number) : nat :=
  if b3 x then 3 else if b2 x then 2 else if b1 x then 1 else 0.

Definition specBrightnessScore : number -> nat :=
  banded (inBand 120 180) (inBand 100 200) (inBand 80 220).
Definition specContrastScore : number -> nat :=
  banded (inBand 50 80) (inBand 30 100) (inBand 20 120).
Definition specSharpnessScore : number -> nat :=
  banded (fun s => ge s (of_Z 15)) (fun s => ge s (of_Z 10)) (fun s => ge s (of_Z 5)).
Definition specResolutionScore : number -> nat :=
  banded (fun p => ge p (of_Z 2073600)) (fun p => ge p (of_Z 921600))
         (fun p => ge p (of_Z 307200)).

(** The four deficiency conditions of the recommendations. *)
Definition lightingDeficient (brightness : number) : bool :=
  lt brightness (of_Z 80) || gt brightness (of_Z 220).
Definition contrastDeficient (contrast : number) : bool := lt contrast (of_Z 20).
Definition sharpnessDeficient (sharpness : number) : bool := lt sharpness (of_Z 5).
Definition resolutionDeficient (pixels : number) : bool := lt pixels (of_Z 307200).

Definition anyDeficiency (b c s p : number) : bool :=
  lightingDeficient b || contrastDeficient c
  || sharpnessDeficient s || resolutionDeficient p.

(** The message of each deficiency, in the enumeration order of the
    specification: lighting, contrast, sharpness, resolution. *)
Definition lightingAdvice (b : number) : list string :=
  if lt b (of_Z 80) then [msgIncreaseLighting]
  else if gt b (of_Z 220) then [msgReduceLighting] else [].
Definition contrastAdvice (c : number) : list string :=
  if contrastDeficient c then [msgImproveContrast] else [].
Definition sharpnessAdvice (s : number) : list string :=
  if sharpnessDeficient s then [msgHoldSteady] else [].
Definition resolutionAdvice (p : number) : list string :=
  if resolutionDeficient p then [msgMoveCloser] else [].

End Scoring.

(* ================================================================== *)
(** * Arithmetic of JavaScript numbers, before rounding

    The exact result of each operation.  [Double] rounds it; the image
    filters use it as it is, on the samples of an image and on integer
    settings, where the number stored is the same with and without the
    rounding. *)

Module JsArith.

Import JsNumber.

(** Zeros are taken positive: in the code modelled here a zero only arises
    as [x - x] or as a product with such a zero. *)
Definition isZero (q : Q) : bool := Qeq_bool q 0.
Definition isNeg (q : Q) : bool := negb (Qle_bool 0 q).

Definition neg (a : number) : number :=
  match a with
  | NaN => NaN
  | NegInfinity => PosInfinity
  | PosInfinity => NegInfinity
  | Finite q => Finite (- q)
  end.

Definition add (a b : number) : number :=
  match a, b with
  | NaN, _ | _, NaN => NaN
  | PosInfinity, NegInfinity | NegInfinity, PosInfinity => NaN
  | PosInfinity, _ | _, PosInfinity => PosInfinity
  | NegInfinity, _ | _, NegInfinity => NegInfinity
  | Finite x, Finite y => Finite (x + y)
  end.

Definition sub (a b : number) : number := add a (neg b).

(** An infinity of the sign of [q], [NaN] for zero. *)
Definition infinityTimes (positive : bool) (q : Q) : number :=
  if isZero q then NaN
  else if xorb positive (isNeg q) then PosInfinity else NegInfinity.

Definition mul (a b : number) : number :=
  match a, b with
  | NaN, _ | _, NaN => NaN
  | Finite x, Finite y => Finite (x * y)
  | PosInfinity, Finite q | Finite q, PosInfinity => infinityTimes true q
  | NegInfinity, Finite q | Finite q, NegInfinity => infinityTimes false q
  | PosInfinity, PosInfinity | NegInfinity, NegInfinity => PosInfinity
  | PosInfinity, NegInfinity | NegInfinity, PosInfinity => NegInfinity
  end.

Definition div (a b : number) : number :=
  match a, b with
  | NaN, _ | _, NaN => NaN
  | Finite x, Finite y =>
      if isZero y then infinityTimes true x else Finite (x / y)
  | Finite _, _ => Finite 0
  | PosInfinity, Finite q =>
      if isNeg q then NegInfinity else PosInfinity
  | NegInfinity, Finite q =>
      if isNeg q then PosInfinity else NegInfinity
  | _, _ => NaN
  end.

(** [Math.max(a, b)] and [Math.min(a, b)]: [NaN] when an argument is. *)
Definition Math_max (a b : number) : number :=
  match a, b with
  | NaN, _ | _, NaN => NaN
  | _, _ => if le a b then b else a
  end.

Definition Math_min (a b : number) : number :=
  match a, b with
  | NaN, _ | _, NaN => NaN
  | _, _ => if le a b then a else b
  end.

(** What a [Uint8ClampedArray] stores for a number: 0 for [NaN], the ends
    of the range beyond them, the nearest integer otherwise, a half going
    to the even neighbour. *)
Definition toUint8Clamp (a : number) : Z :=
  match a with
  | NaN | NegInfinity => 0
  | PosInfinity => 255
  | Finite q =>
      if Qle_bool q 0 then 0
      else if Qle_bool 255 q then 255
      else
        let f := Qfloor q in
        match (q ?= inject_Z f + (1 # 2))%Q with
        | Lt => f
        | Gt => f + 1
        | Eq => if Z.even f then f else f + 1
        end
  end%Z.

End JsArith.

(* ================================================================== *)
(** * Binary64 arithmetic *)

(** A JavaScript number is an IEEE 754 binary64 value.  Each finite one
    is a rational, and each arithmetic operation returns the binary64
    number nearest to the exact result, a tie going to the neighbour with
    an even significand, and an infinity from [2 ^ 1024 - 2 ^ 970] on.
    The two zeros are not told apart: the pixel code divides by lengths,
    counters and constants only, and never looks at the sign of a zero. *)
Module Double.

Import JsNumber.
#[local] Open Scope Q_scope.

Definition pow2 (e : Z) : Q := 2 ^ e.

(** The nearest integer, a half going to the even neighbour. *)
Definition rne (t : Q) : Z :=
  let f := Qfloor t in
  match Qcompare t (inject_Z f + (1 # 2)) with
  | Lt => f
  | Gt => (f + 1)%Z
  | Eq => if Z.even f then f else (f + 1)%Z
  end.

(** The exponent of the unit in the last place of the binary64 numbers
    around [q]: 52 below the exponent of [q], and -1074 throughout the
    subnormal range.  The exponent of [q] is read off the integer part of
    [|q| * 2 ^ 1100]. *)
Definition ulpExp (q : Q) : Z :=
  Z.max (Z.log2 (Qfloor (Qabs q * pow2 1100)) - 1100 - 52) (-1074).

(** The multiple of that unit nearest to [q], ties to even. *)
Definition rnd (q : Q) : Q :=
  let e := ulpExp q in
  Qred (inject_Z (rne (q / pow2 e)) * pow2 e).

Definition overflow (q : Q) : number :=
  if Qle_bool (pow2 1024) (Qabs q)
  then if Qle_bool 0 q then PosInfinity else NegInfinity
  else Finite q.

(** The binary64 number that stands for the exact result [q]. *)
Definition round (q : Q) : number := overflow (rnd q).

Definition lift (exact : number) : number :=
  match exact with
  | Finite q => round q
  | other => other
  end.

Definition add (a b : number) : number := lift (JsArith.add a b).
Definition sub (a b : number) : number := lift (JsArith.sub a b).
Definition mul (a b : number) : number := lift (JsArith.mul a b).
Definition div (a b : number) : number := lift (JsArith.div a b).

(** A rational with the rounding of the square root of [q]: the root
    itself when it is a multiple of [2 ^ -600], and otherwise the middle
    of the two multiples of [2 ^ -600] around it.  Every binary64 number
    at least [2 ^ -537], and every middle of two of them, is such a
    multiple, so that rounding this rational rounds the root. *)
Definition sqrtQ (q : Q) : Q :=
  let t := q * pow2 1200 in
  let s := Z.sqrt (Qfloor t) in
  (inject_Z s + (if Qeq_bool (inject_Z (s * s)) t then 0 else 1 # 2))
  * pow2 (-600).

(** [Math.sqrt]: [NaN] below zero. *)
Definition Math_sqrt (a : number) : number :=
  match a with
  | NaN | NegInfinity => NaN
  | PosInfinity => PosInfinity
  | Finite q => if JsArith.isNeg q then NaN else round (sqrtQ q)
  end.

(** [Math.pow(a, 2)], which the engines compute as [a * a]. *)
Definition Math_pow2 (a : number) : number := mul a a.

(** [Math.round]: the nearest integer, a half going up. *)
Definition Math_round (a : number) : number :=
  match a with
  | Finite q => of_Z (Qfloor (q + (1 # 2)))
  | other => other
  end.

(** A decimal literal of the source text. *)
Definition lit (q : Q) : number := round q.

(** ** Predicates on rationals and numbers, for the properties below *)

(** [z] is the integer nearest to [t], the even one of the two when [t]
    is half-way. *)
Definition nearestEven (t : Q) (z : Z) : Prop :=
  Qabs (inject_Z z - t) < 1 # 2
  \/ (Qabs (inject_Z z - t) == 1 # 2 /\ Z.even z = true).

(** A number [m * 2 ^ e] with [|m| < 2 ^ 53] and [-1074 <= e] is a
    binary64 number (when below [2 ^ 1024]). *)
Definition representable (q : Q) : Prop :=
  exists m e, q == inject_Z m * pow2 e /\ (Z.abs m < 2 ^ 53)%Z
              /\ (-1074 <= e)%Z.

(** A number within [lo, hi]. *)
Definition within (lo hi : Q) (x : number) : Prop :=
  exists q, x = Finite q /\ lo <= q <= hi.

(** What [lift] returns is [NaN], an infinity, or a binary64 number:
    rounding it again changes nothing. *)
Definition canonical (x : number) : Prop := lift x = x.

End Double.

(* ================================================================== *)
(** * Pixel metrics ([imageAnalysisUtils.ts]) *)

Module ImageAnalysisUtils.

Import Scoring.

Declare Scope js_scope.
Delimit Scope js_scope with js.
Notation "a + b" := (Double.add a b) : js_scope.
Notation "a - b" := (Double.sub a b) : js_scope.
Notation "a * b" := (Double.mul a b) : js_scope.
Notation "a / b" := (Double.div a b) : js_scope.

(** ** The pixel buffer *)

(** A [Uint8ClampedArray]: the samples R, G, B, A of each pixel in turn. *)
Definition Uint8ClampedArray : Type := list Z.

(** Samples within the range of a byte, as those of every
    [Uint8ClampedArray] are. *)
Definition clamped (data : list Z) : Prop :=
  Forall (fun v => (0 <= v <= 255)%Z) data.

(** Lengths, indices and loop counters are integers below [2 ^ 53], on
    which the arithmetic of numbers is exact: they are kept as integers. *)
Definition len (data : Uint8ClampedArray) : Z := Z.of_nat (List.length data).

(** [data[i]]: [undefined] outside the array, [NaN] once in arithmetic. *)
Definition get (data : Uint8ClampedArray) (i : Z) : number :=
  if (i <? 0)%Z then NaN
  else match nth_error data (Z.to_nat i) with
       | Some v => of_Z v
       | None => NaN
       end.

(** The values taken by the variable of
    [for (let i = start; i < stop; i += step)], for [step > 0]. *)
Definition countUp (start stop step : Z) : list Z :=
  map (fun k => (start + step * Z.of_nat k)%Z)
      (seq 0 (Z.to_nat ((stop - start + step - 1) / step))).

(** [0.299 * r + 0.587 * g + 0.114 * b], the sum of the first two products
    being formed first. *)
Definition weighted (r g b : number) : number :=
  (Double.lit (299 # 1000) * r + Double.lit (587 # 1000) * g
   + Double.lit (114 # 1000) * b)%js.

(** [0.299 * data[i] + 0.587 * data[i + 1] + 0.114 * data[i + 2]] *)
Definition luminance (data : Uint8ClampedArray) (i : Z) : number :=
  weighted (get data i) (get data (i + 1)) (get data (i + 2)).

Definition calculateBrightness (data : Uint8ClampedArray) : number :=
  let sum :=
    fold_left (fun sum i => (sum + luminance data i)%js)
              (countUp 0 (len data) 4) (of_Z 0) in
  Double.Math_round (sum / (of_Z (len data) / of_Z 4))%js.

Definition calculateContrast (data : Uint8ClampedArray) : number :=
  let brightness := calculateBrightness data in
  let variance :=
    fold_left
      (fun variance i =>
         let luminance := luminance data i in
         (variance + Double.Math_pow2 (luminance - brightness))%js)
      (countUp 0 (len data) 4) (of_Z 0) in
  let standardDeviation :=
    Double.Math_sqrt (variance / (of_Z (len data) / of_Z 4))%js in
  Double.Math_round standardDeviation.

Definition getGrayscale (data : Uint8ClampedArray) (idx : Z) : number :=
  if ((idx <? 0) || (idx >=? len data))%Z then of_Z 0
  else luminance data idx.

(** Body of the inner loop of [calculateSharpness] at the pixel [(x, y)]:
    the contribution added to [sharpnessSum]. *)
Definition sobelMagnitude (data : Uint8ClampedArray) (width x y : Z)
  : number :=
  let idx := ((y * width + x) * 4)%Z in
  let gx :=
    (of_Z (-1) * getGrayscale data (idx - width * 4 - 4)
     + of_Z 1 * getGrayscale data (idx - width * 4 + 4)
     + of_Z (-2) * getGrayscale data (idx - 4)
     + of_Z 2 * getGrayscale data (idx + 4)
     + of_Z (-1) * getGrayscale data (idx + width * 4 - 4)
     + of_Z 1 * getGrayscale data (idx + width * 4 + 4))%js in
  let gy :=
    (of_Z (-1) * getGrayscale data (idx - width * 4 - 4)
     + of_Z (-2) * getGrayscale data (idx - width * 4)
     + of_Z (-1) * getGrayscale data (idx - width * 4 + 4)
     + of_Z 1 * getGrayscale data (idx + width * 4 - 4)
     + of_Z 2 * getGrayscale data (idx + width * 4)
     + of_Z 1 * getGrayscale data (idx + width * 4 + 4))%js in
  Double.Math_sqrt (gx * gx + gy * gy)%js.

(** The two nested loops; the state is [(sharpnessSum, count)]. *)
Definition sharpnessLoops (data : Uint8ClampedArray) (width height : Z)
  : number * nat :=
  fold_left
    (fun acc y =>
       fold_left
         (fun acc x =>
            let '(sharpnessSum, count) := acc in
            ((sharpnessSum + sobelMagnitude data width x y)%js, S count))
         (countUp 1 (width - 1) 1) acc)
    (countUp 1 (height - 1) 1) (of_Z 0, 0).

Definition calculateSharpness (data : Uint8ClampedArray) (width height : Z)
  : number :=
  let '(sharpnessSum, count) := sharpnessLoops data width height in
  Double.Math_round (if 0 <? count
                     then (sharpnessSum / of_Z (Z.of_nat count))%js
                     else of_Z 0).

(** ** [analyzeImageQuality] *)

(** What the function reads of its canvas: the two dimensions, and the
    samples that [getContext('2d').getImageData(0, 0, width, height)]
    gives, [None] when [getContext] returns [null]. *)
Record HTMLCanvasElement : Type := {
  canvasWidth : Z;
  canvasHeight : Z;
  canvasImageData : option Uint8ClampedArray
}.

Record Resolution : Type := {
  width : Z;
  height : Z;
  megapixels : number
}.

Record ImageQualityMetrics : Type := {
  resolution : Resolution;
  brightness : number;
  contrast : number;
  sharpness : number;
  quality : Quality;
  recommendations : list string
}.

(** [Math.round((width * height) / 1000000 * 10) / 10] *)
Definition megapixelsOf (width height : Z) : number :=
  (Double.Math_round (of_Z width * of_Z height / of_Z 1000000 * of_Z 10)
   / of_Z 10)%js.

(** [inl message] is [throw new Error(message)]. *)
Definition analyzeImageQuality (canvas : HTMLCanvasElement)
  : string + ImageQualityMetrics :=
  match canvasImageData canvas with
  | None => inl "Could not get canvas context"%string
  | Some data =>
      let width := canvasWidth canvas in
      let height := canvasHeight canvas in
      let brightness := calculateBrightness data in
      let contrast := calculateContrast data in
      let sharpness := calculateSharpness data width height in
      let quality :=
        determineQuality brightness contrast sharpness
                         (of_Z width * of_Z height)%js in
      let recommendations :=
        generateRecommendations brightness contrast sharpness
                                (of_Z width * of_Z height)%js in
      inr {| resolution := {| width := width;
                              height := height;
                              megapixels := megapixelsOf width height |};
             brightness := brightness;
             contrast := contrast;
             sharpness := sharpness;
             quality := quality;
             recommendations := recommendations |}
  end.

(** ** The wording of the specification, to compare with the code

    The operations are those of JavaScript numbers; a sum runs over its
    terms in the order in which they are listed. *)

(** Luma of a colour: [0.299*R + 0.587*G + 0.114*B]. *)
Definition luma (r g b : Z) : number := weighted (of_Z r) (of_Z g) (of_Z b).

(** Sample [c] of the pixel in column [x] of row [y]. *)
Definition sample (data : Uint8ClampedArray) (width x y c : Z) : Z :=
  nth (Z.to_nat ((y * width + x) * 4 + c)) data 0%Z.

Definition lumaAt (data : Uint8ClampedArray) (width x y : Z) : number :=
  luma (sample data width x y 0) (sample data width x y 1)
       (sample data width x y 2).

(** A 3x3 kernel, by rows. *)
Definition kernel : Type := list (list Z).

Definition sobelX : kernel :=
  [ [ -1; 0; 1 ] ; [ -2; 0; 2 ] ; [ -1; 0; 1 ] ]%Z.

Definition entry (k : kernel) (i j : nat) : Z := nth j (nth i k []) 0%Z.

Definition transpose (k : kernel) : kernel :=
  map (fun j => map (fun i => entry k i j) [0; 1; 2]) [0; 1; 2].

Definition sum (l : list number) : number :=
  fold_left Double.add l (of_Z 0).

Definition mean (l : list number) : number :=
  (sum l / of_Z (Z.of_nat (List.length l)))%js.

(** A kernel applied at [(x, y)]: row [i] meets the pixel row [y + i - 1],
    column [j] the pixel column [x + j - 1]. *)
Definition applyKernel (k : kernel) (L : Z -> Z -> number) (x y : Z)
  : number :=
  sum (flat_map
         (fun i =>
            map (fun j =>
                   (of_Z (entry k i j)
                    * L (x + Z.of_nat j - 1)%Z (y + Z.of_nat i - 1)%Z)%js)
                [0; 1; 2])
         [0; 1; 2]).

Definition gradientMagnitude (L : Z -> Z -> number) (x y : Z) : number :=
  let gx := applyKernel sobelX L x y in
  let gy := applyKernel (transpose sobelX) L x y in
  Double.Math_sqrt (gx * gx + gy * gy)%js.

(** The pixels that are not on the 1-pixel border. *)
Definition interior (width height : Z) : list (Z * Z) :=
  flat_map (fun y => map (fun x => (x, y)) (countUp 1 (width - 1) 1))
           (countUp 1 (height - 1) 1).

Definition specSharpness (data : Uint8ClampedArray) (width height : Z)
  : number :=
  Double.Math_round
    (mean (map (fun p => gradientMagnitude (lumaAt data width)
                                           (fst p) (snd p))
               (interior width height))).

(** An image whose pixels all have the colour [(r, g, b)]: as a check on
    the samples, pixel after pixel, and as a property of each pixel. *)
Fixpoint uniformColourb (data : Uint8ClampedArray) (r g b : Z) : bool :=
  match data with
  | [] => true
  | r' :: g' :: b' :: _ :: rest =>
      (r' =? r)%Z && (g' =? g)%Z && (b' =? b)%Z && uniformColourb rest r g b
  | _ => false
  end.

Definition uniformColour (data : Uint8ClampedArray) (r g b : Z) : Prop :=
  forall k : nat,
    4 * k < List.length data ->
    nth (4 * k) data 0%Z = r
    /\ nth (4 * k + 1) data 0%Z = g
    /\ nth (4 * k + 2) data 0%Z = b.

(** The image of [width * height] pixels [(r, g, b, a)]. *)
Definition solid (width height : nat) (r g b a : Z) : Uint8ClampedArray :=
  List.concat (repeat [r; g; b; a] (width * height)).

(** A 3x3 image with a bright pixel in the middle of the top row. *)
Definition sample3x3 : Uint8ClampedArray :=
  [ 10; 20; 30; 255;   200; 180; 160; 255;   15; 25; 35; 255;
    12; 22; 32; 255;    90;  80;  70; 255;   18; 28; 38; 255;
    14; 24; 34; 255;    16;  26;  36; 255;   20; 30; 40; 255 ]%Z.

(** A 3x3 image, black but for the pixel in the middle of the top row. *)
Definition edge3x3 : Uint8ClampedArray :=
  [ 0; 0; 0; 255;   0; 18; 6; 255;   0; 0; 0; 255;
    0; 0; 0; 255;   0;  0; 0; 255;   0; 0; 0; 255;
    0; 0; 0; 255;   0;  0; 0; 255;   0; 0; 0; 255 ]%Z.

Definition solidCanvas (width height : nat) (r g b a : Z)
  : HTMLCanvasElement :=
  {| canvasWidth := Z.of_nat width;
     canvasHeight := Z.of_nat height;
     canvasImageData := Some (solid width height r g b a) |}.

(** The three weights, as binary64 numbers. *)
Definition c299 : Q := Eval vm_compute in Double.rnd (299 # 1000).
Definition c587 : Q := Eval vm_compute in Double.rnd (587 # 1000).
Definition c114 : Q := Eval vm_compute in Double.rnd (114 # 1000).

(** A bound on the gradient magnitudes: [1020 * sqrt 2] is below it. *)
Definition magnitudeTop : Q := 1442 + (511 # 1024).

(** The integer [1000 * (0.299*r + 0.587*g + 0.114*b)]. *)
Definition luma1000 (r g b : Z) : Z := (299 * r + 587 * g + 114 * b)%Z.

End ImageAnalysisUtils.

(* ================================================================== *)
(** * The analysis-job poller ([pages/EquipmentScanner.tsx]) *)

Module EquipmentScanner.

#[local] Open Scope string_scope.

(** ** Data of the page *)

Record EquipmentItem : Type := {
  type : string;
  weight : option string;
  description : string;
  condition : string;
  suggested_asset_tag : string;
  location_in_image : string
}.

(** The field [result] of an [AnalysisResultResponse]. *)
Record AnalysisPayload : Type := {
  asset_tags : list string;
  equipment : list EquipmentItem;
  image_quality : string;
  total_items : Z;
  recommendations : string;
  confidence_score : Q
}.

Record AnalysisResultResponse : Type := {
  id : string;
  asset_tag : option string;
  original_filename : string;
  status : string;
  result : AnalysisPayload;
  error_message : option string;
  response_confidence_score : Q;
  created_at : string;
  completed_at : string;
  processing_time : Q
}.

(** The state variable [analysisMetadata]. *)
Record AnalysisMetadata : Type := {
  imageQuality : string;
  totalItems : Z;
  metadataRecommendations : string;
  confidenceScore : Q;
  processingTime : Q
}.

(** [AnalysisResult] and [StoredAnalysisResult] of the store, with the
    fields that [checkStatus] fills. *)
Record AnalysisResult : Type := {
  item_type : string;
  result_description : string;
  result_condition : string;
  confidence : Q;
  suggestions_notes : string
}.

Record StoredAnalysisResult : Type := {
  stored_id : string;
  timestamp : string;
  stored_result : AnalysisResult;
  image : string
}.

(** The [useState] variables of the component. *)
Record ScannerState : Type := {
  showCamera : bool;
  isAnalyzing : bool;
  analysisResult : option AnalysisResult;
  error : option string;
  capturedImage : option string;
  imageFileName : string;
  equipmentItems : list EquipmentItem;
  analysisMetadata : option AnalysisMetadata;
  currentJobId : option string;
  analysisStatus : string
}.

(** ** What a status check can come back with *)

(** A value caught by [catch (err)]: an [Error] with its message (an axios
    failure, network error or non-2xx response, is one), or anything
    else. *)
Inductive Thrown : Type :=
| ErrorObject (message : string)
| NotAnError.

(** Outcome of [await analysisApi.getAnalysisResult(jobId)].  The response
    has the shape of the interface [AnalysisResultResponse]; a body on which
    reading [status] or [result] would throw a [TypeError] ends in the same
    [catch] block as a rejection with that error. *)
Inductive Reply : Type :=
| Resolved (response : AnalysisResultResponse)
| Rejected (err : Thrown).

(** ** The world around the component *)

(** What the code does to the outside, in order. *)
Inductive Effect : Type :=
| GetAnalysisResult (jobId : string)
| SetTimeout (delay : Z)
| ToastSuccess (message : string)
| ToastError (message : string)
| ConsoleError (label : string) (err : Thrown).

(** Where the closure [checkStatus] of one call of [pollAnalysisResult]
    stands: not running, suspended on its [await], or waiting for the
    timer it armed. *)
Inductive Phase : Type := Idle | AwaitingReply | TimerPending.

(** The variables captured by [checkStatus]: its argument [jobId], the
    [capturedImage] seen by the [useCallback] closure, and the local
    [retries]. *)
Record Poller : Type := {
  jobId : string;
  closureImage : option string;
  retries : nat;
  phase : Phase
}.

Record World : Type := {
  ui : ScannerState;
  analysisHistory : list StoredAnalysisResult;
  poller : Poller;
  effects : list Effect
}.

(** ** State updates *)

Definition withUi (f : ScannerState -> ScannerState) (w : World) : World :=
  {| ui := f (ui w);
     analysisHistory := analysisHistory w;
     poller := poller w;
     effects := effects w |}.

Definition withPoller (f : Poller -> Poller) (w : World) : World :=
  {| ui := ui w;
     analysisHistory := analysisHistory w;
     poller := f (poller w);
     effects := effects w |}.

Definition emit (e : Effect) (w : World) : World :=
  {| ui := ui w;
     analysisHistory := analysisHistory w;
     poller := poller w;
     effects := effects w ++ [e] |}.

Definition setPhase (p : Phase) : World -> World :=
  withPoller (fun k => {| jobId := jobId k;
                          closureImage := closureImage k;
                          retries := retries k;
                          phase := p |}).

Definition incrRetries : World -> World :=
  withPoller (fun k => {| jobId := jobId k;
                          closureImage := closureImage k;
                          retries := S (retries k);
                          phase := phase k |}).

Definition setIsAnalyzing (v : bool) : World -> World :=
  withUi (fun s => {| showCamera := showCamera s;
                      isAnalyzing := v;
                      analysisResult := analysisResult s;
                      error := error s;
                      capturedImage := capturedImage s;
                      imageFileName := imageFileName s;
                      equipmentItems := equipmentItems s;
                      analysisMetadata := analysisMetadata s;
                      currentJobId := currentJobId s;
                      analysisStatus := analysisStatus s |}).

Definition setAnalysisResult (v : option AnalysisResult) : World -> World :=
  withUi (fun s => {| showCamera := showCamera s;
                      isAnalyzing := isAnalyzing s;
                      analysisResult := v;
                      error := error s;
                      capturedImage := capturedImage s;
                      imageFileName := imageFileName s;
                      equipmentItems := equipmentItems s;
                      analysisMetadata := analysisMetadata s;
                      currentJobId := currentJobId s;
                      analysisStatus := analysisStatus s |}).

Definition setError (v : option string) : World -> World :=
  withUi (fun s => {| showCamera := showCamera s;
                      isAnalyzing := isAnalyzing s;
                      analysisResult := analysisResult s;
                      error := v;
                      capturedImage := capturedImage s;
                      imageFileName := imageFileName s;
                      equipmentItems := equipmentItems s;
                      analysisMetadata := analysisMetadata s;
                      currentJobId := currentJobId s;
                      analysisStatus := analysisStatus s |}).

Definition setCapturedImage (v : option string) : World -> World :=
  withUi (fun s => {| showCamera := showCamera s;
                      isAnalyzing := isAnalyzing s;
                      analysisResult := analysisResult s;
                      error := error s;
                      capturedImage := v;
                      imageFileName := imageFileName s;
                      equipmentItems := equipmentItems s;
                      analysisMetadata := analysisMetadata s;
                      currentJobId := currentJobId s;
                      analysisStatus := analysisStatus s |}).

Definition setImageFileName (v : string) : World -> World :=
  withUi (fun s => {| showCamera := showCamera s;
                      isAnalyzing := isAnalyzing s;
                      analysisResult := analysisResult s;
                      error := error s;
                      capturedImage := capturedImage s;
                      imageFileName := v;
                      equipmentItems := equipmentItems s;
                      analysisMetadata := analysisMetadata s;
                      currentJobId := currentJobId s;
                      analysisStatus := analysisStatus s |}).

Definition setEquipmentItems (v : list EquipmentItem) : World -> World :=
  withUi (fun s => {| showCamera := showCamera s;
                      isAnalyzing := isAnalyzing s;
                      analysisResult := analysisResult s;
                      error := error s;
                      capturedImage := capturedImage s;
                      imageFileName := imageFileName s;
                      equipmentItems := v;
                      analysisMetadata := analysisMetadata s;
                      currentJobId := currentJobId s;
                      analysisStatus := analysisStatus s |}).

Definition setAnalysisMetadata (v : option AnalysisMetadata)
  : World -> World :=
  withUi (fun s => {| showCamera := showCamera s;
                      isAnalyzing := isAnalyzing s;
                      analysisResult := analysisResult s;
                      error := error s;
                      capturedImage := capturedImage s;
                      imageFileName := imageFileName s;
                      equipmentItems := equipmentItems s;
                      analysisMetadata := v;
                      currentJobId := currentJobId s;
                      analysisStatus := analysisStatus s |}).

Definition setCurrentJobId (v : option string) : World -> World :=
  withUi (fun s => {| showCamera := showCamera s;
                      isAnalyzing := isAnalyzing s;
                      analysisResult := analysisResult s;
                      error := error s;
                      capturedImage := capturedImage s;
                      imageFileName := imageFileName s;
                      equipmentItems := equipmentItems s;
                      analysisMetadata := analysisMetadata s;
                      currentJobId := v;
                      analysisStatus := analysisStatus s |}).

Definition setAnalysisStatus (v : string) : World -> World :=
  withUi (fun s => {| showCamera := showCamera s;
                      isAnalyzing := isAnalyzing s;
                      analysisResult := analysisResult s;
                      error := error s;
                      capturedImage := capturedImage s;
                      imageFileName := imageFileName s;
                      equipmentItems := equipmentItems s;
                      analysisMetadata := analysisMetadata s;
                      currentJobId := currentJobId s;
                      analysisStatus := v |}).

(** [addAnalysisResult] of the store ([store/assetStore.ts]). *)
Definition addAnalysisResult (r : StoredAnalysisResult) (w : World) : World :=
  {| ui := ui w;
     analysisHistory := analysisHistory w ++ [r];
     poller := poller w;
     effects := effects w |}.

(** Sequencing of statements: [w |> f |> g] runs [f], then [g]. *)
Notation "w |> f" := (f w) (at level 45, left associativity, only parsing).

(** Decimal text of an integer, for the template literals. *)
Definition showZ (z : Z) : string := NilZero.string_of_int (Z.to_int z).

(** ** [pollAnalysisResult] *)

Definition maxRetries : nat := 30.

(** [checkStatus] up to its [await]: the request leaves. *)
Definition checkStatus (w : World) : World :=
  w |> emit (GetAnalysisResult (jobId (poller w)))
    |> setPhase AwaitingReply.

(** The [try] block after the [await] has resolved with [response]
    (the constant [result] of the source): the
    world it leaves, and the value it throws, if any. *)
Definition tryBlock (response : AnalysisResultResponse) (w : World)
  : World * option Thrown :=
  let w := w |> setAnalysisStatus (status response) in
  if status response =? "completed" then
    let stored :=
      {| stored_id := id response;
         timestamp := created_at response;
         stored_result :=
           {| item_type :=
                showZ (total_items (result response)) ++ " Equipment Items";
              result_description :=
                "Detected "
                ++ showZ (Z.of_nat (List.length (equipment (result response))))
                ++ " equipment items";
              result_condition := "Analysis Complete";
              confidence := confidence_score (result response);
              suggestions_notes := recommendations (result response) |};
         image := match closureImage (poller w) with
                  | Some "" | None => ""
                  | Some img => img
                  end |} in
    (w |> setEquipmentItems (equipment (result response))
       |> setAnalysisMetadata
            (Some {| imageQuality := image_quality (result response);
                     totalItems := total_items (result response);
                     metadataRecommendations :=
                       recommendations (result response);
                     confidenceScore := confidence_score (result response);
                     processingTime := processing_time response |})
       |> addAnalysisResult stored
       |> emit (ToastSuccess "Equipment analysis completed!")
       |> setIsAnalyzing false
       |> setCurrentJobId None,
     None)
  else if status response =? "failed" then
    (w, Some (ErrorObject match error_message response with
                          | Some "" | None => "Analysis failed"
                          | Some m => m
                          end))
  else if (status response =? "pending") || (status response =? "processing") then
    if (retries (poller w) <? maxRetries)%nat then
      (w |> incrRetries
         |> emit (SetTimeout 2000%Z)
         |> setPhase TimerPending,
       None)
    else
      (w, Some (ErrorObject "Analysis timed out. Please try again."))
  else
    (w, None).

(** The [catch (err)] block. *)
Definition catchBlock (err : Thrown) (w : World) : World :=
  let errorMessage :=
    match err with
    | ErrorObject message => message
    | NotAnError => "Failed to check analysis status"
    end in
  w |> emit (ConsoleError "Error checking analysis status:" err)
    |> setError (Some errorMessage)
    |> emit (ToastError errorMessage)
    |> setIsAnalyzing false
    |> setCurrentJobId None.

(** [checkStatus] from its [await] on, once the request has settled. *)
Definition checkStatusResume (reply : Reply) (w : World) : World :=
  let w := w |> setPhase Idle in
  match reply with
  | Rejected err => catchBlock err w
  | Resolved response =>
      match tryBlock response w with
      | (w, None) => w
      | (w, Some err) => catchBlock err w
      end
  end.

(** [pollAnalysisResult(jobId)], in the closure that sees [captured] as
    [capturedImage]: a fresh [retries], and the first [checkStatus()]. *)
Definition pollAnalysisResult (captured : option string) (job : string)
                              (w : World) : World :=
  w |> withPoller (fun _ => {| jobId := job;
                               closureImage := captured;
                               retries := 0;
                               phase := Idle |})
    |> checkStatus.

Definition resetScanner (w : World) : World :=
  w |> setAnalysisResult None
    |> setError None
    |> setCapturedImage None
    |> setImageFileName "".

(** ** Runs *)

(** What can happen to the page while a job is polled: the pending
    request settles, the armed timer fires, the user resets the scanner. *)
Inductive Action : Type :=
| Deliver (reply : Reply)
| TimerFires
| ResetScanner.

Definition step (w : World) (a : Action) : World :=
  match a with
  | Deliver reply =>
      match phase (poller w) with
      | AwaitingReply => checkStatusResume reply w
      | _ => w
      end
  | TimerFires =>
      match phase (poller w) with
      | TimerPending => checkStatus w
      | _ => w
      end
  | ResetScanner => resetScanner w
  end.

Definition run (actions : list Action) (w : World) : World :=
  fold_left step actions w.

(** The run in which the successive status checks are answered by
    [replies], each armed timer firing in turn. *)
Definition answers (replies : list Reply) : list Action :=
  flat_map (fun reply => [Deliver reply; TimerFires]) replies.

(** The component as mounted. *)
Definition mounted : World :=
  {| ui := {| showCamera := false;
              isAnalyzing := false;
              analysisResult := None;
              error := None;
              capturedImage := None;
              imageFileName := "";
              equipmentItems := [];
              analysisMetadata := None;
              currentJobId := None;
              analysisStatus := "" |};
     analysisHistory := [];
     poller := {| jobId := ""; closureImage := None;
                  retries := 0; phase := Idle |};
     effects := [] |}.

(** [analyzeImage] up to its [await], then from the moment the job is
    created: the page as it stands when polling starts. *)
Definition analyzeImageBegin (imageData fileName : string) (w : World)
  : World :=
  w |> setIsAnalyzing true
    |> setError None
    |> setEquipmentItems []
    |> setAnalysisMetadata None
    |> setAnalysisResult None
    |> setCapturedImage (Some ("data:image/jpeg;base64," ++ imageData))
    |> setImageFileName fileName
    |> setAnalysisStatus "pending".

Definition analyzeImageJobCreated (captured : option string) (job : string)
                                  (w : World) : World :=
  w |> setCurrentJobId (Some job)
    |> emit (ToastSuccess "Analysis job created. Processing image...")
    |> pollAnalysisResult captured job.

(** ** Observations *)

Definition isCheck (e : Effect) : bool :=
  match e with
  | GetAnalysisResult _ => true
  | _ => false
  end.

(** Number of status checks issued so far. *)
Definition checks (w : World) : nat :=
  List.length (filter isCheck (effects w)).

(** The job still has a request in flight or a timer armed. *)
Definition polling (w : World) : bool :=
  match phase (poller w) with
  | Idle => false
  | _ => true
  end.

(** The response of a job in state [s]. *)
Definition respond (s : string) (payload : AnalysisPayload)
  : AnalysisResultResponse :=
  {| id := "job"; asset_tag := None; original_filename := "";
     status := s; result := payload; error_message := None;
     response_confidence_score := 0%Q; created_at := ""; completed_at := "";
     processing_time := 0%Q |}.

Definition emptyPayload : AnalysisPayload :=
  {| asset_tags := []; equipment := []; image_quality := "";
     total_items := 0%Z; recommendations := ""; confidence_score := 0%Q |}.

(** The states of the specification, read off the page. *)
Definition Failed (reason : string) (w : World) : Prop :=
  phase (poller w) = Idle
  /\ error (ui w) = Some reason
  /\ isAnalyzing (ui w) = false
  /\ currentJobId (ui w) = None
  /\ In (ToastError reason) (effects w).

Definition Completed (payload : AnalysisPayload) (w : World) : Prop :=
  phase (poller w) = Idle
  /\ analysisStatus (ui w) = "completed"
  /\ equipmentItems (ui w) = equipment payload
  /\ (exists m, analysisMetadata (ui w) = Some m
                /\ imageQuality m = image_quality payload
                /\ totalItems m = total_items payload
                /\ metadataRecommendations m = recommendations payload
                /\ confidenceScore m = confidence_score payload)
  /\ isAnalyzing (ui w) = false
  /\ currentJobId (ui w) = None.

Definition isKnownStatus (s : string) : bool :=
  (s =? "pending") || (s =? "processing")
  || (s =? "completed") || (s =? "failed").

Definition notReady (reply : Reply) : bool :=
  match reply with
  | Resolved r => (status r =? "pending") || (status r =? "processing")
  | Rejected _ => false
  end.

Definition timeoutMessage : string := "Analysis timed out. Please try again.".

(** The page once a job has been created for an uploaded image, its first
    status check in flight. *)
Definition scanning : World :=
  mounted |> analyzeImageBegin "aGVsbG8=" "photo.jpg"
          |> analyzeImageJobCreated None "job-1".

(** A backend whose job never leaves ['processing']. *)
Definition alwaysProcessing : nat -> Reply :=
  fun _ => Resolved (respond "processing" emptyPayload).

(** The first [n] replies of a backend. *)
Definition firstReplies (server : nat -> Reply) (n : nat) : list Reply :=
  map server (seq 0 n).

Definition onePayload : AnalysisPayload :=
  {| asset_tags := ["GYM-001"];
     equipment := [ {| type := "dumbbell"; weight := Some "10kg";
                       description := "Hex dumbbell"; condition := "good";
                       suggested_asset_tag := "GYM-001";
                       location_in_image := "center" |} ];
     image_quality := "good";
     total_items := 1%Z;
     recommendations := "none";
     confidence_score := (9 # 10)%Q |}.

(** Two worlds that agree on everything the poller reads or writes, and
    may differ in the four variables that [resetScanner] clears. *)
Definition samePolling (w1 w2 : World) : Prop :=
  poller w1 = poller w2
  /\ effects w1 = effects w2
  /\ analysisHistory w1 = analysisHistory w2
  /\ showCamera (ui w1) = showCamera (ui w2)
  /\ isAnalyzing (ui w1) = isAnalyzing (ui w2)
  /\ equipmentItems (ui w1) = equipmentItems (ui w2)
  /\ analysisMetadata (ui w1) = analysisMetadata (ui w2)
  /\ currentJobId (ui w1) = currentJobId (ui w2)
  /\ analysisStatus (ui w1) = analysisStatus (ui w2).

End EquipmentScanner.

(* ================================================================== *)
(** * An order on the quality tiers *)

Module TierOrder.

Import Scoring.

(** Position of a tier, from ['poor'] up to ['excellent']. *)
Definition tierRank (q : Quality) : nat :=
  match q with
  | poor => 0
  | fair => 1
  | good => 2
  | excellent => 3
  end.

End TierOrder.

(* ================================================================== *)
(** * More of the scanner page ([pages/EquipmentScanner.tsx]) *)

Module ScannerPage.

Import EquipmentScanner.
#[local] Open Scope string_scope.

(** The [catch (err)] block of [analyzeImage]: the submission of the image
    was rejected, or [pollAnalysisResult] threw. *)
Definition analyzeImageCatch (err : Thrown) (w : World) : World :=
  let errorMessage :=
    match err with
    | ErrorObject message => message
    | NotAnError => "Failed to analyze image"
    end in
  emit (ConsoleError "Analysis error:" err) w
  |> setError (Some errorMessage)
  |> emit (ToastError errorMessage)
  |> setIsAnalyzing false
  |> setCurrentJobId None.

(** [analyzeImage(imageData, fileName)] when the backend accepts the image
    and names the job [job]: the state is prepared, the job is recorded and
    the first status check leaves. *)
Definition analyzeImage (captured : option string)
                        (imageData fileName job : string) (w : World)
  : World :=
  w |> analyzeImageBegin imageData fileName
    |> analyzeImageJobCreated captured job.

(** [analyzeImage] when the submission is rejected with [err]. *)
Definition analyzeImageRejected (imageData fileName : string) (err : Thrown)
                                (w : World) : World :=
  w |> analyzeImageBegin imageData fileName
    |> analyzeImageCatch err.

(** [resetScannerComplete], the handler of the later version of the page. *)
Definition resetScannerComplete (w : World) : World :=
  w |> setAnalysisResult None
    |> setEquipmentItems []
    |> setAnalysisMetadata None
    |> setError None
    |> setCapturedImage None
    |> setImageFileName ""
    |> setCurrentJobId None
    |> setAnalysisStatus "".

Definition isTimer (e : Effect) : bool :=
  match e with
  | SetTimeout _ => true
  | _ => false
  end.

(** Number of timers armed so far. *)
Definition timers (w : World) : nat :=
  List.length (filter isTimer (effects w)).

(** The delay of every timer an effect list arms is 2000 ms. *)
Definition timersOf2000 (es : list Effect) : Prop :=
  forall d, In (SetTimeout d) es -> d = 2000%Z.

(** What [error_message || 'Analysis failed'] evaluates to. *)
Definition failureMessage (response : AnalysisResultResponse) : string :=
  match error_message response with
  | Some "" | None => "Analysis failed"
  | Some m => m
  end.

(** Two worlds with the same poller, the same effects so far and the same
    history: they may differ in every variable of the component. *)
Definition sameJob (w1 w2 : World) : Prop :=
  poller w1 = poller w2
  /\ effects w1 = effects w2
  /\ analysisHistory w1 = analysisHistory w2.

(** The account that a poll keeps, [c0] checks, [t0] timers and [h0] stored
    results having been there when it started. *)
Definition withinBudget (c0 t0 h0 : nat) (w : World) : Prop :=
  retries (poller w) <= maxRetries
  /\ timers w = t0 + retries (poller w)
  /\ checks w = c0 + retries (poller w)
                + match phase (poller w) with TimerPending => 0 | _ => 1 end
  /\ h0 <= List.length (analysisHistory w) <= h0 + 1
  /\ (polling w = true -> List.length (analysisHistory w) = h0).

(** What the page shows while and after a job is polled, [h0] results
    having been stored before. *)
Definition pageConsistent (h0 : nat) (w : World) : Prop :=
  (polling w = true ->
   isAnalyzing (ui w) = true
   /\ error (ui w) = None
   /\ equipmentItems (ui w) = []
   /\ List.length (analysisHistory w) = h0)
  /\ (error (ui w) <> None ->
      isAnalyzing (ui w) = false
      /\ equipmentItems (ui w) = []
      /\ List.length (analysisHistory w) = h0)
  /\ (isAnalyzing (ui w) = false -> polling w = false).

End ScannerPage.

(* ================================================================== *)
(** * One visit of the scanner page
      ([App.tsx], [components/Layout/Layout.tsx],
       [pages/EquipmentScanner.tsx]) *)

Module ScannerVisit.

Import EquipmentScanner.
#[local] Open Scope string_scope.

(** ** Leaving the page *)

(** The entries [navItems] of the drawer of [Layout], which is on screen
    on every page; [handleNavigation] calls [navigate] with the path of the
    entry. *)
Inductive NavItem : Type :=
| EquipmentScannerItem
| RegisterAssetItem
| ViewAssetsItem
| SearchAssetItem
| ReportsItem.

Definition path (item : NavItem) : string :=
  match item with
  | EquipmentScannerItem => "/scanner"
  | RegisterAssetItem => "/register"
  | ViewAssetsItem => "/assets"
  | SearchAssetItem => "/search"
  | ReportsItem => "/reports"
  end.

(** The route of [App.tsx] whose element is [<EquipmentScanner />]. *)
Definition showsScanner (p : string) : bool := p =? "/scanner".

(** An instance of the component, from the moment it is mounted: the world
    it acts on, and whether it is still mounted.  The variables [ui] are
    those of the instance.  The component has no [useEffect], hence no
    cleanup; it keeps no handle of the timer it arms and passes no signal
    to its request: when the instance is unmounted the closure
    [checkStatus], its request and its timer live on, and only the updates
    of the variables of the instance are dropped. *)
Record Visit : Type := {
  world : World;
  onScreen : bool
}.

Definition arrive (w : World) : Visit :=
  {| world := w; onScreen := true |}.

(** ** The controls bound to [resetScanner] *)

(** 'Try Again' in the error alert; the refresh icon and 'Scan Another' in
    the card of the results. *)
Inductive ResetControl : Type :=
| TryAgain
| AnalyzeAnotherImage
| ScanAnother.

(** A string in a condition of the JSX: [null] and the empty string are
    falsy. *)
Definition truthyText (o : option string) : bool :=
  match o with
  | Some "" | None => false
  | Some _ => true
  end.

(** [{error && (...)}] and [{analysisResult && !isAnalyzing && (...)}]. *)
Definition rendered (c : ResetControl) (v : Visit) : bool :=
  onScreen v
  && match c with
     | TryAgain => truthyText (error (ui (world v)))
     | AnalyzeAnotherImage | ScanAnother =>
         match analysisResult (ui (world v)) with
         | Some _ => negb (isAnalyzing (ui (world v)))
         | None => false
         end
     end.

(** ** Events of a visit *)

(** The pending request settles, the armed timer fires, the user clicks a
    control bound to [resetScanner] or an entry of the drawer. *)
Inductive Event : Type :=
| Settles (reply : Reply)
| TimerElapses
| Click (control : ResetControl)
| Navigate (item : NavItem).

(** What a run of [checkStatus] that took [w] to [w'] leaves when the
    instance is unmounted: its requests, timers and toasts, its own
    variables and what it added to the store, but no update of the
    variables of the component. *)
Definition dropUpdates (w w' : World) : World :=
  {| ui := ui w;
     analysisHistory := analysisHistory w';
     poller := poller w';
     effects := effects w' |}.

(** The closure [checkStatus] runs, on screen or not. *)
Definition closureStep (v : Visit) (a : Action) : Visit :=
  let w' := step (world v) a in
  {| world := if onScreen v then w' else dropUpdates (world v) w';
     onScreen := onScreen v |}.

Definition visitStep (v : Visit) (e : Event) : Visit :=
  match e with
  | Settles reply => closureStep v (Deliver reply)
  | TimerElapses => closureStep v TimerFires
  | Click control =>
      if rendered control v
      then {| world := resetScanner (world v); onScreen := onScreen v |}
      else v
  | Navigate item =>
      if showsScanner (path item) then v
      else {| world := world v; onScreen := false |}
  end.

Definition visit (events : list Event) (v : Visit) : Visit :=
  fold_left visitStep events v.

(** A visit in which a job has just been created for an image. *)
Definition scanningVisit : Visit := arrive scanning.

End ScannerVisit.

(* ================================================================== *)
(** * The asset store ([store/assetStore.ts]) and its users *)

Module AssetStore.

#[local] Open Scope string_scope.

Record Asset : Type := {
  id : Z;
  asset_tag : string;
  item_type : string;
  description : string;
  location : string;
  last_seen : string;
  status : string;
  weight : option string;
  condition : string;
  notes : option string
}.

(** [Omit<Asset, 'id'>] *)
Record AssetData : Type := {
  d_asset_tag : string;
  d_item_type : string;
  d_description : string;
  d_location : string;
  d_last_seen : string;
  d_status : string;
  d_weight : option string;
  d_condition : string;
  d_notes : option string
}.

(** [Partial<Asset>]: [None] for a key that the object does not have.  The
    optional fields may be present and [undefined]. *)
Record AssetUpdates : Type := {
  u_id : option Z;
  u_asset_tag : option string;
  u_item_type : option string;
  u_description : option string;
  u_location : option string;
  u_last_seen : option string;
  u_status : option string;
  u_weight : option (option string);
  u_condition : option string;
  u_notes : option (option string)
}.

Record AuditLog : Type := {
  log_id : Z;
  log_asset_tag : string;
  action : string;
  timestamp : string;
  log_location : string;
  log_notes : option string
}.

(** [Omit<AuditLog, 'id'>] *)
Record AuditLogData : Type := {
  ld_asset_tag : string;
  ld_action : string;
  ld_timestamp : string;
  ld_location : string;
  ld_notes : option string
}.

(** The part of the store that the asset and registration actions use.
    [registeredItems] is a [Set<string>], kept in insertion order. *)
Record Store : Type := {
  assets : list Asset;
  auditLogs : list AuditLog;
  registeredItems : list string
}.

(** What the two readings of the clock give: [Date.now()] and
    [new Date().toISOString()]. *)
Record Clock : Type := {
  now : Z;
  isoString : string
}.

Definition initialStore : Store :=
  {| assets := []; auditLogs := []; registeredItems := [] |}.

Definition setAssets (l : list Asset) (s : Store) : Store :=
  {| assets := l;
     auditLogs := auditLogs s;
     registeredItems := registeredItems s |}.

Definition setRegisteredItems (l : list string) (s : Store) : Store :=
  {| assets := assets s;
     auditLogs := auditLogs s;
     registeredItems := l |}.

Definition addAuditLog (clock : Clock) (logData : AuditLogData) (s : Store)
  : Store :=
  let newLog :=
    {| log_id := now clock;
       log_asset_tag := ld_asset_tag logData;
       action := ld_action logData;
       timestamp := ld_timestamp logData;
       log_location := ld_location logData;
       log_notes := ld_notes logData |} in
  {| assets := assets s;
     auditLogs := auditLogs s ++ [newLog];
     registeredItems := registeredItems s |}.

(** [addAsset]: the clock is read for the id of the asset, then for the
    audit entry. *)
Definition addAsset (clock logClock : Clock) (assetData : AssetData)
                    (s : Store) : Store :=
  let newAsset :=
    {| id := now clock;
       asset_tag := d_asset_tag assetData;
       item_type := d_item_type assetData;
       description := d_description assetData;
       location := d_location assetData;
       last_seen := d_last_seen assetData;
       status := d_status assetData;
       weight := d_weight assetData;
       condition := d_condition assetData;
       notes := d_notes assetData |} in
  let s := setAssets (assets s ++ [newAsset]) s in
  addAuditLog logClock
    {| ld_asset_tag := d_asset_tag assetData;
       ld_action := "REGISTERED";
       ld_timestamp := isoString logClock;
       ld_location := d_location assetData;
       ld_notes := Some ("Added " ++ d_item_type assetData) |} s.

Definition orElse {A : Type} (o : option A) (d : A) : A :=
  match o with
  | Some v => v
  | None => d
  end.

(** [{ ...asset, ...updates }] *)
Definition merge (asset : Asset) (updates : AssetUpdates) : Asset :=
  {| id := orElse (u_id updates) (id asset);
     asset_tag := orElse (u_asset_tag updates) (asset_tag asset);
     item_type := orElse (u_item_type updates) (item_type asset);
     description := orElse (u_description updates) (description asset);
     location := orElse (u_location updates) (location asset);
     last_seen := orElse (u_last_seen updates) (last_seen asset);
     status := orElse (u_status updates) (status asset);
     weight := orElse (u_weight updates) (weight asset);
     condition := orElse (u_condition updates) (condition asset);
     notes := orElse (u_notes updates) (notes asset) |}.

(** A string in a condition: the empty string is falsy. *)
Definition truthy (o : option string) : bool :=
  match o with
  | Some "" | None => false
  | Some _ => true
  end.

Definition updateAsset (clock : Clock) (target : Z) (updates : AssetUpdates)
                       (s : Store) : Store :=
  let s :=
    setAssets (map (fun asset =>
                      if (id asset =? target)%Z then merge asset updates
                      else asset)
                   (assets s)) s in
  if truthy (u_location updates) then
    match find (fun a => (id a =? target)%Z) (assets s) with
    | Some asset =>
        addAuditLog clock
          {| ld_asset_tag := asset_tag asset;
             ld_action := "MOVED";
             ld_timestamp := isoString clock;
             ld_location := orElse (u_location updates) "";
             ld_notes :=
               Some (match u_notes updates with
                     | Some (Some n) =>
                         if truthy (Some n) then n else "Location updated"
                     | _ => "Location updated"
                     end) |} s
    | None => s
    end
  else s.

Definition deleteAsset (clock : Clock) (target : Z) (s : Store) : Store :=
  match find (fun a => (id a =? target)%Z) (assets s) with
  | Some asset =>
      let s :=
        setAssets (filter (fun a => negb (id a =? target)%Z) (assets s)) s in
      addAuditLog clock
        {| ld_asset_tag := asset_tag asset;
           ld_action := "DELETED";
           ld_timestamp := isoString clock;
           ld_location := location asset;
           ld_notes := Some "Asset removed from system" |} s
  | None => s
  end.

(** [new Set([...Array.from(state.registeredItems), itemKey])] *)
Definition addRegisteredItem (itemKey : string) (s : Store) : Store :=
  setRegisteredItems
    (if existsb (String.eqb itemKey) (registeredItems s)
     then registeredItems s
     else registeredItems s ++ [itemKey]) s.

Definition removeRegisteredItem (itemKey : string) (s : Store) : Store :=
  setRegisteredItems
    (filter (fun k => negb (k =? itemKey)) (registeredItems s)) s.

Definition clearRegisteredItems (s : Store) : Store :=
  setRegisteredItems [] s.

Definition getAssetsByType (type : string) (s : Store) : list Asset :=
  filter (fun asset => item_type asset =? type) (assets s).

Definition getAssetsByStatus (st : string) (s : Store) : list Asset :=
  filter (fun asset => status asset =? st) (assets s).

Definition getTotalAssets (s : Store) : nat := List.length (assets s).

Definition getActiveAssets (s : Store) : nat :=
  List.length (filter (fun asset => status asset =? "Active") (assets s)).

Definition getMissingAssets (s : Store) : nat :=
  List.length (filter (fun asset => status asset =? "Missing") (assets s)).

Definition getAssetsNeedingRepair (s : Store) : nat :=
  List.length
    (filter (fun asset => condition asset =? "Needs Repair") (assets s)).

(** ** [stats] of the reports page ([pages/Reports.tsx]) *)

Record Stats : Type := {
  total : nat;
  active : nat;
  missing : nat;
  needsRepair : nat;
  outOfService : nat;
  activePercentage : JsNumber.number;
  missingPercentage : JsNumber.number
}.

(** [Math.round((part / total) * 100)], on two lengths. *)
Definition percentage (part total : nat) : JsNumber.number :=
  Double.Math_round
    (Double.mul (Double.div (JsNumber.of_Z (Z.of_nat part))
                            (JsNumber.of_Z (Z.of_nat total)))
                (JsNumber.of_Z 100)).

Definition stats (s : Store) : Stats :=
  let total := getTotalAssets s in
  let active := getActiveAssets s in
  let missing := getMissingAssets s in
  let needsRepair := getAssetsNeedingRepair s in
  let outOfService :=
    List.length
      (filter (fun a => status a =? "Out of Service") (assets s)) in
  {| total := total;
     active := active;
     missing := missing;
     needsRepair := needsRepair;
     outOfService := outOfService;
     activePercentage := if (0 <? total)%nat then percentage active total
                         else JsNumber.of_Z 0;
     missingPercentage := if (0 <? total)%nat then percentage missing total
                          else JsNumber.of_Z 0 |}.

(** The three values of the type of [status]. *)
Definition knownStatus (a : Asset) : Prop :=
  status a = "Active" \/ status a = "Out of Service" \/ status a = "Missing".

(** ** Lookups by tag, and the registration form

    [String.prototype.toLowerCase] and [trim] follow the Unicode tables of
    the engine; what is proved holds whatever they are. *)
Section CaseFolding.

Variable toLowerCase : string -> string.
Variable trim : string -> string.

Definition getAssetByTag (tag : string) (s : Store) : option Asset :=
  find (fun asset => toLowerCase (asset_tag asset) =? toLowerCase tag)
       (assets s).

(** The fields of the registration form ([pages/RegisterAsset.tsx]). *)
Record FormData : Type := {
  f_asset_tag : string;
  f_item_type : string;
  f_description : string;
  f_location : string;
  f_weight : string;
  f_condition : string;
  f_status : string;
  f_notes : string
}.

(** [validateForm]: whether [newErrors] has no key. *)
Definition validateForm (formData : FormData) : bool :=
  negb (trim (f_asset_tag formData) =? "")
  && negb (f_item_type formData =? "")
  && negb (trim (f_location formData) =? "").

(** What [handleSubmit] does to the store. *)
Definition handleSubmit (clock logClock : Clock) (formData : FormData)
                        (s : Store) : Store :=
  if negb (validateForm formData) then s
  else
    match getAssetByTag (f_asset_tag formData) s with
    | Some _ => s
    | None =>
        addAsset clock logClock
          {| d_asset_tag := f_asset_tag formData;
             d_item_type := f_item_type formData;
             d_description := f_description formData;
             d_location := f_location formData;
             d_last_seen := isoString clock;
             d_status := f_status formData;
             d_weight := Some (f_weight formData);
             d_condition := f_condition formData;
             d_notes := Some (f_notes formData) |} s
    end.

(** The tags of the store, case folded. *)
Definition foldedTags (s : Store) : list string :=
  map (fun a => toLowerCase (asset_tag a)) (assets s).

End CaseFolding.

Definition sampleAsset (n : Z) (tag st : string) : Asset :=
  {| id := n; asset_tag := tag; item_type := "Dumbbell";
     description := ""; location := "Rack A"; last_seen := "";
     status := st; weight := None; condition := "Good"; notes := None |}.

Definition sampleData (tag : string) : AssetData :=
  {| d_asset_tag := tag; d_item_type := "Dumbbell"; d_description := "";
     d_location := "Rack A"; d_last_seen := ""; d_status := "Active";
     d_weight := None; d_condition := "Good"; d_notes := None |}.

Definition noUpdates : AssetUpdates :=
  {| u_id := None; u_asset_tag := None; u_item_type := None;
     u_description := None; u_location := None; u_last_seen := None;
     u_status := None; u_weight := None; u_condition := None;
     u_notes := None |}.

End AssetStore.

(* ================================================================== *)
(** * Image enhancement ([imageAnalysisUtils.ts]) *)

Module ImageEnhance.

Import JsNumber ImageAnalysisUtils.

(** ** Typed-array reads and writes *)

(** [data[i]] as an integer; [None] is [undefined]. *)
Definition readZ (data : list Z) (i : Z) : option Z :=
  if (i <? 0)%Z then None else nth_error data (Z.to_nat i).

Fixpoint update (i : nat) (v : Z) (l : list Z) : list Z :=
  match l, i with
  | [], _ => []
  | _ :: t, O => v :: t
  | h :: t, S i' => h :: update i' v t
  end.

(** [data[i] = v]: nothing happens outside the array. *)
Definition write (data : list Z) (i : Z) (v : Z) : list Z :=
  if (i <? 0)%Z then data else update (Z.to_nat i) v data.

(** ** [applySharpenFilter] *)

Definition sharpenKernel : list Z := [0; -1; 0; -1; 5; -1; 0; -1; 0]%Z.

(** The two inner loops, over [ky] and [kx]: [None] is a [NaN] sum, from a
    read outside the array. *)
Definition sharpenSum (data : Uint8ClampedArray) (width x y c : Z)
  : option Z :=
  fold_left
    (fun sum ky =>
       fold_left
         (fun sum kx =>
            let idx := (((y + ky) * width + (x + kx)) * 4 + c)%Z in
            let kernelIdx := ((ky + 1) * 3 + (kx + 1))%Z in
            match sum, readZ data idx, readZ sharpenKernel kernelIdx with
            | Some s, Some d, Some k => Some (s + d * k)%Z
            | _, _, _ => None
            end)
         (countUp (-1) 2 1) sum)
    (countUp (-1) 2 1) (Some 0%Z).

(** What [newData[newIdx] = Math.min(255, Math.max(0, sum))] stores. *)
Definition clampStore (sum : option Z) : Z :=
  match sum with
  | Some s => Z.min 255 (Z.max 0 s)
  | None => 0%Z
  end.

(** The filter reads [data] and writes the copy [newData], which replaces
    [data] at the end. *)
Definition applySharpenFilter (data : Uint8ClampedArray) (width height : Z)
  : Uint8ClampedArray :=
  let newData := data in
  fold_left
    (fun newData y =>
       fold_left
         (fun newData x =>
            fold_left
              (fun newData c =>
                 let sum := sharpenSum data width x y c in
                 let newIdx := ((y * width + x) * 4 + c)%Z in
                 write newData newIdx (clampStore sum))
              (countUp 0 3 1) newData)
         (countUp 1 (width - 1) 1) newData)
    (countUp 1 (height - 1) 1) newData.

(** The samples that the filter rewrites, in the order of its loops. *)
Definition interiorSamples (width height : Z) : list (Z * Z * Z) :=
  flat_map (fun y => flat_map (fun x => map (fun c => (x, y, c))
                                            (countUp 0 3 1))
                              (countUp 1 (width - 1) 1))
           (countUp 1 (height - 1) 1).

(** ** [enhanceImage] *)

Record EnhanceOptions : Type := {
  optBrightness : option number;
  optContrast : option number;
  optSharpen : bool
}.

(** [data[i]] as a number. *)
Definition readN (data : list Z) (i : Z) : number :=
  match readZ data i with
  | Some v => of_Z v
  | None => NaN
  end.

(** [data[i] = Math.min(255, Math.max(0, f(data[i])))] *)
Definition adjustAt (f : number -> number) (data : list Z) (i : Z) : list Z :=
  write data i
        (JsArith.toUint8Clamp
           (JsArith.Math_min (of_Z 255)
              (JsArith.Math_max (of_Z 0) (f (readN data i))))).

(** The loop shared by the two adjustments: the three colour samples of
    each pixel, in place. *)
Definition adjustColours (f : number -> number) (data : list Z) : list Z :=
  fold_left
    (fun data i =>
       let data := adjustAt f data i in
       let data := adjustAt f data (i + 1) in
       adjustAt f data (i + 2))
    (countUp 0 (len data) 4) data.

Definition brighten (brightnessFactor : number) (v : number) : number :=
  JsArith.add v brightnessFactor.

(** [(259 * (contrast + 255)) / (255 * (259 - contrast))] *)
Definition contrastFactorOf (contrast : number) : number :=
  JsArith.div
    (JsArith.mul (of_Z 259) (JsArith.add contrast (of_Z 255)))
    (JsArith.mul (of_Z 255) (JsArith.sub (of_Z 259) contrast)).

(** [contrastFactor * (v - 128) + 128] *)
Definition stretch (contrastFactor : number) (v : number) : number :=
  JsArith.add (JsArith.mul contrastFactor (JsArith.sub v (of_Z 128)))
              (of_Z 128).

(** [enhanceImage(canvas, options)]: the canvas with its new samples, or
    the message of the [Error] thrown. *)
Definition enhanceImage (canvas : HTMLCanvasElement)
                        (options : EnhanceOptions)
  : string + HTMLCanvasElement :=
  match canvasImageData canvas with
  | None => inl "Could not get canvas context"%string
  | Some data =>
      let data :=
        match optBrightness options with
        | Some brightnessFactor => adjustColours (brighten brightnessFactor) data
        | None => data
        end in
      let data :=
        match optContrast options with
        | Some contrast => adjustColours (stretch (contrastFactorOf contrast)) data
        | None => data
        end in
      let data :=
        if optSharpen options
        then applySharpenFilter data (canvasWidth canvas) (canvasHeight canvas)
        else data in
      inr {| canvasWidth := canvasWidth canvas;
             canvasHeight := canvasHeight canvas;
             canvasImageData := Some data |}
  end.

(** ** The wording of what the filters do, to compare with the code *)

(** The indices of the colour samples of the first [n] pixels, in the order
    in which the adjustments visit them. *)
Definition colourIndices (n : nat) : list Z :=
  flat_map (fun i => [i; i + 1; i + 2]%Z)
           (map (fun k => (4 * Z.of_nat k)%Z) (seq 0 n)).

(** What an adjustment [f] stores for a sample read as [v]. *)
Definition adjusted (f : number -> number) (v : number) : Z :=
  JsArith.toUint8Clamp
    (JsArith.Math_min (of_Z 255) (JsArith.Math_max (of_Z 0) (f v))).

Definition clampByte (v : Z) : Z := Z.min 255 (Z.max 0 v).

(** The sharpened value of sample [c] of the interior pixel [(x, y)]: five
    times the sample, minus its four direct neighbours. *)
Definition sharpened (data : list Z) (width x y c : Z) : Z :=
  clampByte (5 * sample data width x y c
             - sample data width x (y - 1) c - sample data width (x - 1) y c
             - sample data width (x + 1) y c - sample data width x (y + 1) c).

End ImageEnhance.

(* ================================================================== *)
(** * Properties of the quality tier and of the recommendations *)

Import Scoring.

Lemma points_match_bands :
  forall x : number,
    brightnessPoints x = specBrightnessScore x
    /\ contrastPoints x = specContrastScore x
    /\ sharpnessPoints x = specSharpnessScore x
    /\ resolutionPoints x = specResolutionScore x.
Proof. intro x. repeat split; reflexivity. Qed.

Lemma banded_le_3 :
  forall b3 b2 b1 x, banded b3 b2 b1 x <= 3.
Proof.
  intros b3 b2 b1 x. unfold banded.
  destruct (b3 x); [lia|]. destruct (b2 x); [lia|]. destruct (b1 x); lia.
Qed.

Lemma tier_of_score :
  forall b c s p,
    let score := qualityScore b c s p in
    (determineQuality b c s p = excellent <-> 10 <= score)
    /\ (determineQuality b c s p = good <-> 7 <= score < 10)
    /\ (determineQuality b c s p = fair <-> 4 <= score < 7)
    /\ (determineQuality b c s p = poor <-> score < 4).
Proof.
  intros b c s p score. unfold determineQuality. fold score.
  destruct (Nat.leb_spec 10 score) as [H10|H10].
  { repeat split; intros; try discriminate; try lia. }
  destruct (Nat.leb_spec 7 score) as [H7|H7].
  { repeat split; intros; try discriminate; try lia. }
  destruct (Nat.leb_spec 4 score) as [H4|H4];
    repeat split; intros; try discriminate; try lia.
Qed.

(** C7.  The score of [determineQuality] is the sum of the four banded
    sub-scores of the specification, each between 0 and 3, so between 0 and
    12; the tier is excellent exactly from 10, good from 7 to 9, fair from 4
    to 6 and poor below.  A 1920x1080 image of brightness 150, contrast 65
    and sharpness 20 scores 3+3+3+3 = 12, is excellent, and its
    recommendations are the one "optimal" message. *)
Theorem C7_score_bands_and_tier :
  forall b c s p : number,
    let score := qualityScore b c s p in
    score = specBrightnessScore b + specContrastScore c
            + specSharpnessScore s + specResolutionScore p
    /\ specBrightnessScore b <= 3 /\ specContrastScore c <= 3
    /\ specSharpnessScore s <= 3 /\ specResolutionScore p <= 3
    /\ 0 <= score <= 12
    /\ (determineQuality b c s p = excellent <-> 10 <= score)
    /\ (determineQuality b c s p = good <-> 7 <= score < 10)
    /\ (determineQuality b c s p = fair <-> 4 <= score < 7)
    /\ (determineQuality b c s p = poor <-> score < 4)
    /\ (specBrightnessScore (of_Z 150) = 3
        /\ specContrastScore (of_Z 65) = 3
        /\ specSharpnessScore (of_Z 20) = 3
        /\ specResolutionScore (of_Z (1920 * 1080)) = 3
        /\ qualityScore (of_Z 150) (of_Z 65) (of_Z 20)
                        (of_Z (1920 * 1080)) = 12
        /\ determineQuality (of_Z 150) (of_Z 65) (of_Z 20)
                            (of_Z (1920 * 1080)) = excellent
        /\ generateRecommendations (of_Z 150) (of_Z 65) (of_Z 20)
                                   (of_Z (1920 * 1080)) = [msgOptimal]).
Proof.
  intros b c s p score.
  assert (Hsum : score = specBrightnessScore b + specContrastScore c
                         + specSharpnessScore s + specResolutionScore p).
  { subst score. unfold qualityScore.
    destruct (points_match_bands b) as (-> & _).
    destruct (points_match_bands c) as (_ & -> & _).
    destruct (points_match_bands s) as (_ & _ & -> & _).
    destruct (points_match_bands p) as (_ & _ & _ & ->).
    reflexivity. }
  pose proof (banded_le_3 (inBand 120 180) (inBand 100 200) (inBand 80 220) b)
    as Hb.
  pose proof (banded_le_3 (inBand 50 80) (inBand 30 100) (inBand 20 120) c)
    as Hc.
  pose proof (banded_le_3 (fun s => ge s (of_Z 15)) (fun s => ge s (of_Z 10))
                          (fun s => ge s (of_Z 5)) s) as Hs.
  pose proof (banded_le_3 (fun p => ge p (of_Z 2073600))
                          (fun p => ge p (of_Z 921600))
                          (fun p => ge p (of_Z 307200)) p) as Hp.
  fold (specBrightnessScore b) in Hb. fold (specContrastScore c) in Hc.
  fold (specSharpnessScore s) in Hs. fold (specResolutionScore p) in Hp.
  destruct (tier_of_score b c s p) as (He & Hg & Hf & Hpo).
  fold score in He, Hg, Hf, Hpo.
  split; [exact Hsum|].
  do 4 (split; [assumption|]).
  split; [lia|].
  do 4 (split; [assumption|]).
  repeat split; vm_compute; reflexivity.
Qed.

Lemma optimal_is_no_advice :
  msgOptimal <> msgIncreaseLighting /\ msgOptimal <> msgReduceLighting
  /\ msgOptimal <> msgImproveContrast /\ msgOptimal <> msgHoldSteady
  /\ msgOptimal <> msgMoveCloser.
Proof. repeat split; discriminate. Qed.

(** The 320x240 example of the specification, and what [NaN] metrics (an
    empty buffer) give. *)
Example recommendations_320x240_dark :
  brightnessPoints (of_Z 50) = 0
  /\ resolutionPoints (of_Z (320 * 240)) = 0
  /\ generateRecommendations (of_Z 50) (of_Z 65) (of_Z 20) (of_Z (320 * 240))
     = [msgIncreaseLighting; msgMoveCloser].
Proof. repeat split. Qed.

Example metrics_all_NaN :
  qualityScore NaN NaN NaN NaN = 0
  /\ determineQuality NaN NaN NaN NaN = poor
  /\ generateRecommendations NaN NaN NaN NaN = [msgOptimal].
Proof. repeat split. Qed.

(** C8.  The recommendations are never empty; the "optimal" message is among
    them exactly when none of the four deficiency conditions holds
    (brightness < 80 or > 220, contrast < 20, sharpness < 5, pixel count
    < 307200); and when some hold, the list is made of their messages in the
    order lighting, contrast, sharpness, resolution. *)
Theorem C8_recommendations_shape :
  forall b c s p : number,
    let recs := generateRecommendations b c s p in
    recs <> []
    /\ (In msgOptimal recs <->
        lt b (of_Z 80) = false /\ gt b (of_Z 220) = false
        /\ lt c (of_Z 20) = false /\ lt s (of_Z 5) = false
        /\ lt p (of_Z 307200) = false)
    /\ (anyDeficiency b c s p = false -> recs = [msgOptimal])
    /\ (anyDeficiency b c s p = true ->
        recs = lightingAdvice b ++ contrastAdvice c
               ++ sharpnessAdvice s ++ resolutionAdvice p).
Proof.
  intros b c s p recs. subst recs.
  destruct optimal_is_no_advice as (N1 & N2 & N3 & N4 & N5).
  unfold generateRecommendations, anyDeficiency, lightingDeficient,
    lightingAdvice, contrastAdvice, sharpnessAdvice, resolutionAdvice,
    contrastDeficient, sharpnessDeficient, resolutionDeficient.
  destruct (lt b (of_Z 80)); destruct (gt b (of_Z 220));
    destruct (lt c (of_Z 20)); destruct (lt s (of_Z 5));
    destruct (lt p (of_Z 307200)); cbn [app List.length Nat.eqb orb];
    (split; [discriminate|]);
    (split; [split;
             [ intro H; try (repeat split; reflexivity);
               cbn [In] in H; exfalso;
               repeat (destruct H as [H|H]; [congruence|]); exact H
             | intros (? & ? & ? & ? & ?); try discriminate;
               left; reflexivity ] | ]);
    (split; [intro; try discriminate; reflexivity
            | intro; try discriminate; reflexivity]).
Qed.

(* ================================================================== *)
(** * Properties of the poller *)

Module PollerFacts.

Import EquipmentScanner.
#[local] Open Scope string_scope.
#[local] Open Scope list_scope.

Lemma run_app :
  forall a1 a2 w, run (a1 ++ a2) w = run a2 (run a1 w).
Proof. intros. unfold run. apply fold_left_app. Qed.

Lemma answers_app :
  forall r1 r2, answers (r1 ++ r2) = answers r1 ++ answers r2.
Proof. intros. unfold answers. apply flat_map_app. Qed.

Lemma checks_app :
  forall w es,
    List.length (filter isCheck (effects w ++ es))
    = checks w + List.length (filter isCheck es).
Proof.
  intros. unfold checks. rewrite filter_app, length_app. reflexivity.
Qed.

Lemma samePolling_refl : forall w, samePolling w w.
Proof. intro w. repeat split. Qed.

Lemma samePolling_sym :
  forall w1 w2, samePolling w1 w2 -> samePolling w2 w1.
Proof.
  unfold samePolling. intros w1 w2 H.
  destruct H as (H1 & H2 & H3 & H4 & H5 & H6 & H7 & H8 & H9).
  repeat split; symmetry; assumption.
Qed.

Lemma samePolling_trans :
  forall w1 w2 w3,
    samePolling w1 w2 -> samePolling w2 w3 -> samePolling w1 w3.
Proof.
  unfold samePolling. intros w1 w2 w3 H K.
  destruct H as (H1 & H2 & H3 & H4 & H5 & H6 & H7 & H8 & H9).
  destruct K as (K1 & K2 & K3 & K4 & K5 & K6 & K7 & K8 & K9).
  repeat split; etransitivity; eassumption.
Qed.

(** Once the closure is neither awaiting a reply nor a timer, nothing wakes
    it up again: no action issues a request, arms a timer, raises a toast,
    touches the history or the variables that [resetScanner] leaves. *)
Lemma idle_forever :
  forall actions w,
    phase (poller w) = Idle ->
    samePolling (run actions w) w.
Proof.
  induction actions as [|a actions IH]; intros w Hidle.
  - apply samePolling_refl.
  - change (run (a :: actions) w) with (run actions (step w a)).
    assert (Hs : samePolling (step w a) w /\ phase (poller (step w a)) = Idle).
    { destruct a; cbn; rewrite ?Hidle; repeat split; assumption. }
    destruct Hs as [Hs Hi].
    apply samePolling_trans with (step w a); [apply IH, Hi|exact Hs].
Qed.

Lemma idle_answers :
  forall replies w,
    phase (poller w) = Idle -> run (answers replies) w = w.
Proof.
  induction replies as [|r replies IH]; intros w Hidle; [reflexivity|].
  cbn. rewrite Hidle. cbn. rewrite Hidle. apply IH, Hidle.
Qed.

Lemma notReady_status :
  forall r,
    notReady (Resolved r) = true ->
    (status r =? "completed") = false /\ (status r =? "failed") = false
    /\ ((status r =? "pending") || (status r =? "processing")) = true.
Proof.
  intros r H. cbn in H.
  apply orb_true_iff in H.
  destruct H as [H|H]; apply String.eqb_eq in H; rewrite H; repeat split.
Qed.

(** One round while the job is not ready and the budget is not spent: the
    status label is updated, one timer of 2000 ms is armed, it fires, and
    the next request leaves. *)
Lemma round_notReady :
  forall w r,
    phase (poller w) = AwaitingReply ->
    notReady (Resolved r) = true ->
    retries (poller w) < maxRetries ->
    let w' := run (answers [Resolved r]) w in
    phase (poller w') = AwaitingReply
    /\ retries (poller w') = S (retries (poller w))
    /\ jobId (poller w') = jobId (poller w)
    /\ closureImage (poller w') = closureImage (poller w)
    /\ effects w' = effects w ++ [SetTimeout 2000;
                                  GetAnalysisResult (jobId (poller w))]
    /\ analysisHistory w' = analysisHistory w
    /\ ui w' = ui (setAnalysisStatus (status r) w).
Proof.
  intros w r Hph Hnr Hlt.
  destruct (notReady_status r Hnr) as (Hc & Hf & Hp).
  apply Nat.ltb_lt in Hlt.
  cbn -[maxRetries Nat.ltb String.eqb]. rewrite Hph.
  unfold checkStatusResume, tryBlock.
  cbn -[maxRetries Nat.ltb String.eqb].
  rewrite Hc, Hf, Hp, Hlt.
  cbn -[maxRetries Nat.ltb String.eqb].
  rewrite <- app_assoc. repeat split.
Qed.

(** The round that finds the budget spent. *)
Lemma round_timeout :
  forall w r,
    phase (poller w) = AwaitingReply ->
    notReady (Resolved r) = true ->
    retries (poller w) = maxRetries ->
    let w' := step w (Deliver (Resolved r)) in
    Failed timeoutMessage w'
    /\ effects w'
       = effects w
         ++ [ConsoleError "Error checking analysis status:"
                          (ErrorObject timeoutMessage);
             ToastError timeoutMessage]
    /\ analysisHistory w' = analysisHistory w.
Proof.
  intros w r Hph Hnr Hr.
  destruct (notReady_status r Hnr) as (Hc & Hf & Hp).
  cbn -[maxRetries Nat.ltb String.eqb]. rewrite Hph.
  unfold checkStatusResume, tryBlock.
  cbn -[maxRetries Nat.ltb String.eqb].
  rewrite Hc, Hf, Hp, Hr, Nat.ltb_irrefl.
  cbn -[String.eqb]. rewrite <- app_assoc.
  unfold Failed. cbn. repeat split.
  apply in_or_app. right. left. reflexivity.
Qed.

(** Any number of rounds within the budget. *)
Lemma rounds_notReady :
  forall replies w,
    forallb notReady replies = true ->
    phase (poller w) = AwaitingReply ->
    retries (poller w) + List.length replies <= maxRetries ->
    let w' := run (answers replies) w in
    phase (poller w') = AwaitingReply
    /\ retries (poller w') = retries (poller w) + List.length replies
    /\ checks w' = checks w + List.length replies
    /\ analysisHistory w' = analysisHistory w
    /\ isAnalyzing (ui w') = isAnalyzing (ui w)
    /\ error (ui w') = error (ui w)
    /\ currentJobId (ui w') = currentJobId (ui w).
Proof.
  induction replies as [|r replies IH]; intros w Hall Hph Hle.
  - cbn. repeat split; try assumption; lia.
  - cbn [forallb] in Hall. apply andb_true_iff in Hall.
    destruct Hall as [Hr Hall].
    destruct r as [r|e]; [|discriminate Hr].
    cbn [List.length] in Hle.
    assert (Hlt : retries (poller w) < maxRetries) by lia.
    destruct (round_notReady w r Hph Hr Hlt)
      as (Hph1 & Hre1 & _ & _ & Hef1 & Hh1 & Hui1).
    change (answers (Resolved r :: replies))
      with (answers [Resolved r] ++ answers replies).
    cbv zeta. rewrite run_app.
    set (w1 := run (answers [Resolved r]) w) in *.
    assert (Hle1 : retries (poller w1) + List.length replies <= maxRetries)
      by lia.
    destruct (IH w1 Hall Hph1 Hle1) as (P1 & P2 & P3 & P4 & P5 & P6 & P7).
    cbv zeta in P1, P2, P3, P4, P5, P6, P7.
    rewrite P1, P2, P3, P4, P5, P6, P7, Hre1, Hh1, Hui1.
    unfold checks at 1. rewrite Hef1, checks_app.
    cbn. repeat split; lia.
Qed.

(** The round that finds the job completed. *)
Lemma round_completed :
  forall w r,
    phase (poller w) = AwaitingReply ->
    status r = "completed" ->
    let w' := step w (Deliver (Resolved r)) in
    Completed (result r) w'
    /\ effects w' = effects w ++ [ToastSuccess "Equipment analysis completed!"]
    /\ List.length (analysisHistory w') = S (List.length (analysisHistory w))
    /\ error (ui w') = error (ui w).
Proof.
  intros w r Hph Hst.
  cbn -[String.eqb showZ]. rewrite Hph.
  unfold checkStatusResume, tryBlock. rewrite Hst.
  cbn -[showZ]. unfold Completed. cbn -[showZ].
  rewrite length_app. cbn.
  repeat split; try lia.
  eexists. split; [reflexivity|]. cbn. repeat split.
Qed.

(** The catch block, whatever was thrown with a message. *)
Lemma catchBlock_failed :
  forall w message,
    phase (poller w) = Idle ->
    let w' := catchBlock (ErrorObject message) w in
    Failed message w'
    /\ effects w'
       = effects w
         ++ [ConsoleError "Error checking analysis status:"
                          (ErrorObject message);
             ToastError message]
    /\ analysisHistory w' = analysisHistory w.
Proof.
  intros w message Hph. unfold Failed. cbn.
  rewrite <- app_assoc. repeat split; try assumption.
  apply in_or_app. right. right. left. reflexivity.
Qed.

Lemma step_samePolling :
  forall a w1 w2,
    samePolling w1 w2 -> samePolling (step w1 a) (step w2 a).
Proof.
  intros a w1 w2 H.
  destruct w1 as [[sc1 ia1 ar1 er1 ci1 fn1 ei1 am1 cj1 as1] h1 p1 e1].
  destruct w2 as [[sc2 ia2 ar2 er2 ci2 fn2 ei2 am2 cj2 as2] h2 p2 e2].
  unfold samePolling in H. cbn in H.
  destruct H as (H1 & H2 & H3 & H4 & H5 & H6 & H7 & H8 & H9). subst.
  destruct p2 as [j c n ph].
  destruct a as [[r|e]| |]; destruct ph;
    cbn -[String.eqb showZ maxRetries Nat.ltb];
    try apply samePolling_refl; try (repeat split; fail).
  unfold checkStatusResume, tryBlock.
  cbn -[String.eqb showZ maxRetries Nat.ltb].
  destruct (status r =? "completed"); [repeat split|].
  destruct (status r =? "failed"); [repeat split|].
  destruct ((status r =? "pending") || (status r =? "processing"));
    [|repeat split].
  destruct (n <? maxRetries)%nat; repeat split.
Qed.

Lemma run_samePolling :
  forall actions w1 w2,
    samePolling w1 w2 -> samePolling (run actions w1) (run actions w2).
Proof.
  induction actions as [|a actions IH]; intros w1 w2 H; [exact H|].
  change (samePolling (run actions (step w1 a)) (run actions (step w2 a))).
  apply IH, step_samePolling, H.
Qed.

Lemma samePolling_checks :
  forall w1 w2, samePolling w1 w2 -> checks w1 = checks w2.
Proof.
  intros w1 w2 (_ & H & _). unfold checks. rewrite H. reflexivity.
Qed.

Lemma resetScanner_samePolling :
  forall w, samePolling (resetScanner w) w.
Proof. intro w. repeat split. Qed.

Lemma poll_start :
  forall captured job w,
    let s := pollAnalysisResult captured job w in
    phase (poller s) = AwaitingReply
    /\ retries (poller s) = 0
    /\ jobId (poller s) = job
    /\ effects s = effects w ++ [GetAnalysisResult job]
    /\ checks s = checks w + 1
    /\ ui s = ui w
    /\ analysisHistory s = analysisHistory w.
Proof.
  intros captured job w. cbn. unfold checks at 1. cbn.
  rewrite checks_app. repeat split.
Qed.

Lemma forallb_firstReplies :
  forall server,
    (forall k, notReady (server k) = true) ->
    forall l : list nat, forallb notReady (map server l) = true.
Proof.
  intros server H l. apply forallb_forall. intros x Hx.
  apply in_map_iff in Hx. destruct Hx as (k & <- & _). apply H.
Qed.

Lemma run_cons :
  forall a actions w, run (a :: actions) w = run actions (step w a).
Proof. reflexivity. Qed.

Lemma answers_cons :
  forall r replies,
    answers (r :: replies) = Deliver r :: TimerFires :: answers replies.
Proof. reflexivity. Qed.

Lemma step_timer_idle :
  forall w, phase (poller w) = Idle -> step w TimerFires = w.
Proof. intros w H. cbn. rewrite H. reflexivity. Qed.

(** C1, as the code has it.  When the job stays 'pending' or 'processing'
    for ever, the poller started by [pollAnalysisResult] issues exactly 31
    status checks, the first one and 30 retries: after each of the first 30
    answers the job is still polled and the next check has left; the 31st
    answer ends it in the Failed state with the timeout reason, and no 32nd
    check is ever issued. *)
Theorem C1_timeout_after_31_checks :
  forall (server : nat -> Reply) captured job w n,
    (forall k, notReady (server k) = true) ->
    31 <= n ->
    let start := pollAnalysisResult captured job w in
    let w' := run (answers (firstReplies server n)) start in
    checks w' = checks w + 31
    /\ Failed timeoutMessage w'
    /\ polling w' = false
    /\ (forall k,
          k <= 30 ->
          let wk := run (answers (firstReplies server k)) start in
          polling wk = true
          /\ checks wk = checks w + k + 1
          /\ retries (poller wk) = k).
Proof.
  intros server captured job w n Hnr Hn start w'.
  destruct (poll_start captured job w) as (Sph & Sre & _ & _ & Sch & _).
  fold start in Sph, Sre, Sch.
  assert (Hk : forall k,
             k <= 30 ->
             let wk := run (answers (firstReplies server k)) start in
             phase (poller wk) = AwaitingReply
             /\ checks wk = checks w + k + 1
             /\ retries (poller wk) = k).
  { intros k Hk wk.
    destruct (rounds_notReady (firstReplies server k) start
                (forallb_firstReplies server Hnr _) Sph)
      as (P1 & P2 & P3 & _).
    - unfold firstReplies. rewrite length_map, length_seq, Sre.
      unfold maxRetries. lia.
    - unfold firstReplies in P2, P3.
      rewrite length_map, length_seq in P2, P3.
      fold (firstReplies server k) in P1, P2, P3. fold wk in P1, P2, P3.
      repeat split; [exact P1| lia | lia]. }
  split; [|split; [|split]].
  4:{ intros k Hle wk. destruct (Hk k Hle) as (P1 & P2 & P3).
      fold wk in P1, P2, P3. unfold polling. rewrite P1. auto. }
  all: destruct (Hk 30 (le_n 30)) as (P1 & P2 & P3);
    cbv zeta in P1, P2, P3;
    remember (run (answers (firstReplies server 30)) start) as w30 eqn:Hw30;
    pose proof (Hnr 30) as H30;
    destruct (server 30) as [r30|e30] eqn:E30; [|discriminate H30];
    destruct (round_timeout w30 r30 P1 H30 P3) as (F & E & _);
    cbv zeta in F, E;
    remember (step w30 (Deliver (Resolved r30))) as w31 eqn:Hw31;
    assert (I31 : phase (poller w31) = Idle)
      by (pose proof F as F'; unfold Failed in F'; tauto);
    assert (Hw : w' = w31)
      by (subst w'; unfold firstReplies;
          replace n with (30 + S (n - 31)) by lia;
          rewrite seq_app, map_app, answers_app, run_app;
          fold (firstReplies server 30); rewrite <- Hw30;
          cbn [Nat.add]; rewrite <- cons_seq, map_cons, E30;
          rewrite answers_cons, !run_cons, <- Hw31;
          rewrite (step_timer_idle w31 I31);
          apply idle_answers, I31);
    rewrite Hw.
  - unfold checks at 1. rewrite E, checks_app. cbn. lia.
  - exact F.
  - unfold polling. rewrite I31. reflexivity.
Qed.

Lemma C1_timeout_after_31_checks_witness :
  (forall k, notReady (alwaysProcessing k) = true)
  /\ 31 <= 40
  /\ checks (run (answers (firstReplies alwaysProcessing 40))
                 (pollAnalysisResult None "job-1" mounted))
     = checks mounted + 31.
Proof.
  assert (H : forall k, notReady (alwaysProcessing k) = true)
    by (intro k; reflexivity).
  assert (L : 31 <= 40) by lia.
  split; [exact H|]. split; [exact L|].
  exact (proj1 (C1_timeout_after_31_checks alwaysProcessing None "job-1"
                  mounted 40 H L)).
Defined.

(** C1, as the claim has it, fails: with a job that stays 'processing', the
    30th answer does not end the job in Failed, a 31st check leaves, and
    the run ends with 31 checks, not 30. *)
Lemma C1_counterexample_31st_check :
  let after k :=
    run (answers (firstReplies alwaysProcessing k))
        (pollAnalysisResult None "job-1" mounted) in
  checks (after 29) = 30
  /\ polling (after 29) = true
  /\ error (ui (after 30)) = None
  /\ polling (after 30) = true
  /\ checks (after 30) = 31
  /\ checks (after 40) = 31
  /\ checks (after 40) <> 30
  /\ error (ui (after 40)) = Some timeoutMessage.
Proof.
  cbv zeta. repeat split; try (vm_compute; reflexivity).
  vm_compute. discriminate.
Qed.

(** C4.  With the statuses pending, processing, processing, completed, the
    poller issues exactly 4 status checks, a timer of 2000 ms being armed
    between two consecutive checks and nowhere else, and ends in the
    Completed state with the result of the fourth answer; whatever the
    backend would answer next is never asked for. *)
Theorem C4_four_checks_then_completed :
  forall r1 r2 r3 r4 rest captured job w,
    status r1 = "pending" ->
    status r2 = "processing" ->
    status r3 = "processing" ->
    status r4 = "completed" ->
    let w' :=
      run (answers (map Resolved [r1; r2; r3; r4] ++ rest))
          (pollAnalysisResult captured job w) in
    checks w' = checks w + 4
    /\ effects w'
       = effects w
         ++ [GetAnalysisResult job; SetTimeout 2000;
             GetAnalysisResult job; SetTimeout 2000;
             GetAnalysisResult job; SetTimeout 2000;
             GetAnalysisResult job;
             ToastSuccess "Equipment analysis completed!"]
    /\ Completed (result r4) w'
    /\ polling w' = false.
Proof.
  intros r1 r2 r3 r4 rest captured job w H1 H2 H3 H4 w'.
  destruct (poll_start captured job w) as (Sph & Sre & Sjob & Sef & _).
  remember (pollAnalysisResult captured job w) as w0 eqn:Hw0.
  cbv zeta in Sph, Sre, Sjob, Sef.
  assert (N1 : notReady (Resolved r1) = true) by (cbn; rewrite H1; reflexivity).
  assert (N2 : notReady (Resolved r2) = true) by (cbn; rewrite H2; reflexivity).
  assert (N3 : notReady (Resolved r3) = true) by (cbn; rewrite H3; reflexivity).
  assert (L0 : retries (poller w0) < maxRetries)
    by (rewrite Sre; unfold maxRetries; lia).
  destruct (round_notReady w0 r1 Sph N1 L0) as (A1 & A2 & A3 & _ & A5 & _).
  cbv zeta in A1, A2, A3, A5.
  remember (run (answers [Resolved r1]) w0) as w1 eqn:Hw1.
  assert (L1 : retries (poller w1) < maxRetries)
    by (rewrite A2, Sre; unfold maxRetries; lia).
  destruct (round_notReady w1 r2 A1 N2 L1) as (B1 & B2 & B3 & _ & B5 & _).
  cbv zeta in B1, B2, B3, B5.
  remember (run (answers [Resolved r2]) w1) as w2 eqn:Hw2.
  assert (L2 : retries (poller w2) < maxRetries)
    by (rewrite B2, A2, Sre; unfold maxRetries; lia).
  destruct (round_notReady w2 r3 B1 N3 L2) as (C1 & C2 & C3 & _ & C5 & _).
  cbv zeta in C1, C2, C3, C5.
  remember (run (answers [Resolved r3]) w2) as w3 eqn:Hw3.
  destruct (round_completed w3 r4 C1 H4) as (D1 & D2 & _).
  cbv zeta in D1, D2.
  remember (step w3 (Deliver (Resolved r4))) as w4 eqn:Hw4.
  assert (I4 : phase (poller w4) = Idle)
    by (pose proof D1 as D; unfold Completed in D; tauto).
  assert (Hw : w' = w4).
  { subst w'.
    change (map Resolved [r1; r2; r3; r4] ++ rest)
      with ([Resolved r1] ++ [Resolved r2] ++ [Resolved r3]
            ++ Resolved r4 :: rest).
    rewrite !answers_app, !run_app, <- Hw1, <- Hw2, <- Hw3.
    rewrite answers_cons, !run_cons, <- Hw4.
    rewrite (step_timer_idle w4 I4). apply idle_answers, I4. }
  rewrite Hw.
  assert (Ef : effects w4
               = effects w
                 ++ [GetAnalysisResult job; SetTimeout 2000;
                     GetAnalysisResult job; SetTimeout 2000;
                     GetAnalysisResult job; SetTimeout 2000;
                     GetAnalysisResult job;
                     ToastSuccess "Equipment analysis completed!"]).
  { rewrite D2, C5, B5, B3, A5, A3, Sef, Sjob.
    rewrite <- !app_assoc. reflexivity. }
  split; [|split; [exact Ef|split; [exact D1|]]].
  - unfold checks at 1. rewrite Ef, checks_app. reflexivity.
  - unfold polling. rewrite I4. reflexivity.
Qed.

Lemma C4_four_checks_then_completed_witness :
  let w' :=
    run (answers (map Resolved [respond "pending" emptyPayload;
                                respond "processing" emptyPayload;
                                respond "processing" emptyPayload;
                                respond "completed" onePayload]
                  ++ [Resolved (respond "failed" emptyPayload)]))
        (pollAnalysisResult None "job-1" mounted) in
  checks w' = checks mounted + 4
  /\ effects w'
     = effects mounted
       ++ [GetAnalysisResult "job-1"; SetTimeout 2000;
           GetAnalysisResult "job-1"; SetTimeout 2000;
           GetAnalysisResult "job-1"; SetTimeout 2000;
           GetAnalysisResult "job-1";
           ToastSuccess "Equipment analysis completed!"]
  /\ Completed onePayload w'
  /\ polling w' = false.
Proof.
  apply (C4_four_checks_then_completed
           (respond "pending" emptyPayload)
           (respond "processing" emptyPayload)
           (respond "processing" emptyPayload)
           (respond "completed" onePayload)
           [Resolved (respond "failed" emptyPayload)]
           None "job-1" mounted); reflexivity.
Defined.

(** C5.  A status check that fails at the transport level (the request is
    rejected with an error carrying a message) ends the job at once in the
    Failed state with that message: nothing but the error report happens,
    no timer is armed, and no later action issues another check. *)
Theorem C5_transport_error_is_fatal :
  forall w message,
    phase (poller w) = AwaitingReply ->
    let w' := step w (Deliver (Rejected (ErrorObject message))) in
    Failed message w'
    /\ effects w'
       = effects w
         ++ [ConsoleError "Error checking analysis status:"
                          (ErrorObject message);
             ToastError message]
    /\ checks w' = checks w
    /\ polling w' = false
    /\ (forall actions,
          checks (run actions w') = checks w
          /\ effects (run actions w') = effects w'
          /\ polling (run actions w') = false).
Proof.
  intros w message Hph w'.
  assert (Hw : w' = catchBlock (ErrorObject message) (setPhase Idle w)).
  { subst w'. cbn. rewrite Hph. reflexivity. }
  destruct (catchBlock_failed (setPhase Idle w) message eq_refl)
    as (F & E & _).
  cbv zeta in F, E. rewrite <- Hw in F, E.
  change (effects (setPhase Idle w)) with (effects w) in E.
  assert (I : phase (poller w') = Idle)
    by (pose proof F as F'; unfold Failed in F'; tauto).
  assert (Hc : checks w' = checks w).
  { unfold checks at 1. rewrite E, checks_app. cbn. lia. }
  split; [exact F|]. split; [exact E|]. split; [exact Hc|].
  split; [unfold polling; rewrite I; reflexivity|].
  intro actions.
  pose proof (idle_forever actions w' I) as S.
  rewrite (samePolling_checks _ _ S), Hc.
  destruct S as (Sp & Se & _).
  split; [reflexivity|]. split; [exact Se|].
  unfold polling. rewrite Sp, I. reflexivity.
Qed.

Lemma C5_transport_error_is_fatal_witness :
  phase (poller scanning) = AwaitingReply
  /\ Failed "Network Error"
       (step scanning (Deliver (Rejected (ErrorObject "Network Error")))).
Proof.
  split; [reflexivity|].
  exact (proj1 (C5_transport_error_is_fatal scanning "Network Error"
                  eq_refl)).
Defined.

(** C10.  When a status check answers with a status that is none of
    pending, processing, completed and failed, the poller only updates the
    status label: no error is set, nothing is reported, no timer is armed,
    and from then on no action issues a check or moves the page, which
    stays analysing for ever, neither Completed nor Failed. *)
Theorem C10_unknown_status_stalls :
  forall w r,
    phase (poller w) = AwaitingReply ->
    isKnownStatus (status r) = false ->
    let w' := step w (Deliver (Resolved r)) in
    ui w' = ui (setAnalysisStatus (status r) w)
    /\ error (ui w') = error (ui w)
    /\ effects w' = effects w
    /\ analysisHistory w' = analysisHistory w
    /\ polling w' = false
    /\ (forall actions,
          effects (run actions w') = effects w
          /\ checks (run actions w') = checks w
          /\ polling (run actions w') = false
          /\ isAnalyzing (ui (run actions w')) = isAnalyzing (ui w)
          /\ (isAnalyzing (ui w) = true ->
              forall reason payload,
                ~ Failed reason (run actions w')
                /\ ~ Completed payload (run actions w'))).
Proof.
  intros w r Hph Hk w'.
  unfold isKnownStatus in Hk.
  apply orb_false_iff in Hk. destruct Hk as [Hk Hf].
  apply orb_false_iff in Hk. destruct Hk as [Hk Hc].
  apply orb_false_iff in Hk. destruct Hk as [Hp Hpr].
  assert (Hw : w' = setAnalysisStatus (status r) (setPhase Idle w)).
  { subst w'. cbn -[String.eqb showZ]. rewrite Hph.
    unfold checkStatusResume, tryBlock.
    rewrite Hc, Hf, Hp, Hpr. reflexivity. }
  assert (I : phase (poller w') = Idle) by (rewrite Hw; reflexivity).
  split; [rewrite Hw; reflexivity|].
  split; [rewrite Hw; reflexivity|].
  split; [rewrite Hw; reflexivity|].
  split; [rewrite Hw; reflexivity|].
  split; [unfold polling; rewrite I; reflexivity|].
  intro actions.
  pose proof (idle_forever actions w' I) as S.
  pose proof (samePolling_checks _ _ S) as Sc.
  destruct S as (Sp & Se & _ & _ & Sa & _).
  assert (Ha : isAnalyzing (ui (run actions w')) = isAnalyzing (ui w))
    by (rewrite Sa, Hw; reflexivity).
  split; [rewrite Se, Hw; reflexivity|].
  split; [rewrite Sc, Hw; reflexivity|].
  split; [unfold polling; rewrite Sp, I; reflexivity|].
  split; [exact Ha|].
  intros Htrue reason payload.
  rewrite Htrue in Ha.
  split; intro T; unfold Failed, Completed in T;
    destruct T as (_ & _ & T); [ | destruct T as (_ & _ & T)];
    destruct T as (T & _); rewrite Ha in T; discriminate T.
Qed.

Lemma C10_unknown_status_stalls_witness :
  phase (poller scanning) = AwaitingReply
  /\ isKnownStatus (status (respond "queued" emptyPayload)) = false
  /\ polling (step scanning
                   (Deliver (Resolved (respond "queued" emptyPayload))))
     = false.
Proof.
  split; [reflexivity|]. split; [reflexivity|].
  exact (proj1 (proj2 (proj2 (proj2 (proj2
           (C10_unknown_status_stalls scanning
              (respond "queued" emptyPayload) eq_refl eq_refl)))))).
Defined.

End PollerFacts.

(* ================================================================== *)
(** * Properties of the binary64 arithmetic *)

Module DoubleFacts.

Import JsNumber Double.
#[local] Open Scope Q_scope.

(** Decides a comparison of two rationals that are given in full. *)
Ltac num := vm_compute; first [reflexivity | discriminate].

Lemma pow2_pos : forall e, 0 < pow2 e.
Proof. intro e. apply Qpower_0_lt. reflexivity. Qed.

Lemma pow2_add : forall a b, pow2 (a + b) == pow2 a * pow2 b.
Proof. intros a b. apply Qpower_plus. discriminate. Qed.

Lemma pow2_le : forall a b, (a <= b)%Z -> pow2 a <= pow2 b.
Proof. intros a b H. apply Qpower_le_compat_l; [exact H|discriminate]. Qed.

Lemma pow2_lt : forall a b, (a < b)%Z -> pow2 a < pow2 b.
Proof. intros a b H. apply Qpower_lt_compat_l; [exact H|reflexivity]. Qed.

Lemma pow2_Z : forall e, (0 <= e)%Z -> pow2 e == inject_Z (2 ^ e).
Proof. intros e H. unfold pow2. rewrite Zpower_Qpower by exact H. reflexivity. Qed.

Lemma pow2_sub : forall a b, pow2 (a - b) == pow2 a / pow2 b.
Proof.
  intros a b. unfold Z.sub. rewrite pow2_add. unfold pow2.
  rewrite Qpower_opp. reflexivity.
Qed.

Lemma pow2_half : forall e, pow2 (e - 1) == pow2 e / 2.
Proof. intro e. rewrite pow2_sub. reflexivity. Qed.

(** ** Rounding to the nearest integer *)

Lemma rne_err : forall t, Qabs (inject_Z (rne t) - t) <= 1 # 2.
Proof.
  intro t. unfold rne.
  pose proof (Qfloor_le t) as L. pose proof (Qlt_floor t) as U.
  rewrite inject_Z_plus in U. change (inject_Z 1) with 1 in U.
  apply Qabs_Qle_condition.
  destruct (Qcompare_spec t (inject_Z (Qfloor t) + (1 # 2))) as [E|E|E].
  - destruct (Z.even (Qfloor t)).
    + Lqa.lra.
    + rewrite inject_Z_plus. change (inject_Z 1) with 1. Lqa.lra.
  - Lqa.lra.
  - rewrite inject_Z_plus. change (inject_Z 1) with 1. Lqa.lra.
Qed.

Lemma rne_Z : forall z, rne (inject_Z z) = z.
Proof.
  intro z. unfold rne. rewrite Qfloor_Z.
  destruct (Qcompare_spec (inject_Z z) (inject_Z z + (1 # 2))) as [E|E|E];
    [exfalso; Lqa.lra|reflexivity|exfalso; Lqa.lra].
Qed.

Lemma rne_comp : forall t t', t == t' -> rne t = rne t'.
Proof.
  intros t t' E. unfold rne. rewrite (Qfloor_comp _ _ E).
  rewrite (Qcompare_comp t t' E _ _ (Qeq_refl _)). reflexivity.
Qed.

Lemma inject_Z_lt_succ :
  forall a b, inject_Z a < inject_Z b -> inject_Z a + 1 <= inject_Z b.
Proof.
  intros a b H. rewrite <- Zlt_Qlt in H.
  change 1 with (inject_Z 1). rewrite <- inject_Z_plus, <- Zle_Qle. lia.
Qed.

Lemma rne_mono : forall t t', t <= t' -> (rne t <= rne t')%Z.
Proof.
  intros t t' H.
  pose proof (Qfloor_resp_le _ _ H) as F.
  destruct (Z.eq_dec (Qfloor t) (Qfloor t')) as [E|NE].
  - unfold rne. rewrite <- E.
    destruct (Qcompare_spec t (inject_Z (Qfloor t) + (1 # 2))) as [A|A|A];
      destruct (Qcompare_spec t' (inject_Z (Qfloor t) + (1 # 2))) as [B|B|B];
      destruct (Z.even (Qfloor t)); try lia; exfalso; Lqa.lra.
  - assert (S : (Qfloor t + 1 <= Qfloor t')%Z) by lia.
    assert (A : (rne t <= Qfloor t + 1)%Z).
    { unfold rne. destruct (Qcompare _ _); [destruct (Z.even _)| |]; lia. }
    assert (B : (Qfloor t' <= rne t')%Z).
    { unfold rne. destruct (Qcompare _ _); [destruct (Z.even _)| |]; lia. }
    lia.
Qed.

Lemma rne_spec : forall t, nearestEven t (rne t).
Proof.
  intro t. unfold nearestEven, rne.
  pose proof (Qfloor_le t) as L. pose proof (Qlt_floor t) as U.
  rewrite inject_Z_plus in U. change (inject_Z 1) with 1 in U.
  destruct (Qcompare_spec t (inject_Z (Qfloor t) + (1 # 2))) as [E|E|E].
  - right. destruct (Z.even (Qfloor t)) eqn:Ev.
    + split; [|exact Ev]. rewrite Qabs_neg by Lqa.lra. Lqa.lra.
    + split.
      * rewrite inject_Z_plus. change (inject_Z 1) with 1.
        rewrite Qabs_pos by Lqa.lra. Lqa.lra.
      * rewrite Z.even_add, Ev. reflexivity.
  - left. apply Qabs_Qlt_condition. Lqa.lra.
  - left. rewrite inject_Z_plus. change (inject_Z 1) with 1.
    apply Qabs_Qlt_condition. Lqa.lra.
Qed.

Lemma nearestEven_unique :
  forall t a b, nearestEven t a -> nearestEven t b -> a = b.
Proof.
  intros t a b A B.
  assert (D : forall x y : Z, inject_Z x - inject_Z y < 1 -> (x <= y)%Z).
  { intros x y H. apply Z.lt_succ_r. rewrite Zlt_Qlt.
    unfold Z.succ. rewrite inject_Z_plus. change (inject_Z 1) with 1.
    Lqa.lra. }
  assert (D' : forall x y : Z, inject_Z x - inject_Z y <= 1 ->
                               (x <= y + 1)%Z).
  { intros x y H. rewrite Zle_Qle.
    rewrite inject_Z_plus. change (inject_Z 1) with 1. Lqa.lra. }
  destruct A as [A|[A Ea]]; destruct B as [B|[B Eb]].
  - apply Qabs_Qlt_condition in A, B.
    apply Z.le_antisymm; apply D; Lqa.lra.
  - apply Qabs_Qlt_condition in A.
    assert (B' := Qle_lteq (Qabs (inject_Z b - t)) (1 # 2)).
    assert (B2 : Qabs (inject_Z b - t) <= 1 # 2) by (rewrite B; Lqa.lra).
    apply Qabs_Qle_condition in B2.
    apply Z.le_antisymm; apply D; Lqa.lra.
  - apply Qabs_Qlt_condition in B.
    assert (A2 : Qabs (inject_Z a - t) <= 1 # 2) by (rewrite A; Lqa.lra).
    apply Qabs_Qle_condition in A2.
    apply Z.le_antisymm; apply D; Lqa.lra.
  - assert (A2 : Qabs (inject_Z a - t) <= 1 # 2) by (rewrite A; Lqa.lra).
    assert (B2 : Qabs (inject_Z b - t) <= 1 # 2) by (rewrite B; Lqa.lra).
    apply Qabs_Qle_condition in A2, B2.
    assert (X : (a <= b + 1)%Z) by (apply D'; Lqa.lra).
    assert (Y : (b <= a + 1)%Z) by (apply D'; Lqa.lra).
    apply Z.even_spec in Ea, Eb. destruct Ea as [x ->]. destruct Eb as [y ->].
    lia.
Qed.

Lemma rne_opp : forall t, rne (- t) = (- rne t)%Z.
Proof.
  intro t. apply (nearestEven_unique (- t)); [apply rne_spec|].
  destruct (rne_spec t) as [A|[A E]]; [left|right].
  - rewrite inject_Z_opp.
    setoid_replace (- inject_Z (rne t) - - t) with (- (inject_Z (rne t) - t))
      by ring.
    rewrite Qabs_opp. exact A.
  - split.
    + rewrite inject_Z_opp.
      setoid_replace (- inject_Z (rne t) - - t)
        with (- (inject_Z (rne t) - t)) by ring.
      rewrite Qabs_opp. exact A.
    + rewrite Z.even_opp. exact E.
Qed.

(** ** The unit in the last place *)

Lemma scaled_nonneg : forall q, (0 <= Qfloor (Qabs q * pow2 1100))%Z.
Proof.
  intro q. change 0%Z with (Qfloor 0). apply Qfloor_resp_le.
  apply Qmult_le_0_compat; [apply Qabs_nonneg|apply Qlt_le_weak, pow2_pos].
Qed.

Lemma ulpExp_ge : forall q, (-1074 <= ulpExp q)%Z.
Proof. intro q. unfold ulpExp. lia. Qed.

Lemma ulpExp_comp : forall q q', Qabs q == Qabs q' -> ulpExp q = ulpExp q'.
Proof.
  intros q q' E. unfold ulpExp.
  rewrite (Qfloor_comp (Qabs q * pow2 1100) (Qabs q' * pow2 1100))
    by (rewrite E; reflexivity).
  reflexivity.
Qed.

Lemma ulpExp_opp : forall q, ulpExp (- q) = ulpExp q.
Proof. intro q. apply ulpExp_comp, Qabs_opp. Qed.

Lemma ulpExp_mono :
  forall q q', Qabs q <= Qabs q' -> (ulpExp q <= ulpExp q')%Z.
Proof.
  intros q q' H. unfold ulpExp.
  assert (F : (Qfloor (Qabs q * pow2 1100)
               <= Qfloor (Qabs q' * pow2 1100))%Z).
  { apply Qfloor_resp_le. apply Qmult_le_compat_r; [exact H|].
    apply Qlt_le_weak, pow2_pos. }
  pose proof (Z.log2_le_mono _ _ F). lia.
Qed.

(** Below [2 ^ k] the unit is at most [2 ^ (k - 53)]. *)
Lemma ulpExp_upper :
  forall q k,
    Qabs q < pow2 k -> (-1074 <= k - 53)%Z -> (ulpExp q <= k - 53)%Z.
Proof.
  intros q k H Hk. unfold ulpExp.
  pose proof (scaled_nonneg q) as N.
  assert (F : (Qfloor (Qabs q * pow2 1100) < 2 ^ (k + 1100))%Z).
  { rewrite Zlt_Qlt. apply Qle_lt_trans with (Qabs q * pow2 1100).
    - apply Qfloor_le.
    - rewrite <- pow2_Z by lia. rewrite pow2_add.
      apply Qmult_lt_compat_r; [apply pow2_pos|exact H]. }
  destruct (Z.eq_dec (Qfloor (Qabs q * pow2 1100)) 0) as [Z0|NZ].
  - rewrite Z0. cbn. lia.
  - apply Z.log2_lt_pow2 in F; lia.
Qed.

(** From [2 ^ k] on the unit is at least [2 ^ (k - 52)]. *)
Lemma ulpExp_lower :
  forall q k,
    pow2 k <= Qabs q -> (-1100 <= k)%Z -> (k - 52 <= ulpExp q)%Z.
Proof.
  intros q k H Hk. unfold ulpExp.
  assert (F : (2 ^ (k + 1100) <= Qfloor (Qabs q * pow2 1100))%Z).
  { rewrite <- (Qfloor_Z (2 ^ (k + 1100))). apply Qfloor_resp_le.
    rewrite <- pow2_Z by lia. rewrite pow2_add.
    apply Qmult_le_compat_r; [exact H|apply Qlt_le_weak, pow2_pos]. }
  assert (P : (0 < 2 ^ (k + 1100))%Z) by (apply Z.pow_pos_nonneg; lia).
  apply Z.log2_le_pow2 in F; lia.
Qed.

(** Above the subnormal range, [q] lies in the binade of its unit. *)
Lemma ulpExp_binade :
  forall q,
    (-1074 < ulpExp q)%Z ->
    pow2 (ulpExp q + 52) <= Qabs q < pow2 (ulpExp q + 53).
Proof.
  intros q H. unfold ulpExp in *.
  set (n := Qfloor (Qabs q * pow2 1100)) in *.
  pose proof (scaled_nonneg q) as N. fold n in N.
  assert (P : (0 < n)%Z).
  { destruct (Z.eq_dec n 0) as [E|E]; [|lia]. rewrite E in H. cbn in H. lia. }
  pose proof (Z.log2_spec n P) as [L U].
  assert (B : (0 <= Z.log2 n)%Z) by apply Z.log2_nonneg.
  replace (Z.max (Z.log2 n - 1100 - 52) (-1074))
    with (Z.log2 n - 1100 - 52)%Z by lia.
  assert (S : inject_Z n <= Qabs q * pow2 1100 < inject_Z n + 1).
  { split; [apply Qfloor_le|].
    pose proof (Qlt_floor (Qabs q * pow2 1100)) as X. fold n in X.
    rewrite inject_Z_plus in X. exact X. }
  assert (Q1 : pow2 (Z.log2 n) <= Qabs q * pow2 1100).
  { rewrite (pow2_Z (Z.log2 n)) by lia.
    apply Qle_trans with (inject_Z n); [|tauto].
    rewrite <- Zle_Qle. exact L. }
  assert (Q2 : Qabs q * pow2 1100 < pow2 (Z.log2 n + 1)).
  { apply Qlt_le_trans with (inject_Z n + 1); [tauto|].
    rewrite (pow2_Z (Z.log2 n + 1)) by lia.
    change 1 with (inject_Z 1). rewrite <- inject_Z_plus, <- Zle_Qle.
    unfold Z.succ in U. lia. }
  pose proof (pow2_pos 1100) as P1100.
  split.
  - replace (Z.log2 n - 1100 - 52 + 52)%Z with (Z.log2 n + - 1100)%Z by lia.
    rewrite pow2_add.
    apply Qmult_le_r with (pow2 1100); [exact P1100|].
    rewrite <- Qmult_assoc, <- pow2_add. change (pow2 (-1100 + 1100)) with 1.
    rewrite Qmult_1_r. exact Q1.
  - replace (Z.log2 n - 1100 - 52 + 53)%Z with (Z.log2 n + 1 + - 1100)%Z
      by lia.
    rewrite pow2_add.
    apply Qmult_lt_r with (pow2 1100); [exact P1100|].
    rewrite <- Qmult_assoc, <- pow2_add. change (pow2 (-1100 + 1100)) with 1.
    rewrite Qmult_1_r. exact Q2.
Qed.

(** ** Rounding to binary64 *)

Lemma rnd_value :
  forall q, rnd q == inject_Z (rne (q / pow2 (ulpExp q))) * pow2 (ulpExp q).
Proof. intro q. unfold rnd. apply Qred_correct. Qed.

Lemma rnd_comp : forall q q', q == q' -> rnd q = rnd q'.
Proof.
  intros q q' E. unfold rnd. apply Qred_complete.
  rewrite (ulpExp_comp q q') by (rewrite E; reflexivity).
  rewrite (rne_comp (q / pow2 (ulpExp q')) (q' / pow2 (ulpExp q')))
    by (rewrite E; reflexivity).
  reflexivity.
Qed.

Lemma rnd_err : forall q, Qabs (rnd q - q) <= pow2 (ulpExp q - 1).
Proof.
  intro q. rewrite rnd_value. set (e := ulpExp q).
  pose proof (pow2_pos e) as P.
  pose proof (rne_err (q / pow2 e)) as H.
  setoid_replace (inject_Z (rne (q / pow2 e)) * pow2 e - q)
    with ((inject_Z (rne (q / pow2 e)) - q / pow2 e) * pow2 e)
    by (field; Lqa.lra).
  rewrite Qabs_Qmult, (Qabs_pos (pow2 e)) by Lqa.lra.
  rewrite pow2_half.
  setoid_replace (pow2 e / 2) with ((1 # 2) * pow2 e) by field.
  apply Qmult_le_compat_r; [exact H|Lqa.lra].
Qed.

Lemma rnd_err_bound :
  forall q k,
    Qabs q <= pow2 k -> (-1074 <= k - 52)%Z ->
    Qabs (rnd q - q) <= pow2 (k - 53).
Proof.
  intros q k H Hk.
  apply Qle_trans with (pow2 (ulpExp q - 1)); [apply rnd_err|].
  apply pow2_le.
  assert (U : (ulpExp q <= k + 1 - 53)%Z).
  { apply ulpExp_upper; [|lia].
    apply Qle_lt_trans with (pow2 k); [exact H|apply pow2_lt; lia]. }
  lia.
Qed.

Lemma rnd_exact : forall q, representable q -> rnd q == q.
Proof.
  intros q (m & e0 & E & Hm & He).
  rewrite rnd_value. set (e := ulpExp q).
  assert (Le : (e <= e0)%Z).
  { subst e. replace e0 with (e0 + 53 - 53)%Z by lia.
    apply ulpExp_upper; [|lia].
    rewrite E, Qabs_Qmult, (Qabs_pos (pow2 e0))
      by apply Qlt_le_weak, pow2_pos.
    rewrite (Z.add_comm e0 53), pow2_add.
    apply Qmult_lt_compat_r; [apply pow2_pos|].
    rewrite pow2_Z by lia. 
    change (Qabs (inject_Z m)) with (inject_Z (Z.abs m)).
    rewrite <- Zlt_Qlt. exact Hm. }
  pose proof (pow2_pos e) as P.
  assert (I : q / pow2 e == inject_Z (m * 2 ^ (e0 - e))).
  { rewrite E, inject_Z_mult, <- pow2_Z by lia. rewrite pow2_sub.
    field. Lqa.lra. }
  rewrite (rne_comp _ _ I), rne_Z, <- I. field. Lqa.lra.
Qed.

Lemma rnd_opp : forall q, rnd (- q) == - rnd q.
Proof.
  intro q. rewrite !rnd_value, ulpExp_opp.
  rewrite (rne_comp (- q / pow2 (ulpExp q)) (- (q / pow2 (ulpExp q)))).
  - rewrite rne_opp, inject_Z_opp. ring.
  - pose proof (pow2_pos (ulpExp q)). field. Lqa.lra.
Qed.

Lemma rnd_nonneg : forall q, 0 <= q -> 0 <= rnd q.
Proof.
  intros q H. rewrite rnd_value.
  pose proof (pow2_pos (ulpExp q)) as P.
  apply Qmult_le_0_compat; [|Lqa.lra].
  change 0 with (inject_Z 0). rewrite <- Zle_Qle.
  rewrite <- (rne_Z 0). apply rne_mono.
  apply Qle_shift_div_l; [exact P|].
  change (inject_Z 0) with 0. rewrite Qmult_0_l. exact H.
Qed.

Lemma rnd_mono_nonneg : forall q q', 0 <= q -> q <= q' -> rnd q <= rnd q'.
Proof.
  intros q q' H0 H. rewrite !rnd_value.
  set (e := ulpExp q). set (e' := ulpExp q').
  pose proof (pow2_pos e) as P. pose proof (pow2_pos e') as P'.
  assert (Le : (e <= e')%Z).
  { apply ulpExp_mono. rewrite !Qabs_pos by Lqa.lra. exact H. }
  destruct (Z.eq_dec e e') as [E|NE].
  - rewrite <- E. apply Qmult_le_compat_r; [|Lqa.lra].
    rewrite <- Zle_Qle. apply rne_mono.
    apply Qmult_le_compat_r; [exact H|].
    apply Qlt_le_weak, Qinv_lt_0_compat, P.
  - assert (B : pow2 (e' + 52) <= Qabs q' < pow2 (e' + 53)).
    { apply ulpExp_binade. pose proof (ulpExp_ge q). fold e in H1. lia. }
    rewrite Qabs_pos in B by Lqa.lra.
    assert (U : q < pow2 (e' + 52)).
    { apply Qnot_le_lt. intro C.
      assert (X : (e' + 52 - 52 <= ulpExp q)%Z).
      { apply ulpExp_lower; [|pose proof (ulpExp_ge q'); fold e' in H1; lia].
        rewrite Qabs_pos by Lqa.lra. exact C. }
      fold e in X. lia. }
    apply Qle_trans with (pow2 (e' + 52)).
    + assert (Sp : pow2 (e' + 52) == pow2 (e' + 52 - e) * pow2 e).
      { rewrite <- pow2_add. replace (e' + 52 - e + e)%Z with (e' + 52)%Z
          by lia. reflexivity. }
      rewrite Sp. apply Qmult_le_compat_r; [|Lqa.lra].
      rewrite (pow2_Z (e' + 52 - e)) by lia. rewrite <- Zle_Qle.
      rewrite <- (rne_Z (2 ^ (e' + 52 - e))). apply rne_mono.
      apply Qle_shift_div_r; [exact P|].
      rewrite <- (pow2_Z (e' + 52 - e)) by lia. rewrite <- Sp. Lqa.lra.
    + assert (Sp : pow2 (e' + 52) == pow2 52 * pow2 e').
      { rewrite <- pow2_add, (Z.add_comm e' 52). reflexivity. }
      rewrite Sp. apply Qmult_le_compat_r; [|Lqa.lra].
      rewrite (pow2_Z 52) by lia. rewrite <- Zle_Qle.
      rewrite <- (rne_Z (2 ^ 52)) at 1. apply rne_mono.
      apply Qle_shift_div_l; [exact P'|].
      rewrite <- (pow2_Z 52) by lia. rewrite <- Sp. tauto.
Qed.

Lemma rnd_nonpos : forall q, q <= 0 -> rnd q <= 0.
Proof.
  intros q H.
  assert (X : 0 <= rnd (- q)) by (apply rnd_nonneg; Lqa.lra).
  rewrite rnd_opp in X. Lqa.lra.
Qed.

(** Rounding is monotone. *)
Lemma rnd_mono : forall q q', q <= q' -> rnd q <= rnd q'.
Proof.
  intros q q' H.
  destruct (Qlt_le_dec q 0) as [N|P].
  - destruct (Qlt_le_dec 0 q') as [P'|N'].
    + apply Qle_trans with 0; [apply rnd_nonpos|apply rnd_nonneg]; Lqa.lra.
    + assert (X : rnd (- q') <= rnd (- q))
        by (apply rnd_mono_nonneg; Lqa.lra).
      rewrite !rnd_opp in X. Lqa.lra.
  - apply rnd_mono_nonneg; assumption.
Qed.

(** Below the end of its binade. *)
Lemma ulpExp_top : forall q, Qabs q < pow2 (ulpExp q + 53).
Proof.
  intro q. pose proof (ulpExp_ge q) as G.
  destruct (Z.eq_dec (ulpExp q) (-1074)) as [E|NE].
  - apply Qnot_le_lt. intro C. rewrite E in C.
    pose proof (ulpExp_lower q (-1074 + 53) C ltac:(lia)). lia.
  - apply ulpExp_binade. lia.
Qed.

Lemma rnd_representable : forall q, representable (rnd q).
Proof.
  intro q. set (e := ulpExp q). set (m := rne (q / pow2 e)).
  pose proof (pow2_pos e) as P. pose proof (ulpExp_top q) as T. fold e in T.
  assert (S : pow2 (e + 53) == inject_Z (2 ^ 53) * pow2 e).
  { rewrite <- pow2_Z by lia. rewrite <- pow2_add, Z.add_comm. reflexivity. }
  apply Qabs_Qlt_condition in T. rewrite S in T.
  assert (M : (- 2 ^ 53 <= m <= 2 ^ 53)%Z).
  { subst m. split.
    - rewrite <- (rne_Z (- 2 ^ 53)). apply rne_mono.
      apply Qle_shift_div_l; [exact P|]. rewrite inject_Z_opp. Lqa.lra.
    - rewrite <- (rne_Z (2 ^ 53)). apply rne_mono.
      apply Qle_shift_div_r; [exact P|]. Lqa.lra. }
  destruct (Z_lt_dec (Z.abs m) (2 ^ 53)) as [Lt|Ge].
  - exists m, e. split; [apply rnd_value|]. split; [exact Lt|apply ulpExp_ge].
  - assert (Sp : pow2 (e + 1) == 2 * pow2 e)
      by (rewrite Z.add_comm, pow2_add; reflexivity).
    assert (C : m = (2 ^ 53)%Z \/ m = (- 2 ^ 53)%Z) by lia.
    destruct C as [C|C].
    + exists (2 ^ 52)%Z, (e + 1)%Z. split; [|split].
      * rewrite rnd_value. fold e m. rewrite C, Sp.
        change (inject_Z (2 ^ 53)) with (2 * inject_Z (2 ^ 52)). ring.
      * reflexivity.
      * pose proof (ulpExp_ge q). fold e in H. lia.
    + exists (- 2 ^ 52)%Z, (e + 1)%Z. split; [|split].
      * rewrite rnd_value. fold e m. rewrite C, Sp.
        change (inject_Z (- 2 ^ 53)) with (2 * inject_Z (- 2 ^ 52)). ring.
      * reflexivity.
      * pose proof (ulpExp_ge q). fold e in H. lia.
Qed.

(** Rounding twice is rounding once. *)
Lemma rnd_idem : forall q, rnd (rnd q) = rnd q.
Proof.
  intro q. pose proof (rnd_exact _ (rnd_representable q)) as E.
  unfold rnd at 1. unfold rnd at 3. apply Qred_complete.
  fold (rnd q). rewrite <- rnd_value, E. apply rnd_value.
Qed.

Lemma rnd_0 : forall q, q == 0 -> rnd q = 0.
Proof. intros q E. rewrite (rnd_comp q 0 E). reflexivity. Qed.

Lemma rnd_Z : forall z, (Z.abs z < 2 ^ 53)%Z -> rnd (inject_Z z) == inject_Z z.
Proof.
  intros z H. apply rnd_exact. exists z, 0%Z.
  split; [change (pow2 0) with 1; ring|]. split; [exact H|lia].
Qed.

(** The two error bounds used below: half a unit in the last place. *)
Lemma rnd_close :
  forall q k,
    - pow2 k <= q <= pow2 k -> (-1074 <= k - 52)%Z ->
    q - pow2 (k - 53) <= rnd q <= q + pow2 (k - 53).
Proof.
  intros q k H Hk.
  assert (A : Qabs q <= pow2 k) by (apply Qabs_Qle_condition; exact H).
  pose proof (rnd_err_bound q k A Hk) as B.
  apply Qabs_Qle_condition in B. Lqa.lra.
Qed.

(** ** Results that are numbers *)

Lemma overflow_finite :
  forall q, Qabs q < pow2 1024 -> overflow q = Finite q.
Proof.
  intros q H. unfold overflow.
  destruct (Qle_bool (pow2 1024) (Qabs q)) eqn:E; [|reflexivity].
  apply Qle_bool_iff in E. exfalso. Lqa.lra.
Qed.

Lemma round_finite :
  forall q, Qabs (rnd q) < pow2 1024 -> round q = Finite (rnd q).
Proof. intros q H. apply overflow_finite, H. Qed.

Lemma round_between :
  forall q lo hi,
    lo <= q <= hi -> - pow2 1024 < rnd lo -> rnd hi < pow2 1024 ->
    round q = Finite (rnd q) /\ rnd lo <= rnd q <= rnd hi.
Proof.
  intros q lo hi [L H] Bl Bh.
  pose proof (rnd_mono _ _ L). pose proof (rnd_mono _ _ H).
  split; [|split; assumption].
  apply round_finite, Qabs_Qlt_condition. Lqa.lra.
Qed.

Lemma pow2_1000 : pow2 1000 < pow2 1024.
Proof. apply pow2_lt. lia. Qed.

Lemma rnd_pow2 : forall k, (-1074 <= k)%Z -> rnd (pow2 k) == pow2 k.
Proof.
  intros k H. apply rnd_exact. exists 1%Z, k.
  split; [ring|]. split; [reflexivity|exact H].
Qed.

Lemma round_small :
  forall q, Qabs q <= pow2 1000 -> round q = Finite (rnd q).
Proof.
  intros q H. apply Qabs_Qle_condition in H.
  pose proof pow2_1000 as P.
  pose proof (rnd_pow2 1000 ltac:(lia)) as E.
  assert (E' : rnd (- pow2 1000) == - pow2 1000)
    by (rewrite rnd_opp, E; reflexivity).
  apply (round_between q (- pow2 1000) (pow2 1000)); [exact H| |];
    Lqa.lra.
Qed.

Lemma within_weaken :
  forall lo hi lo' hi' x,
    within lo hi x -> lo' <= lo -> hi <= hi' -> within lo' hi' x.
Proof.
  intros lo hi lo' hi' x (q & E & B) L H. exists q. split; [exact E|].
  Lqa.lra.
Qed.

Lemma within_finite :
  forall lo hi x, within lo hi x -> is_finite x = true.
Proof. intros lo hi x (q & -> & _). reflexivity. Qed.

Lemma within_of_Z :
  forall z lo hi,
    (lo <= z <= hi)%Z -> within (inject_Z lo) (inject_Z hi) (of_Z z).
Proof.
  intros z lo hi H. exists (inject_Z z). split; [reflexivity|].
  rewrite <- !Zle_Qle. exact H.
Qed.

(** Rounding an exact result known within [lo, hi]: by monotony, and by
    the error bound. *)
Lemma round_within :
  forall q lo hi lo' hi',
    lo <= q <= hi ->
    lo' <= rnd lo -> rnd hi <= hi' ->
    - pow2 1024 < lo' -> hi' < pow2 1024 ->
    within lo' hi' (round q).
Proof.
  intros q lo hi lo' hi' B L H Bl Bh.
  destruct (round_between q lo hi B) as [E R]; try Lqa.lra.
  exists (rnd q). split; [exact E|Lqa.lra].
Qed.

Lemma round_near :
  forall q lo hi k,
    lo <= q <= hi ->
    - pow2 k <= lo -> hi <= pow2 k ->
    (-1074 <= k - 52)%Z -> (k <= 1000)%Z ->
    within (lo - pow2 (k - 53)) (hi + pow2 (k - 53)) (round q).
Proof.
  intros q lo hi k B Bl Bh K1 K2.
  assert (C : - pow2 k <= q <= pow2 k) by Lqa.lra.
  pose proof (rnd_close q k C K1) as D.
  pose proof (pow2_le k 1000 K2) as P.
  exists (rnd q). split; [|Lqa.lra].
  apply round_small, Qabs_Qle_condition. Lqa.lra.
Qed.

Lemma round_comp : forall q q', q == q' -> round q = round q'.
Proof. intros q q' E. unfold round. rewrite (rnd_comp q q' E). reflexivity. Qed.

Lemma lift_canonical : forall e, canonical (lift e).
Proof.
  intros [| |q|]; try reflexivity. unfold canonical. cbn [lift].
  unfold round, overflow.
  destruct (Qle_bool (pow2 1024) (Qabs (rnd q))) eqn:E.
  - destruct (Qle_bool 0 (rnd q)); reflexivity.
  - cbn [lift]. unfold round, overflow. rewrite rnd_idem, E. reflexivity.
Qed.

Lemma canonical_add : forall a b, canonical (add a b).
Proof. intros a b. apply lift_canonical. Qed.

Lemma canonical_mul : forall a b, canonical (mul a b).
Proof. intros a b. apply lift_canonical. Qed.

Lemma add_0_r : forall x, canonical x -> add x (of_Z 0) = x.
Proof.
  intros [| |v|] C; try reflexivity.
  unfold canonical in C. cbn [lift] in C.
  unfold add, of_Z. cbn [JsArith.add lift].
  rewrite (round_comp (v + inject_Z 0) v) by ring. exact C.
Qed.

Lemma add_0_l : forall x, canonical x -> add (of_Z 0) x = x.
Proof.
  intros [| |v|] C; try reflexivity.
  unfold canonical in C. cbn [lift] in C.
  unfold add, of_Z. cbn [JsArith.add lift].
  rewrite (round_comp (inject_Z 0 + v) v) by ring. exact C.
Qed.

Lemma mul_0_l : forall v, mul (of_Z 0) (Finite v) = of_Z 0.
Proof.
  intro v. unfold mul, of_Z. cbn [JsArith.mul lift].
  rewrite (round_comp (inject_Z 0 * v) 0) by ring. reflexivity.
Qed.

(** ** The operations on numbers within bounds *)

Lemma add_within :
  forall a b c d lo hi x y,
    within a b x -> within c d y ->
    lo <= rnd (a + c) -> rnd (b + d) <= hi ->
    - pow2 1024 < lo -> hi < pow2 1024 ->
    within lo hi (add x y).
Proof.
  intros a b c d lo hi x y (p & -> & P) (q & -> & Q) L H Bl Bh.
  unfold add. cbn [JsArith.add lift].
  apply (round_within (p + q) (a + c) (b + d)); try assumption. Lqa.lra.
Qed.

Lemma sub_within :
  forall a b c d lo hi x y,
    within a b x -> within c d y ->
    lo <= rnd (a - d) -> rnd (b - c) <= hi ->
    - pow2 1024 < lo -> hi < pow2 1024 ->
    within lo hi (sub x y).
Proof.
  intros a b c d lo hi x y (p & -> & P) (q & -> & Q) L H Bl Bh.
  unfold sub, JsArith.sub. cbn [JsArith.neg JsArith.add lift].
  apply (round_within (p + - q) (a - d) (b - c)); try assumption. Lqa.lra.
Qed.

(** Product of two numbers that are not negative. *)
Lemma mul_within :
  forall a b c d lo hi x y,
    within a b x -> within c d y -> 0 <= a -> 0 <= c ->
    lo <= rnd (a * c) -> rnd (b * d) <= hi ->
    - pow2 1024 < lo -> hi < pow2 1024 ->
    within lo hi (mul x y).
Proof.
  intros a b c d lo hi x y (p & -> & P) (q & -> & Q) A C L H Bl Bh.
  unfold mul. cbn [JsArith.mul lift].
  apply (round_within (p * q) (a * c) (b * d)); try assumption.
  split.
  - apply Qle_trans with (a * q).
    + rewrite !(Qmult_comm a). apply Qmult_le_compat_r; Lqa.lra.
    + apply Qmult_le_compat_r; Lqa.lra.
  - apply Qle_trans with (b * q).
    + apply Qmult_le_compat_r; Lqa.lra.
    + rewrite !(Qmult_comm b). apply Qmult_le_compat_r; Lqa.lra.
Qed.

(** Product with an integer constant. *)
Lemma mulc_within_pos :
  forall (k : Z) a b lo hi x,
    (0 <= k)%Z -> within a b x ->
    lo <= rnd (inject_Z k * a) -> rnd (inject_Z k * b) <= hi ->
    - pow2 1024 < lo -> hi < pow2 1024 ->
    within lo hi (mul (of_Z k) x).
Proof.
  intros k a b lo hi x K (p & -> & P) L H Bl Bh.
  unfold mul, of_Z. cbn [JsArith.mul lift].
  apply (round_within (inject_Z k * p) (inject_Z k * a) (inject_Z k * b));
    try assumption.
  rewrite Zle_Qle in K. change (inject_Z 0) with 0 in K.
  split; rewrite !(Qmult_comm (inject_Z k));
    apply Qmult_le_compat_r; Lqa.lra.
Qed.

Lemma mulc_within_neg :
  forall (k : Z) a b lo hi x,
    (k <= 0)%Z -> within a b x ->
    lo <= rnd (inject_Z k * b) -> rnd (inject_Z k * a) <= hi ->
    - pow2 1024 < lo -> hi < pow2 1024 ->
    within lo hi (mul (of_Z k) x).
Proof.
  intros k a b lo hi x K (p & -> & P) L H Bl Bh.
  unfold mul, of_Z. cbn [JsArith.mul lift].
  apply (round_within (inject_Z k * p) (inject_Z k * b) (inject_Z k * a));
    try assumption.
  rewrite Zle_Qle in K. change (inject_Z 0) with 0 in K.
  assert (M : forall u v, u <= v -> inject_Z k * v <= inject_Z k * u).
  { intros u v U.
    setoid_replace (inject_Z k * v) with (- (v * - inject_Z k)) by ring.
    setoid_replace (inject_Z k * u) with (- (u * - inject_Z k)) by ring.
    apply Qopp_le_compat. apply Qmult_le_compat_r; Lqa.lra. }
  split; apply M; tauto.
Qed.

(** The square of a number within [-b, b]. *)
Lemma square_within :
  forall b hi x,
    within (- b) b x -> rnd (b * b) <= hi -> hi < pow2 1024 ->
    within 0 hi (mul x x).
Proof.
  intros b hi x (p & -> & P) H Bh.
  unfold mul. cbn [JsArith.mul lift].
  apply (round_within (p * p) 0 (b * b)); try assumption.
  - split; [|].
    + destruct (Qlt_le_dec p 0) as [N|N].
      * setoid_replace (p * p) with ((- p) * (- p)) by ring.
        apply Qmult_le_0_compat; Lqa.lra.
      * apply Qmult_le_0_compat; Lqa.lra.
    + destruct (Qlt_le_dec p 0) as [N|N].
      * setoid_replace (p * p) with ((- p) * (- p)) by ring.
        apply Qle_trans with (b * - p).
        -- apply Qmult_le_compat_r; Lqa.lra.
        -- rewrite !(Qmult_comm b). apply Qmult_le_compat_r; Lqa.lra.
      * apply Qle_trans with (b * p).
        -- apply Qmult_le_compat_r; Lqa.lra.
        -- rewrite !(Qmult_comm b). apply Qmult_le_compat_r; Lqa.lra.
  - rewrite rnd_0 by reflexivity. Lqa.lra.
  - pose proof (pow2_pos 1024). Lqa.lra.
Qed.

(** A number that is not negative, over a positive one. *)
Lemma div_within :
  forall a b c d lo hi x y,
    within a b x -> within c d y -> 0 <= a -> 0 < c ->
    lo <= rnd (a / d) -> rnd (b / c) <= hi ->
    - pow2 1024 < lo -> hi < pow2 1024 ->
    within lo hi (div x y).
Proof.
  intros a b c d lo hi x y (p & -> & P) (q & -> & Q) A C L H Bl Bh.
  unfold div. cbn [JsArith.div].
  assert (NZ : JsArith.isZero q = false).
  { unfold JsArith.isZero. destruct (Qeq_bool q 0) eqn:E; [|reflexivity].
    apply Qeq_bool_iff in E. exfalso. Lqa.lra. }
  rewrite NZ. cbn [lift].
  apply (round_within (p / q) (a / d) (b / c)); try assumption.
  assert (Iq : 0 < / q) by (apply Qinv_lt_0_compat; Lqa.lra).
  assert (Id : 0 < / d) by (apply Qinv_lt_0_compat; Lqa.lra).
  assert (Ic : 0 < / c) by (apply Qinv_lt_0_compat; Lqa.lra).
  assert (I1 : / d <= / q).
  { apply Qle_shift_inv_l; [Lqa.lra|].
    setoid_replace (/ d * q) with (q / d) by (field; Lqa.lra).
    apply Qle_shift_div_r; Lqa.lra. }
  assert (I2 : / q <= / c).
  { apply Qle_shift_inv_l; [Lqa.lra|].
    setoid_replace (/ q * c) with (c / q) by (field; Lqa.lra).
    apply Qle_shift_div_r; Lqa.lra. }
  unfold Qdiv. split.
  - apply Qle_trans with (a * / q).
    + rewrite !(Qmult_comm a). apply Qmult_le_compat_r; Lqa.lra.
    + apply Qmult_le_compat_r; Lqa.lra.
  - apply Qle_trans with (b * / q).
    + apply Qmult_le_compat_r; Lqa.lra.
    + rewrite !(Qmult_comm b). apply Qmult_le_compat_r; Lqa.lra.
Qed.

(** ** Square roots *)

Lemma sqrtQ_nonneg : forall q, 0 <= q -> 0 <= sqrtQ q.
Proof.
  intros q H. unfold sqrtQ.
  apply Qmult_le_0_compat; [|apply Qlt_le_weak, pow2_pos].
  pose proof (Z.sqrt_nonneg (Qfloor (q * pow2 1200))) as S.
  rewrite Zle_Qle in S. change (inject_Z 0) with 0 in S.
  destruct (Qeq_bool _ _); Lqa.lra.
Qed.

Lemma sqrtQ_mono : forall q q', 0 <= q -> q <= q' -> sqrtQ q <= sqrtQ q'.
Proof.
  intros q q' H0 H. unfold sqrtQ.
  pose proof (pow2_pos 1200) as P. pose proof (pow2_pos (-600)) as P'.
  apply Qmult_le_compat_r; [|Lqa.lra].
  set (t := q * pow2 1200). set (t' := q' * pow2 1200).
  assert (T0 : 0 <= t) by (apply Qmult_le_0_compat; Lqa.lra).
  assert (T : t <= t') by (apply Qmult_le_compat_r; Lqa.lra).
  assert (F0 : (0 <= Qfloor t)%Z)
    by (change 0%Z with (Qfloor 0); apply Qfloor_resp_le, T0).
  assert (F : (Qfloor t <= Qfloor t')%Z) by apply Qfloor_resp_le, T.
  pose proof (Z.sqrt_le_mono _ _ F) as S.
  set (s := Z.sqrt (Qfloor t)) in *. set (s' := Z.sqrt (Qfloor t')) in *.
  destruct (Z.eq_dec s s') as [E|NE].
  - rewrite <- E.
    destruct (Qeq_bool (inject_Z (s * s)) t) eqn:X;
      destruct (Qeq_bool (inject_Z (s * s)) t') eqn:X'; try Lqa.lra.
    exfalso. apply Qeq_bool_iff in X'. apply Qeq_bool_neq in X.
    (* t' is the square of s, and s * s <= floor t <= t <= t' *)
    pose proof (Z.sqrt_spec (Qfloor t) F0) as [L _]. fold s in L.
    rewrite Zle_Qle in L. pose proof (Qfloor_le t) as L'.
    apply X. Lqa.lra.
  - assert (S1 : (s + 1 <= s')%Z) by lia.
    rewrite Zle_Qle, inject_Z_plus in S1. change (inject_Z 1) with 1 in S1.
    destruct (Qeq_bool (inject_Z (s * s)) t);
      destruct (Qeq_bool (inject_Z (s' * s')) t'); Lqa.lra.
Qed.

Lemma sqrtQ_comp : forall q q', q == q' -> sqrtQ q == sqrtQ q'.
Proof.
  intros q q' E. unfold sqrtQ.
  rewrite (Qfloor_comp (q * pow2 1200) (q' * pow2 1200))
    by (rewrite E; reflexivity).
  set (s := Z.sqrt (Qfloor (q' * pow2 1200))).
  assert (B : Qeq_bool (inject_Z (s * s)) (q * pow2 1200)
              = Qeq_bool (inject_Z (s * s)) (q' * pow2 1200)).
  { apply eq_true_iff_eq. rewrite !Qeq_bool_iff, E. reflexivity. }
  rewrite B. reflexivity.
Qed.

Lemma sqrt_within :
  forall a b lo hi x,
    within a b x -> 0 <= a ->
    lo <= rnd (sqrtQ a) -> rnd (sqrtQ b) <= hi ->
    - pow2 1024 < lo -> hi < pow2 1024 ->
    within lo hi (Math_sqrt x).
Proof.
  intros a b lo hi x (p & -> & P) A L H Bl Bh.
  unfold Math_sqrt, JsArith.isNeg.
  assert (N : Qle_bool 0 p = true) by (apply Qle_bool_iff; Lqa.lra).
  rewrite N. cbn [negb].
  apply (round_within (sqrtQ p) (sqrtQ a) (sqrtQ b)); try assumption.
  split; apply sqrtQ_mono; Lqa.lra.
Qed.

Lemma Math_round_within :
  forall a b x,
    within a b x ->
    exists z, Math_round x = of_Z z
              /\ (Qfloor (a + (1 # 2)) <= z <= Qfloor (b + (1 # 2)))%Z.
Proof.
  intros a b x (p & -> & P). exists (Qfloor (p + (1 # 2))).
  split; [reflexivity|]. split; apply Qfloor_resp_le; Lqa.lra.
Qed.

(** The same operations, bounded by the rounding error. *)
Lemma add_near :
  forall k a b c d x y,
    within a b x -> within c d y ->
    - pow2 k <= a + c -> b + d <= pow2 k ->
    (-1074 <= k - 52)%Z -> (k <= 1000)%Z ->
    within (a + c - pow2 (k - 53)) (b + d + pow2 (k - 53)) (add x y).
Proof.
  intros k a b c d x y (p & -> & P) (q & -> & Q) Bl Bh K1 K2.
  unfold add. cbn [JsArith.add lift].
  apply (round_near (p + q) (a + c) (b + d) k); try assumption. Lqa.lra.
Qed.

Lemma sub_near :
  forall k a b c d x y,
    within a b x -> within c d y ->
    - pow2 k <= a - d -> b - c <= pow2 k ->
    (-1074 <= k - 52)%Z -> (k <= 1000)%Z ->
    within (a - d - pow2 (k - 53)) (b - c + pow2 (k - 53)) (sub x y).
Proof.
  intros k a b c d x y (p & -> & P) (q & -> & Q) Bl Bh K1 K2.
  unfold sub, JsArith.sub. cbn [JsArith.neg JsArith.add lift].
  apply (round_near (p + - q) (a - d) (b - c) k); try assumption. Lqa.lra.
Qed.

(** Product with a constant that is not negative. *)
Lemma mul_near :
  forall k c a b x,
    within a b x -> 0 <= c ->
    - pow2 k <= c * a -> c * b <= pow2 k ->
    (-1074 <= k - 52)%Z -> (k <= 1000)%Z ->
    within (c * a - pow2 (k - 53)) (c * b + pow2 (k - 53))
           (mul (Finite c) x).
Proof.
  intros k c a b x (p & -> & P) C Bl Bh K1 K2.
  unfold mul. cbn [JsArith.mul lift].
  apply (round_near (c * p) (c * a) (c * b) k); try assumption.
  split; rewrite !(Qmult_comm c); apply Qmult_le_compat_r; Lqa.lra.
Qed.

(** Product with a negative constant. *)
Lemma mul_near_neg :
  forall k c a b x,
    within a b x -> c <= 0 ->
    - pow2 k <= c * b -> c * a <= pow2 k ->
    (-1074 <= k - 52)%Z -> (k <= 1000)%Z ->
    within (c * b - pow2 (k - 53)) (c * a + pow2 (k - 53))
           (mul (Finite c) x).
Proof.
  intros k c a b x (p & -> & P) C Bl Bh K1 K2.
  unfold mul. cbn [JsArith.mul lift].
  apply (round_near (c * p) (c * b) (c * a) k); try assumption.
  assert (M : forall u v, u <= v -> c * v <= c * u).
  { intros u v U.
    setoid_replace (c * v) with (- (v * - c)) by ring.
    setoid_replace (c * u) with (- (u * - c)) by ring.
    apply Qopp_le_compat. apply Qmult_le_compat_r; Lqa.lra. }
  split; apply M; tauto.
Qed.

(** ** Sums *)

(** A running sum of terms within [0, t] stays within [0, m] as soon as
    [m] absorbs one more term. *)
Lemma fold_add_within :
  forall (A : Type) (f : A -> number) (l : list A) (t m : Q) (s : number),
    (forall a, In a l -> within 0 t (f a)) ->
    within 0 m s ->
    rnd (m + t) <= m -> m < pow2 1024 ->
    within 0 m (fold_left (fun acc a => add acc (f a)) l s).
Proof.
  intros A f l t m. induction l as [|a l IH]; intros s F Hs M B.
  - exact Hs.
  - cbn [fold_left]. apply IH; try assumption.
    + intros a' Ha'. apply F. right. exact Ha'.
    + apply (add_within 0 m 0 t); try assumption.
      * apply F. left. reflexivity.
      * rewrite rnd_0 by reflexivity. Lqa.lra.
      * pose proof (pow2_pos 1024). Lqa.lra.
Qed.

(** A running sum of [j] terms within [0, t] is within [0, j * t] as long
    as the multiples of [t] are binary64 numbers. *)
Lemma fold_add_multiples :
  forall (A : Type) (f : A -> number) (t : Q) (l : list A) (j : nat)
         (s : number),
    (forall a, In a l -> within 0 t (f a)) ->
    (forall i : nat, (i <= j + List.length l)%nat ->
                     rnd (inject_Z (Z.of_nat i) * t) == inject_Z (Z.of_nat i) * t
                     /\ inject_Z (Z.of_nat i) * t < pow2 1024) ->
    within 0 (inject_Z (Z.of_nat j) * t) s ->
    within 0 (inject_Z (Z.of_nat (j + List.length l)) * t)
           (fold_left (fun acc a => add acc (f a)) l s).
Proof.
  intros A f t l. induction l as [|a l IH]; intros j s F R Hs.
  - cbn [List.length fold_left]. rewrite Nat.add_0_r. exact Hs.
  - cbn [fold_left List.length].
    replace (j + S (List.length l))%nat with (S j + List.length l)%nat by lia.
    apply IH.
    + intros a' Ha'. apply F. right. exact Ha'.
    + intros i Hi. apply R. cbn [List.length]. lia.
    + destruct (R (S j)) as [E B]; [cbn [List.length]; lia|].
      apply (add_within 0 (inject_Z (Z.of_nat j) * t) 0 t); try assumption.
      * apply F. left. reflexivity.
      * rewrite rnd_0 by reflexivity. Lqa.lra.
      * rewrite (rnd_comp (inject_Z (Z.of_nat j) * t + t)
                          (inject_Z (Z.of_nat (S j)) * t)).
        -- rewrite E. apply Qle_refl.
        -- rewrite Nat2Z.inj_succ. unfold Z.succ. rewrite inject_Z_plus.
           ring.
      * pose proof (pow2_pos 1024). Lqa.lra.
Qed.

Lemma one_le_nat : forall n : nat, (0 < n)%nat -> 1 <= inject_Z (Z.of_nat n).
Proof.
  intros n H. change 1 with (inject_Z 1). rewrite <- Zle_Qle. lia.
Qed.

(** The first [2 ^ 32] multiples of a number of at most 21 bits are
    binary64 numbers. *)
Lemma multiples_exact :
  forall (a e : Z) (t : Q) (i : nat),
    t == inject_Z a * pow2 e ->
    (0 <= a < 2 ^ 21)%Z -> (-1074 <= e <= 900)%Z ->
    (Z.of_nat i <= 2 ^ 32)%Z ->
    rnd (inject_Z (Z.of_nat i) * t) == inject_Z (Z.of_nat i) * t
    /\ inject_Z (Z.of_nat i) * t < pow2 1024.
Proof.
  intros a e t i T A E I.
  assert (M : (0 <= Z.of_nat i * a < 2 ^ 53)%Z) by nia.
  assert (V : inject_Z (Z.of_nat i) * t
              == inject_Z (Z.of_nat i * a) * pow2 e)
    by (rewrite T, inject_Z_mult; ring).
  split.
  - apply rnd_exact. exists (Z.of_nat i * a)%Z, e.
    split; [exact V|]. split; lia.
  - rewrite V. apply Qlt_le_trans with (inject_Z (2 ^ 53) * pow2 e).
    + apply Qmult_lt_compat_r; [apply pow2_pos|].
      rewrite <- Zlt_Qlt. lia.
    + rewrite <- (pow2_Z 53) by lia. rewrite <- pow2_add.
      apply pow2_le. lia.
Qed.

Lemma round_count_within :
  forall n : nat,
    (Z.of_nat n <= 2 ^ 32)%Z ->
    within (inject_Z (Z.of_nat n)) (inject_Z (Z.of_nat n))
           (round (inject_Z (Z.of_nat n))).
Proof.
  intros n Hn.
  assert (Rn : rnd (inject_Z (Z.of_nat n)) == inject_Z (Z.of_nat n)).
  { apply rnd_Z. rewrite Z.abs_eq by lia.
    apply Z.le_lt_trans with (2 ^ 32)%Z; [exact Hn|reflexivity]. }
  exists (rnd (inject_Z (Z.of_nat n))). split.
  - apply round_finite. rewrite Rn.
    change (Qabs (inject_Z (Z.of_nat n)))
      with (inject_Z (Z.abs (Z.of_nat n))).
    rewrite Z.abs_eq by lia.
    apply Qle_lt_trans with (inject_Z (2 ^ 32));
      [rewrite <- Zle_Qle; exact Hn|num].
  - rewrite Rn. split; apply Qle_refl.
Qed.

(** A sum of [n <= 2 ^ 32] terms within [0, t], divided by [n]. *)
Lemma mean_within :
  forall (a e : Z) (t : Q) (A : Type) (f : A -> number) (l : list A)
         (d : number),
    t == inject_Z a * pow2 e ->
    (0 <= a < 2 ^ 21)%Z -> (-1074 <= e <= 900)%Z ->
    (0 < List.length l)%nat -> (Z.of_nat (List.length l) <= 2 ^ 32)%Z ->
    (forall x, In x l -> within 0 t (f x)) ->
    within (inject_Z (Z.of_nat (List.length l)))
           (inject_Z (Z.of_nat (List.length l))) d ->
    within 0 t (div (fold_left (fun acc x => add acc (f x)) l (of_Z 0)) d).
Proof.
  intros a e t A f l d T Ha He Hpos Hn F D.
  set (n := List.length l) in *.
  assert (T0 : 0 <= t).
  { rewrite T. apply Qmult_le_0_compat; [|apply Qlt_le_weak, pow2_pos].
    change 0 with (inject_Z 0). rewrite <- Zle_Qle. lia. }
  assert (S : within 0 (inject_Z (Z.of_nat (0 + n)) * t)
                (fold_left (fun acc x => add acc (f x)) l (of_Z 0))).
  { apply fold_add_multiples; [exact F| |].
    - intros i Hi. apply (multiples_exact a e); try assumption.
      fold n in Hi. lia.
    - exists 0. split; [reflexivity|]. cbn. split; [apply Qle_refl|].
      rewrite Qmult_0_l. apply Qle_refl. }
  cbn [Nat.add] in S.
  assert (N1 : 1 <= inject_Z (Z.of_nat n)) by (apply one_le_nat, Hpos).
  assert (Rt : rnd t == t).
  { apply rnd_exact. exists a, e. split; [exact T|]. split; [|lia].
    rewrite Z.abs_eq by lia.
    apply Z.lt_trans with (2 ^ 21)%Z; [lia|reflexivity]. }
  assert (Tb : t < pow2 1024).
  { destruct (multiples_exact a e t 1 T Ha He ltac:(cbn; lia)) as [_ B].
    change (inject_Z (Z.of_nat 1)) with 1 in B. rewrite Qmult_1_l in B.
    exact B. }
  apply (div_within 0 (inject_Z (Z.of_nat n) * t)
           (inject_Z (Z.of_nat n)) (inject_Z (Z.of_nat n)));
    try exact S; try exact D.
  - apply Qle_refl.
  - Lqa.lra.
  - rewrite rnd_0; [apply Qle_refl|]. unfold Qdiv. ring.
  - rewrite (rnd_comp (inject_Z (Z.of_nat n) * t / inject_Z (Z.of_nat n)) t)
      by (field; Lqa.lra).
    rewrite Rt. apply Qle_refl.
  - pose proof (pow2_pos 1024). Lqa.lra.
  - exact Tb.
Qed.

(** A quotient by an exact positive divisor, bounded by the rounding
    error. *)
Lemma div_near :
  forall k a b c x y,
    within a b x -> within c c y -> 0 < c ->
    - pow2 k <= a / c -> b / c <= pow2 k ->
    (-1074 <= k - 52)%Z -> (k <= 1000)%Z ->
    within (a / c - pow2 (k - 53)) (b / c + pow2 (k - 53)) (div x y).
Proof.
  intros k a b c x y (p & -> & P) (q & -> & Q) C Bl Bh K1 K2.
  unfold div. cbn [JsArith.div].
  assert (NZ : JsArith.isZero q = false).
  { unfold JsArith.isZero. destruct (Qeq_bool q 0) eqn:E; [|reflexivity].
    apply Qeq_bool_iff in E. exfalso. Lqa.lra. }
  rewrite NZ. cbn [lift].
  assert (E : q == c) by (apply Qle_antisym; tauto).
  rewrite (round_comp (p / q) (p / c)) by (rewrite E; reflexivity).
  apply (round_near (p / c) (a / c) (b / c) k); try assumption.
  assert (Ic : 0 <= / c) by (apply Qlt_le_weak, Qinv_lt_0_compat, C).
  unfold Qdiv. split; apply Qmult_le_compat_r; tauto.
Qed.

Lemma Qfloor_unique :
  forall q z, inject_Z z <= q < inject_Z z + 1 -> Qfloor q = z.
Proof.
  intros q z [L U].
  pose proof (Qfloor_le q) as A. pose proof (Qlt_floor q) as B.
  rewrite inject_Z_plus in B. change (inject_Z 1) with 1 in B.
  assert (X : inject_Z (Qfloor q) < inject_Z (z + 1))
    by (rewrite inject_Z_plus; change (inject_Z 1) with 1; Lqa.lra).
  assert (Y : inject_Z z < inject_Z (Qfloor q + 1))
    by (rewrite inject_Z_plus; change (inject_Z 1) with 1; Lqa.lra).
  rewrite <- Zlt_Qlt in X, Y. lia.
Qed.

Lemma Qmult_le_compat2 :
  forall a b c d, 0 <= a <= c -> 0 <= b <= d -> a * b <= c * d.
Proof.
  intros a b c d [A0 A] [B0 B]. apply Qle_trans with (c * b).
  - apply Qmult_le_compat_r; assumption.
  - rewrite !(Qmult_comm c). apply Qmult_le_compat_r; Lqa.lra.
Qed.

(** A running sum of at most [2 ^ 32] terms within [lo, hi], themselves
    within [-1, 256]: each addition is off by at most [2 ^ -12]. *)
Lemma fold_add_near :
  forall (A : Type) (f : A -> number) (lo hi : Q) (l : list A) (j : nat)
         (s : number),
    (forall a, In a l -> within lo hi (f a)) ->
    -1 <= lo -> 0 <= hi <= 256 ->
    (Z.of_nat (j + List.length l) <= 2 ^ 32)%Z ->
    within (inject_Z (Z.of_nat j) * (lo - (1 # 4096)))
           (inject_Z (Z.of_nat j) * (hi + (1 # 4096))) s ->
    within (inject_Z (Z.of_nat (j + List.length l)) * (lo - (1 # 4096)))
           (inject_Z (Z.of_nat (j + List.length l)) * (hi + (1 # 4096)))
           (fold_left (fun acc a => add acc (f a)) l s).
Proof.
  intros A f lo hi l. induction l as [|a l IH]; intros j s F L0 [H0 H1] N Hs.
  - cbn [List.length fold_left]. rewrite Nat.add_0_r. exact Hs.
  - cbn [fold_left List.length] in *.
    replace (j + S (List.length l))%nat with (S j + List.length l)%nat
      in * by lia.
    apply IH; try assumption; try (split; assumption).
    + intros a' Ha'. apply F. right. exact Ha'.
    + assert (J0 : 0 <= inject_Z (Z.of_nat j) <= 4294967296).
      { change 0 with (inject_Z 0).
        change 4294967296 with (inject_Z (2 ^ 32)).
        rewrite <- !Zle_Qle. lia. }
      pose proof (F a (or_introl eq_refl)) as Fa.
      pose proof (add_near 41 _ _ _ _ _ _ Hs Fa) as St.
      change (pow2 (41 - 53)) with (1 # 4096) in St.
      change (pow2 41) with 2199023255552 in St.
      rewrite Nat2Z.inj_succ. unfold Z.succ. rewrite inject_Z_plus.
      change (inject_Z 1) with 1.
      revert J0 St. generalize (inject_Z (Z.of_nat j)). intros J J0 St.
      assert (P1 : - (8589934592) <= J * (lo - (1 # 4096))).
      { apply Qle_trans with (J * - (2)); [Lqa.lra|].
        rewrite !(Qmult_comm J). apply Qmult_le_compat_r; Lqa.lra. }
      assert (P2 : J * (hi + (1 # 4096)) <= 4294967296 * 257).
      { apply Qmult_le_compat2; split; try Lqa.lra. }
      specialize (St ltac:(Lqa.lra) ltac:(Lqa.lra) ltac:(lia) ltac:(lia)).
      apply (within_weaken _ _ _ _ _ St); Lqa.lra.
Qed.

(** ** The arithmetic on known values *)

(** [0.1 + 0.2] is [0.30000000000000004]. *)
Example tenth_plus_fifth :
  add (lit (1 # 10)) (lit (2 # 10))
  = Finite (1351079888211149 # 4503599627370496).
Proof. vm_compute. reflexivity. Qed.

(** [1 / 3] is [0.3333333333333333]. *)
Example one_third :
  div (of_Z 1) (of_Z 3) = Finite (6004799503160661 # 18014398509481984).
Proof. vm_compute. reflexivity. Qed.

(** [Math.sqrt(2)] is [1.4142135623730951]. *)
Example sqrt_of_two :
  Math_sqrt (of_Z 2) = Finite (6369051672525773 # 4503599627370496).
Proof. vm_compute. reflexivity. Qed.

(** [2 ** 53 + 1] is half-way between two numbers and goes to the even
    one, [2 ** 53]. *)
Example tie_to_even :
  add (of_Z 9007199254740992) (of_Z 1) = of_Z 9007199254740992.
Proof. vm_compute. reflexivity. Qed.

(** [1e308 * 10] is [Infinity]. *)
Example product_overflows :
  mul (lit (inject_Z (10 ^ 308))) (of_Z 10) = PosInfinity.
Proof. vm_compute. reflexivity. Qed.

(** [Math.round(2.5)] is 3, [Math.round(-2.5)] is -2. *)
Example round_half_up :
  Math_round (lit (5 # 2)) = of_Z 3 /\ Math_round (lit (- 5 # 2)) = of_Z (-2).
Proof. split; vm_compute; reflexivity. Qed.

End DoubleFacts.

(* ================================================================== *)
(** * Properties of the pixel metrics *)

Module ImageFacts.

Import JsNumber Double ImageAnalysisUtils DoubleFacts.
#[local] Open Scope Q_scope.

(** ** Reading the buffer *)

Lemma get_in :
  forall data i,
    (0 <= i < len data)%Z ->
    get data i = of_Z (nth (Z.to_nat i) data 0%Z).
Proof.
  intros data i [H0 H1]. unfold get.
  destruct (Z.ltb_spec i 0) as [C|_]; [lia|].
  rewrite (nth_error_nth' data 0%Z); [reflexivity|].
  unfold len in H1. lia.
Qed.

Lemma luminance_in :
  forall data i,
    (0 <= i)%Z -> (i + 2 < len data)%Z ->
    luminance data i
    = luma (nth (Z.to_nat i) data 0%Z)
           (nth (Z.to_nat (i + 1)) data 0%Z)
           (nth (Z.to_nat (i + 2)) data 0%Z).
Proof.
  intros data i H0 H2. unfold luminance, luma.
  rewrite !get_in by lia. reflexivity.
Qed.

Lemma getGrayscale_outside :
  forall data idx,
    (idx < 0 \/ len data <= idx)%Z -> getGrayscale data idx = of_Z 0.
Proof.
  intros data idx H. unfold getGrayscale.
  destruct (Z.ltb_spec idx 0) as [C|C]; [reflexivity|].
  destruct (Z.geb_spec idx (len data)) as [D|D]; [reflexivity|lia].
Qed.

Lemma getGrayscale_pixel :
  forall data w h x y,
    len data = (4 * w * h)%Z ->
    (0 <= x < w)%Z -> (0 <= y < h)%Z ->
    getGrayscale data ((y * w + x) * 4) = lumaAt data w x y.
Proof.
  intros data w h x y Hlen Hx Hy.
  assert (B : (0 <= y * w + x < w * h)%Z) by nia.
  unfold getGrayscale.
  destruct (Z.ltb_spec ((y * w + x) * 4) 0) as [C|_]; [lia|].
  destruct (Z.geb_spec ((y * w + x) * 4) (len data)) as [D|_]; [lia|].
  cbn [orb]. rewrite luminance_in by lia.
  unfold lumaAt, sample. rewrite Z.add_0_r. reflexivity.
Qed.

Lemma nth_clamped :
  forall data (i : nat),
    clamped data -> (i < List.length data)%nat ->
    (0 <= nth i data 0 <= 255)%Z.
Proof.
  intros data i Hc Hi. unfold clamped in Hc.
  rewrite Forall_forall in Hc. apply Hc, nth_In, Hi.
Qed.

(** ** The luma of a colour *)

Lemma within_byte :
  forall v, (0 <= v <= 255)%Z -> within 0 255 (of_Z v).
Proof. intros v H. apply (within_of_Z v 0 255 H). Qed.

Lemma lit_weights :
  lit (299 # 1000) = Finite c299 /\ lit (587 # 1000) = Finite c587
  /\ lit (114 # 1000) = Finite c114.
Proof. repeat split; vm_compute; reflexivity. Qed.

Lemma within_exact : forall q, within q q (Finite q).
Proof. intro q. exists q. split; [reflexivity|Lqa.lra]. Qed.

(** The weighted sum of three numbers within [0, 255] is within
    [0, 255]: the three weights, as binary64 numbers, bring the colour
    (255, 255, 255) to 255 exactly. *)
Lemma weighted_within :
  forall r g b,
    within 0 255 r -> within 0 255 g -> within 0 255 b ->
    within 0 255 (weighted r g b).
Proof.
  intros r g b R G B. unfold weighted.
  destruct lit_weights as (-> & -> & ->).
  pose (T1 := rnd (c299 * 255)). pose (T2 := rnd (c587 * 255)).
  pose (T3 := rnd (c114 * 255)).
  assert (M1 : within 0 T1 (mul (Finite c299) r)).
  { apply (mul_within c299 c299 0 255); try assumption;
      try apply within_exact; num. }
  assert (M2 : within 0 T2 (mul (Finite c587) g)).
  { apply (mul_within c587 c587 0 255); try assumption;
      try apply within_exact; num. }
  assert (M3 : within 0 T3 (mul (Finite c114) b)).
  { apply (mul_within c114 c114 0 255); try assumption;
      try apply within_exact; num. }
  assert (S1 : within 0 (rnd (T1 + T2))
                      (add (mul (Finite c299) r) (mul (Finite c587) g))).
  { apply (add_within 0 T1 0 T2); try assumption; num. }
  apply (add_within 0 (rnd (T1 + T2)) 0 T3); try assumption; num.
Qed.

Lemma luma_within :
  forall r g b,
    (0 <= r <= 255)%Z -> (0 <= g <= 255)%Z -> (0 <= b <= 255)%Z ->
    within 0 255 (luma r g b).
Proof.
  intros r g b R G B. apply weighted_within; apply within_byte; assumption.
Qed.

Lemma lumaAt_within :
  forall data w h x y,
    clamped data -> len data = (4 * w * h)%Z ->
    (0 <= x < w)%Z -> (0 <= y < h)%Z ->
    within 0 255 (lumaAt data w x y).
Proof.
  intros data w h x y Hc Hlen Hx Hy. unfold lumaAt, sample.
  unfold len in Hlen.
  assert (B : (0 <= y * w + x < w * h)%Z) by nia.
  apply luma_within; apply nth_clamped; try assumption; lia.
Qed.

(** [getGrayscale] at the start of a pixel, in the buffer or not. *)
Lemma getGrayscale_within :
  forall data n j,
    clamped data -> List.length data = (4 * n)%nat ->
    within 0 255 (getGrayscale data (4 * j)).
Proof.
  intros data n j Hc Hlen.
  destruct (Z_lt_dec (4 * j) 0) as [C|C];
    [rewrite getGrayscale_outside by lia; apply (within_of_Z 0 0 255); lia|].
  destruct (Z_le_dec (len data) (4 * j)) as [D|D];
    [rewrite getGrayscale_outside by lia; apply (within_of_Z 0 0 255); lia|].
  unfold getGrayscale.
  destruct (Z.ltb_spec (4 * j) 0) as [C'|_]; [lia|].
  destruct (Z.geb_spec (4 * j) (len data)) as [D'|_]; [lia|].
  cbn [orb]. unfold len in *. rewrite luminance_in by (unfold len; lia).
  apply luma_within; apply nth_clamped; try assumption; lia.
Qed.

(** The luma computed for a colour of bytes is within [2 ^ -40] of the
    exact [(299 r + 587 g + 114 b) / 1000]. *)
Lemma luma_near :
  forall r g b,
    (0 <= r <= 255)%Z -> (0 <= g <= 255)%Z -> (0 <= b <= 255)%Z ->
    within (inject_Z (luma1000 r g b) / 1000 - (1 # 1099511627776))
           (inject_Z (luma1000 r g b) / 1000 + (1 # 1099511627776))
           (luma r g b).
Proof.
  intros r g b [R0 R1] [G0 G1] [B0 B1].
  rewrite Zle_Qle in R0, R1, G0, G1, B0, B1.
  change (inject_Z 0) with 0 in *. change (inject_Z 255) with 255 in *.
  unfold luma, weighted, luma1000.
  destruct lit_weights as (-> & -> & ->).
  rewrite !inject_Z_plus, !inject_Z_mult.
  change (inject_Z 299) with 299. change (inject_Z 587) with 587.
  change (inject_Z 114) with 114.
  unfold of_Z.
  generalize dependent (inject_Z r). intros x X0 X1.
  generalize dependent (inject_Z g). intros y Y0 Y1.
  generalize dependent (inject_Z b). intros z Z0 Z1.
  pose proof (mul_near 8 c299 x x (Finite x) (within_exact x)) as M1.
  pose proof (mul_near 8 c587 y y (Finite y) (within_exact y)) as M2.
  pose proof (mul_near 8 c114 z z (Finite z) (within_exact z)) as M3.
  change (pow2 (8 - 53)) with (1 # 35184372088832) in *.
  change (pow2 8) with 256 in *.
  unfold c299, c587, c114 in *.
  specialize (M1 ltac:(Lqa.lra) ltac:(Lqa.lra) ltac:(Lqa.lra)
                 ltac:(lia) ltac:(lia)).
  specialize (M2 ltac:(Lqa.lra) ltac:(Lqa.lra) ltac:(Lqa.lra)
                 ltac:(lia) ltac:(lia)).
  specialize (M3 ltac:(Lqa.lra) ltac:(Lqa.lra) ltac:(Lqa.lra)
                 ltac:(lia) ltac:(lia)).
  pose proof (add_near 8 _ _ _ _ _ _ M1 M2) as S1.
  change (pow2 (8 - 53)) with (1 # 35184372088832) in *.
  change (pow2 8) with 256 in *.
  specialize (S1 ltac:(Lqa.lra) ltac:(Lqa.lra) ltac:(lia) ltac:(lia)).
  pose proof (add_near 8 _ _ _ _ _ _ S1 M3) as S2.
  change (pow2 (8 - 53)) with (1 # 35184372088832) in *.
  change (pow2 8) with 256 in *.
  specialize (S2 ltac:(Lqa.lra) ltac:(Lqa.lra) ltac:(lia) ltac:(lia)).
  apply (within_weaken _ _ _ _ _ S2); unfold Qdiv;
    change (/ 1000) with (1 # 1000); Lqa.lra.
Qed.

(** ** The Sobel step *)

Lemma term_within :
  forall g,
    within 0 255 g ->
    within (- (255)) 0 (mul (of_Z (-1)) g)
    /\ within 0 255 (mul (of_Z 1) g)
    /\ within (- (510)) 0 (mul (of_Z (-2)) g)
    /\ within 0 510 (mul (of_Z 2) g).
Proof.
  intros g G. repeat split.
  - apply (mulc_within_neg (-1) 0 255); try assumption; try lia; num.
  - apply (mulc_within_pos 1 0 255); try assumption; try lia; num.
  - apply (mulc_within_neg (-2) 0 255); try assumption; try lia; num.
  - apply (mulc_within_pos 2 0 255); try assumption; try lia; num.
Qed.

(** The horizontal gradient: weights -1, 1, -2, 2, -1, 1. *)
Lemma gx_within :
  forall g1 g2 g3 g4 g5 g6,
    within 0 255 g1 -> within 0 255 g2 -> within 0 255 g3 ->
    within 0 255 g4 -> within 0 255 g5 -> within 0 255 g6 ->
    within (- (1020)) 1020
      (add (add (add (add (add (mul (of_Z (-1)) g1) (mul (of_Z 1) g2))
                          (mul (of_Z (-2)) g3))
                     (mul (of_Z 2) g4))
                (mul (of_Z (-1)) g5))
           (mul (of_Z 1) g6)).
Proof.
  intros g1 g2 g3 g4 g5 g6 G1 G2 G3 G4 G5 G6.
  destruct (term_within g1 G1) as (A1 & _ & _ & _).
  destruct (term_within g2 G2) as (_ & A2 & _ & _).
  destruct (term_within g3 G3) as (_ & _ & A3 & _).
  destruct (term_within g4 G4) as (_ & _ & _ & A4).
  destruct (term_within g5 G5) as (A5 & _ & _ & _).
  destruct (term_within g6 G6) as (_ & A6 & _ & _).
  apply (add_within (- (1020)) 765 0 255); [|exact A6|num..].
  apply (add_within (- (765)) 765 (- (255)) 0); [|exact A5|num..].
  apply (add_within (- (765)) 255 0 510); [|exact A4|num..].
  apply (add_within (- (255)) 255 (- (510)) 0); [|exact A3|num..].
  apply (add_within (- (255)) 0 0 255); [exact A1|exact A2|num..].
Qed.

(** The vertical gradient: weights -1, -2, -1, 1, 2, 1. *)
Lemma gy_within :
  forall g1 g2 g3 g4 g5 g6,
    within 0 255 g1 -> within 0 255 g2 -> within 0 255 g3 ->
    within 0 255 g4 -> within 0 255 g5 -> within 0 255 g6 ->
    within (- (1020)) 1020
      (add (add (add (add (add (mul (of_Z (-1)) g1) (mul (of_Z (-2)) g2))
                          (mul (of_Z (-1)) g3))
                     (mul (of_Z 1) g4))
                (mul (of_Z 2) g5))
           (mul (of_Z 1) g6)).
Proof.
  intros g1 g2 g3 g4 g5 g6 G1 G2 G3 G4 G5 G6.
  destruct (term_within g1 G1) as (A1 & _ & _ & _).
  destruct (term_within g2 G2) as (_ & _ & A2 & _).
  destruct (term_within g3 G3) as (A3 & _ & _ & _).
  destruct (term_within g4 G4) as (_ & A4 & _ & _).
  destruct (term_within g5 G5) as (_ & _ & _ & A5).
  destruct (term_within g6 G6) as (_ & A6 & _ & _).
  apply (add_within (- (1020)) 765 0 255); [|exact A6|num..].
  apply (add_within (- (1020)) 255 0 510); [|exact A5|num..].
  apply (add_within (- (1020)) 0 0 255); [|exact A4|num..].
  apply (add_within (- (765)) 0 (- (255)) 0); [|exact A3|num..].
  apply (add_within (- (255)) 0 (- (510)) 0); [exact A1|exact A2|num..].
Qed.

(** The length of a gradient whose two components are within
    [-1020, 1020]. *)
Lemma magnitude_within :
  forall gx gy,
    within (- (1020)) 1020 gx -> within (- (1020)) 1020 gy ->
    within 0 magnitudeTop (Math_sqrt (add (mul gx gx) (mul gy gy))).
Proof.
  intros gx gy X Y.
  apply (sqrt_within 0 2080800); [|num..].
  apply (add_within 0 1040400 0 1040400); [| |num..].
  - apply (square_within 1020); [exact X|num..].
  - apply (square_within 1020); [exact Y|num..].
Qed.

Lemma sobelMagnitude_within :
  forall data n w x y,
    clamped data -> List.length data = (4 * n)%nat ->
    within 0 magnitudeTop (sobelMagnitude data w x y).
Proof.
  intros data n w x y Hc Hlen. unfold sobelMagnitude. cbv zeta.
  set (p := (y * w + x)%Z).
  replace (p * 4 - w * 4 - 4)%Z with (4 * (p - w - 1))%Z by ring.
  replace (p * 4 - w * 4 + 4)%Z with (4 * (p - w + 1))%Z by ring.
  replace (p * 4 - w * 4)%Z with (4 * (p - w))%Z by ring.
  replace (p * 4 - 4)%Z with (4 * (p - 1))%Z by ring.
  replace (p * 4 + 4)%Z with (4 * (p + 1))%Z by ring.
  replace (p * 4 + w * 4 - 4)%Z with (4 * (p + w - 1))%Z by ring.
  replace (p * 4 + w * 4 + 4)%Z with (4 * (p + w + 1))%Z by ring.
  replace (p * 4 + w * 4)%Z with (4 * (p + w))%Z by ring.
  apply magnitude_within;
    [apply gx_within|apply gy_within];
    apply (getGrayscale_within data n); assumption.
Qed.

(** ** The loops *)

Lemma In_countUp_1 :
  forall a b x, In x (countUp a b 1) <-> (a <= x < b)%Z.
Proof.
  intros a b x. unfold countUp.
  replace ((b - a + 1 - 1) / 1)%Z with (b - a)%Z
    by (rewrite Z.div_1_r; lia).
  rewrite in_map_iff. split.
  - intros (k & <- & Hk). apply in_seq in Hk. lia.
  - intros H. exists (Z.to_nat (x - a)). split; [lia|].
    apply in_seq. lia.
Qed.

Lemma length_countUp_1 :
  forall a b, List.length (countUp a b 1) = Z.to_nat (b - a).
Proof.
  intros a b. unfold countUp. rewrite length_map, length_seq.
  rewrite Z.div_1_r. f_equal. lia.
Qed.

Lemma countUp_1_empty :
  forall a b, (b <= a)%Z -> countUp a b 1 = [].
Proof.
  intros a b H. apply length_zero_iff_nil.
  rewrite length_countUp_1. lia.
Qed.

Lemma countUp_4 :
  forall n : nat,
    countUp 0 (4 * Z.of_nat n) 4
    = map (fun k => (4 * Z.of_nat k)%Z) (seq 0 n).
Proof.
  intro n. unfold countUp.
  replace ((4 * Z.of_nat n - 0 + 4 - 1) / 4)%Z with (Z.of_nat n).
  - rewrite Nat2Z.id. reflexivity.
  - apply Z.div_unique with (r := 3%Z); lia.
Qed.

(** The pixel loops of [calculateBrightness] and [calculateContrast] run
    over the pixels of a buffer of [n] whole pixels. *)
Lemma pixel_loop :
  forall data n (f : Z -> number) (s : number),
    List.length data = (4 * n)%nat ->
    fold_left (fun acc i => add acc (f i)) (countUp 0 (len data) 4) s
    = fold_left (fun acc k => add acc (f (4 * Z.of_nat k)%Z)) (seq 0 n) s.
Proof.
  intros data n f s Hlen.
  unfold len. rewrite Hlen, Nat2Z.inj_mul. simpl (Z.of_nat 4).
  rewrite countUp_4. generalize (seq 0 n). intro l. revert s.
  induction l as [|k l IH]; intro s; [reflexivity|].
  cbn [map fold_left]. apply IH.
Qed.

Lemma luminance_pixel :
  forall data n k,
    List.length data = (4 * n)%nat -> (k < n)%nat ->
    luminance data (4 * Z.of_nat k)
    = luma (nth (4 * k) data 0%Z) (nth (4 * k + 1) data 0%Z)
           (nth (4 * k + 2) data 0%Z).
Proof.
  intros data n k Hlen Hk.
  rewrite luminance_in by (unfold len; lia).
  replace (Z.to_nat (4 * Z.of_nat k)) with (4 * k)%nat by lia.
  replace (Z.to_nat (4 * Z.of_nat k + 1)) with (4 * k + 1)%nat by lia.
  replace (Z.to_nat (4 * Z.of_nat k + 2)) with (4 * k + 2)%nat by lia.
  reflexivity.
Qed.

Lemma luminance_within :
  forall data n k,
    clamped data -> List.length data = (4 * n)%nat -> (k < n)%nat ->
    within 0 255 (luminance data (4 * Z.of_nat k)).
Proof.
  intros data n k Hc Hlen Hk. rewrite (luminance_pixel data n k Hlen Hk).
  apply luma_within; apply nth_clamped; try assumption; lia.
Qed.

(** The nested loops of [calculateSharpness] visit the interior pixels
    row by row, and count them. *)
Lemma nested_loops :
  forall (f : Z -> Z -> number) xs ys s (c : nat),
    fold_left
      (fun acc y =>
         fold_left
           (fun acc x =>
              let '(sharpnessSum, count) := acc in
              (add sharpnessSum (f x y), S count))
           xs acc)
      ys (s, c)
    = (fold_left (fun acc p => add acc (f (fst p) (snd p)))
                 (flat_map (fun y => map (fun x => (x, y)) xs) ys) s,
       (c + List.length (flat_map (fun y => map (fun x => (x, y)) xs)
                                  ys))%nat).
Proof.
  intros f xs ys.
  assert (Inner : forall y l s c,
             fold_left
               (fun acc x =>
                  let '(sharpnessSum, count) := acc in
                  (add sharpnessSum (f x y), S count))
               l (s, c)
             = (fold_left (fun acc p => add acc (f (fst p) (snd p)))
                          (map (fun x => (x, y)) l) s,
                (c + List.length l)%nat)).
  { intros y l. induction l as [|x l IH]; intros s c.
    - cbn. rewrite Nat.add_0_r. reflexivity.
    - cbn [fold_left map List.length fst snd]. rewrite IH.
      f_equal. lia. }
  induction ys as [|y ys IH]; intros s c.
  - cbn. rewrite Nat.add_0_r. reflexivity.
  - cbn [fold_left flat_map]. rewrite Inner, IH.
    rewrite fold_left_app, length_app, length_map. f_equal. lia.
Qed.

Lemma sharpnessLoops_interior :
  forall data w h,
    sharpnessLoops data w h
    = (fold_left (fun acc p => add acc (sobelMagnitude data w (fst p) (snd p)))
                 (interior w h) (of_Z 0),
       List.length (interior w h)).
Proof.
  intros data w h. unfold sharpnessLoops.
  rewrite (nested_loops (sobelMagnitude data w)). reflexivity.
Qed.

Lemma interior_spec :
  forall w h x y,
    In (x, y) (interior w h) <-> (1 <= x < w - 1 /\ 1 <= y < h - 1)%Z.
Proof.
  intros w h x y. unfold interior. rewrite in_flat_map. split.
  - intros (y' & Hy' & Hx). apply in_map_iff in Hx.
    destruct Hx as (x' & E & Hx'). inversion E; subst.
    apply In_countUp_1 in Hy'. apply In_countUp_1 in Hx'. lia.
  - intros [Hx Hy]. exists y. split; [apply In_countUp_1; exact Hy|].
    apply (in_map (fun x0 => (x0, y))). apply In_countUp_1. exact Hx.
Qed.

Lemma length_interior :
  forall w h,
    (2 <= w)%Z -> (2 <= h)%Z ->
    List.length (interior w h) = Z.to_nat ((w - 2) * (h - 2)).
Proof.
  intros w h Hw Hh. unfold interior.
  assert (L : forall ys : list Z,
             List.length
               (flat_map (fun y => map (fun x => (x, y))
                                       (countUp 1 (w - 1) 1)) ys)
             = (List.length ys * Z.to_nat (w - 2))%nat).
  { induction ys as [|y ys IH]; [reflexivity|].
    cbn [flat_map List.length]. rewrite length_app, IH, length_map.
    rewrite length_countUp_1.
    replace (w - 1 - 1)%Z with (w - 2)%Z by lia. lia. }
  rewrite L, length_countUp_1.
  replace (h - 1 - 1)%Z with (h - 2)%Z by lia.
  rewrite Z2Nat.inj_mul by lia. lia.
Qed.

Lemma whole_pixels :
  forall data w h,
    (1 <= w)%Z -> (1 <= h)%Z -> len data = (4 * w * h)%Z ->
    List.length data = (4 * Z.to_nat (w * h))%nat
    /\ (0 < Z.to_nat (w * h))%nat.
Proof. intros data w h Hw Hh Hlen. unfold len in Hlen. nia. Qed.

(** ** The Sobel kernels, entry by entry *)

(** The three zero entries of a kernel contribute nothing: their products
    are 0 as soon as the lumas are numbers, and adding 0 to a binary64
    number gives it back. *)
Lemma sobelX_apply :
  forall (L : Z -> Z -> number) x y,
    is_finite (L x (y - 1)%Z) = true -> is_finite (L x y) = true ->
    is_finite (L x (y + 1)%Z) = true ->
    applyKernel sobelX L x y
    = add (add (add (add (add (mul (of_Z (-1)) (L (x - 1) (y - 1))%Z)
                              (mul (of_Z 1) (L (x + 1) (y - 1))%Z))
                         (mul (of_Z (-2)) (L (x - 1) y)%Z))
                    (mul (of_Z 2) (L (x + 1) y)%Z))
               (mul (of_Z (-1)) (L (x - 1) (y + 1))%Z))
          (mul (of_Z 1) (L (x + 1) (y + 1))%Z).
Proof.
  intros L x y F1 F2 F3. unfold applyKernel, sum, sobelX, entry.
  cbn [flat_map map app fold_left nth Z.of_nat Pos.of_succ_nat Pos.succ].
  replace (x + 0 - 1)%Z with (x - 1)%Z by lia.
  replace (x + 1 - 1)%Z with x by lia.
  replace (x + 2 - 1)%Z with (x + 1)%Z by lia.
  replace (y + 0 - 1)%Z with (y - 1)%Z by lia.
  replace (y + 1 - 1)%Z with y by lia.
  replace (y + 2 - 1)%Z with (y + 1)%Z by lia.
  destruct (L x (y - 1)%Z) as [| |v1|]; try discriminate F1.
  destruct (L x y) as [| |v2|]; try discriminate F2.
  destruct (L x (y + 1)%Z) as [| |v3|]; try discriminate F3.
  rewrite !mul_0_l.
  rewrite (add_0_l _ (canonical_mul _ _)).
  repeat (rewrite (add_0_r _ (canonical_mul _ _))
          || rewrite (add_0_r _ (canonical_add _ _))).
  reflexivity.
Qed.

Lemma sobelY_apply :
  forall (L : Z -> Z -> number) x y,
    is_finite (L (x - 1)%Z y) = true -> is_finite (L x y) = true ->
    is_finite (L (x + 1)%Z y) = true ->
    applyKernel (transpose sobelX) L x y
    = add (add (add (add (add (mul (of_Z (-1)) (L (x - 1) (y - 1))%Z)
                              (mul (of_Z (-2)) (L x (y - 1))%Z))
                         (mul (of_Z (-1)) (L (x + 1) (y - 1))%Z))
                    (mul (of_Z 1) (L (x - 1) (y + 1))%Z))
               (mul (of_Z 2) (L x (y + 1))%Z))
          (mul (of_Z 1) (L (x + 1) (y + 1))%Z).
Proof.
  intros L x y F1 F2 F3. unfold applyKernel, sum, transpose, sobelX, entry.
  cbn [flat_map map app fold_left nth Z.of_nat Pos.of_succ_nat Pos.succ].
  replace (x + 0 - 1)%Z with (x - 1)%Z by lia.
  replace (x + 1 - 1)%Z with x by lia.
  replace (x + 2 - 1)%Z with (x + 1)%Z by lia.
  replace (y + 0 - 1)%Z with (y - 1)%Z by lia.
  replace (y + 1 - 1)%Z with y by lia.
  replace (y + 2 - 1)%Z with (y + 1)%Z by lia.
  destruct (L (x - 1)%Z y) as [| |v1|]; try discriminate F1.
  destruct (L x y) as [| |v2|]; try discriminate F2.
  destruct (L (x + 1)%Z y) as [| |v3|]; try discriminate F3.
  rewrite !mul_0_l.
  rewrite (add_0_l _ (canonical_mul _ _)).
  repeat (rewrite (add_0_r _ (canonical_mul _ _))
          || rewrite (add_0_r _ (canonical_add _ _))).
  reflexivity.
Qed.

Lemma sobelMagnitude_interior :
  forall data w h x y,
    clamped data ->
    len data = (4 * w * h)%Z ->
    (1 <= x < w - 1)%Z -> (1 <= y < h - 1)%Z ->
    sobelMagnitude data w x y = gradientMagnitude (lumaAt data w) x y.
Proof.
  intros data w h x y Hc Hlen Hx Hy.
  assert (F : forall dx dy,
             (-1 <= dx <= 1)%Z -> (-1 <= dy <= 1)%Z ->
             is_finite (lumaAt data w (x + dx) (y + dy)) = true).
  { intros dx dy Dx Dy. apply (within_finite 0 255).
    apply (lumaAt_within data w h); try assumption; lia. }
  pose proof (F 0 (-1) ltac:(lia) ltac:(lia))%Z as F1.
  pose proof (F 0 0 ltac:(lia) ltac:(lia))%Z as F2.
  pose proof (F 0 1 ltac:(lia) ltac:(lia))%Z as F3.
  pose proof (F (-1) 0 ltac:(lia) ltac:(lia))%Z as F4.
  pose proof (F 1 0 ltac:(lia) ltac:(lia))%Z as F5.
  rewrite ?Z.add_0_r in *.
  replace (y + -1)%Z with (y - 1)%Z in * by lia.
  replace (x + -1)%Z with (x - 1)%Z in * by lia.
  unfold sobelMagnitude, gradientMagnitude. cbv zeta.
  rewrite (sobelX_apply _ x y F1 F2 F3), (sobelY_apply _ x y F4 F2 F5).
  replace ((y * w + x) * 4 - w * 4 - 4)%Z
    with (((y - 1) * w + (x - 1)) * 4)%Z by ring.
  replace ((y * w + x) * 4 - w * 4 + 4)%Z
    with (((y - 1) * w + (x + 1)) * 4)%Z by ring.
  replace ((y * w + x) * 4 - w * 4)%Z
    with (((y - 1) * w + x) * 4)%Z by ring.
  replace ((y * w + x) * 4 - 4)%Z with ((y * w + (x - 1)) * 4)%Z by ring.
  replace ((y * w + x) * 4 + 4)%Z with ((y * w + (x + 1)) * 4)%Z by ring.
  replace ((y * w + x) * 4 + w * 4 - 4)%Z
    with (((y + 1) * w + (x - 1)) * 4)%Z by ring.
  replace ((y * w + x) * 4 + w * 4 + 4)%Z
    with (((y + 1) * w + (x + 1)) * 4)%Z by ring.
  replace ((y * w + x) * 4 + w * 4)%Z
    with (((y + 1) * w + x) * 4)%Z by ring.
  rewrite !(getGrayscale_pixel data w h) by (assumption || lia).
  reflexivity.
Qed.

Lemma fold_left_map_add :
  forall (A : Type) (g : A -> number) (l : list A) (s : number),
    fold_left add (map g l) s = fold_left (fun acc a => add acc (g a)) l s.
Proof.
  intros A g l. induction l as [|a l IH]; intro s; [reflexivity|].
  cbn [map fold_left]. apply IH.
Qed.

Lemma fold_left_add_ext :
  forall (A : Type) (f g : A -> number) (l : list A) (s : number),
    (forall a, In a l -> f a = g a) ->
    fold_left (fun acc a => add acc (f a)) l s
    = fold_left (fun acc a => add acc (g a)) l s.
Proof.
  intros A f g l. induction l as [|a l IH]; intros s H; [reflexivity|].
  cbn [fold_left]. rewrite (H a (or_introl eq_refl)).
  apply IH. intros a' Ha'. apply H. right. exact Ha'.
Qed.

Lemma calculateSharpness_spec :
  forall data w h,
    (3 <= w)%Z -> (3 <= h)%Z ->
    len data = (4 * w * h)%Z ->
    clamped data ->
    calculateSharpness data w h = specSharpness data w h.
Proof.
  intros data w h Hw Hh Hlen Hc.
  unfold calculateSharpness. rewrite sharpnessLoops_interior.
  assert (Hin : In (1, 1)%Z (interior w h)) by (apply interior_spec; lia).
  assert (Hpos : (0 < List.length (interior w h))%nat).
  { destruct (interior w h); [destruct Hin|cbn; lia]. }
  destruct (Nat.ltb_spec 0 (List.length (interior w h))) as [_|C]; [|lia].
  unfold specSharpness, mean, sum.
  rewrite fold_left_map_add, length_map.
  rewrite (fold_left_add_ext _
             (fun p => sobelMagnitude data w (fst p) (snd p))
             (fun p => gradientMagnitude (lumaAt data w) (fst p) (snd p))).
  - reflexivity.
  - intros [x y] Hp. apply interior_spec in Hp. cbn [fst snd].
    apply (sobelMagnitude_interior data w h); tauto.
Qed.


Lemma clamped_sample3x3 : clamped sample3x3.
Proof. unfold clamped, sample3x3. repeat constructor; lia. Qed.


(** The rounding of the operations shows in the result.  On the 3x3 image
    whose only pixel that is not black is (0, 18, 6), in the middle of the
    top row, the luma 11.25 of that pixel is computed as
    11.249999999999998, the only gradient magnitude as
    22.499999999999996, and the sharpness is 22. *)
Example sharpness_of_one_bright_pixel :
  calculateSharpness edge3x3 3 3 = of_Z 22
  /\ specSharpness edge3x3 3 3 = of_Z 22.
Proof. split; vm_compute; reflexivity. Qed.

(** ** The metrics are numbers, on every image of bytes *)

(** Dividing a sum by a count that is at least 1, however large. *)
Lemma div_count_within :
  forall m m' s q,
    within 0 m s -> rnd m <= m' -> m' < pow2 1024 -> 1 <= q ->
    within 0 m' (div s (round q)).
Proof.
  intros m m' s q Hs M B Hq.
  assert (M0 : 0 <= m) by (destruct Hs as (p & _ & P); Lqa.lra).
  assert (R1 : 1 <= rnd q).
  { assert (E : rnd 1 == 1) by reflexivity.
    rewrite <- E. apply rnd_mono, Hq. }
  assert (M' : 0 <= m').
  { apply Qle_trans with (rnd m); [apply rnd_nonneg, M0|exact M]. }
  unfold round, overflow.
  destruct (Qle_bool (pow2 1024) (Qabs (rnd q))).
  - assert (P : Qle_bool 0 (rnd q) = true) by (apply Qle_bool_iff; Lqa.lra).
    rewrite P. destruct Hs as (p & -> & _).
    exists 0. split; [reflexivity|Lqa.lra].
  - apply (div_within 0 m 1 (rnd q)); try assumption.
    + exists (rnd q). split; [reflexivity|Lqa.lra].
    + Lqa.lra.
    + reflexivity.
    + rewrite rnd_0; [Lqa.lra|]. unfold Qdiv. ring.
    + rewrite (rnd_comp (m / 1) m) by (unfold Qdiv; field). exact M.
    + pose proof (pow2_pos 1024). Lqa.lra.
Qed.

Lemma pixel_count :
  forall data n,
    List.length data = (4 * n)%nat ->
    div (of_Z (len data)) (of_Z 4) = round (inject_Z (Z.of_nat n)).
Proof.
  intros data n Hlen. unfold div, of_Z. cbn [JsArith.div].
  change (JsArith.isZero (inject_Z 4)) with false. cbn [lift].
  apply round_comp. unfold len. rewrite Hlen, Nat2Z.inj_mul, inject_Z_mult.
  simpl (Z.of_nat 4). field.
Qed.

Lemma within_0 : forall m, 0 <= m -> within 0 m (of_Z 0).
Proof. intros m H. exists 0. split; [reflexivity|Lqa.lra]. Qed.

Lemma brightness_number :
  forall data n,
    clamped data -> List.length data = (4 * n)%nat -> (0 < n)%nat ->
    exists z, calculateBrightness data = of_Z z /\ (0 <= z <= 2 ^ 62)%Z.
Proof.
  intros data n Hc Hlen Hn. unfold calculateBrightness.
  rewrite (pixel_loop data n _ _ Hlen), (pixel_count data n Hlen).
  assert (S : within 0 (pow2 62)
                (fold_left
                   (fun acc k => add acc (luminance data (4 * Z.of_nat k)))
                   (seq 0 n) (of_Z 0))).
  { apply (fold_add_within nat _ _ 255); [| |num..].
    - intros k Hk. apply in_seq in Hk.
      apply (luminance_within data n); [assumption..|lia].
    - apply within_0. num. }
  pose proof (div_count_within _ (pow2 62) _ _ S ltac:(num) ltac:(num)
                (one_le_nat n Hn)) as D.
  destruct (Math_round_within _ _ _ D) as (z & E & Z0 & Z1).
  exists z. split; [exact E|].
  split; [exact Z0|]. revert Z1. apply Z.le_trans. reflexivity.
Qed.

Lemma contrast_number :
  forall data n,
    clamped data -> List.length data = (4 * n)%nat -> (0 < n)%nat ->
    exists z, calculateContrast data = of_Z z /\ (0 <= z)%Z.
Proof.
  intros data n Hc Hlen Hn. unfold calculateContrast.
  destruct (brightness_number data n Hc Hlen Hn) as (b & -> & B0 & B1).
  rewrite (pixel_loop data n _ _ Hlen), (pixel_count data n Hlen).
  assert (Wb : within 0 (pow2 62) (of_Z b)).
  { exists (inject_Z b). split; [reflexivity|].
    change 0 with (inject_Z 0). rewrite (pow2_Z 62) by lia.
    rewrite <- !Zle_Qle. lia. }
  assert (S : within 0 (pow2 200)
                (fold_left
                   (fun acc k =>
                      add acc (Math_pow2 (sub (luminance data
                                                 (4 * Z.of_nat k))
                                              (of_Z b))))
                   (seq 0 n) (of_Z 0))).
  { apply (fold_add_within nat _ _ (pow2 124)); [| |num..].
    - intros k Hk. apply in_seq in Hk. unfold Math_pow2.
      apply (square_within (pow2 62)); [|num..].
      apply (sub_within 0 255 0 (pow2 62)); [|exact Wb|num..].
      apply (luminance_within data n); [assumption..|lia].
    - apply within_0. num. }
  pose proof (div_count_within _ (pow2 200) _ _ S ltac:(num) ltac:(num)
                (one_le_nat n Hn)) as D.
  assert (R : within 0 (pow2 100)
                (Math_sqrt (div (fold_left
                   (fun acc k =>
                      add acc (Math_pow2 (sub (luminance data
                                                 (4 * Z.of_nat k))
                                              (of_Z b))))
                   (seq 0 n) (of_Z 0))
                   (round (inject_Z (Z.of_nat n)))))).
  { apply (sqrt_within 0 (pow2 200)); [exact D|num..]. }
  destruct (Math_round_within _ _ _ R) as (z & E & Z0 & _).
  exists z. split; [exact E|exact Z0].
Qed.

Lemma sharpness_sum_within :
  forall data n w (l : list (Z * Z)),
    clamped data -> List.length data = (4 * n)%nat ->
    within 0 (pow2 70)
      (fold_left (fun acc p => add acc (sobelMagnitude data w (fst p) (snd p)))
                 l (of_Z 0)).
Proof.
  intros data n w l Hc Hlen.
  apply (fold_add_within _ _ _ magnitudeTop); [| |num..].
  - intros p _. apply (sobelMagnitude_within data n); assumption.
  - apply within_0. num.
Qed.

Lemma sharpness_number :
  forall data n w h,
    clamped data -> List.length data = (4 * n)%nat ->
    exists z, calculateSharpness data w h = of_Z z /\ (0 <= z)%Z.
Proof.
  intros data n w h Hc Hlen. unfold calculateSharpness.
  rewrite sharpnessLoops_interior.
  destruct (Nat.ltb_spec 0 (List.length (interior w h))) as [P|P].
  - pose proof (sharpness_sum_within data n w (interior w h) Hc Hlen) as S.
    assert (D : within 0 (pow2 70)
                  (div (fold_left
                          (fun acc p =>
                             add acc (sobelMagnitude data w (fst p) (snd p)))
                          (interior w h) (of_Z 0))
                       (of_Z (Z.of_nat (List.length (interior w h)))))).
    { apply (div_within 0 (pow2 70) 1
               (inject_Z (Z.of_nat (List.length (interior w h)))));
        try exact S.
      - exists (inject_Z (Z.of_nat (List.length (interior w h)))).
        split; [reflexivity|]. split; [apply one_le_nat, P|apply Qle_refl].
      - apply Qle_refl.
      - reflexivity.
      - rewrite rnd_0; [apply Qle_refl|]. unfold Qdiv. ring.
      - num.
      - num.
      - num. }
    destruct (Math_round_within _ _ _ D) as (z & E & Z0 & _).
    exists z. split; [exact E|exact Z0].
  - exists 0%Z. split; [reflexivity|lia].
Qed.

(** The guard on the denominator: no pixel counted, sharpness 0. *)
Lemma calculateSharpness_guard :
  forall data w h s,
    sharpnessLoops data w h = (s, 0%nat) ->
    calculateSharpness data w h = of_Z 0.
Proof.
  intros data w h s H. unfold calculateSharpness. rewrite H. reflexivity.
Qed.

Lemma sharpnessLoops_small :
  forall data w h,
    (w < 3 \/ h < 3)%Z -> sharpnessLoops data w h = (of_Z 0, 0%nat).
Proof.
  intros data w h [H|H]; unfold sharpnessLoops.
  - rewrite (countUp_1_empty 1 (w - 1)) by lia.
    induction (countUp 1 (h - 1) 1) as [|y ys IH]; [reflexivity|exact IH].
  - rewrite (countUp_1_empty 1 (h - 1)) by lia. reflexivity.
Qed.

Lemma analyzeImageQuality_metrics :
  forall canvas data,
    canvasImageData canvas = Some data ->
    exists m,
      analyzeImageQuality canvas = inr m
      /\ brightness m = calculateBrightness data
      /\ contrast m = calculateContrast data
      /\ sharpness m
         = calculateSharpness data (canvasWidth canvas)
                              (canvasHeight canvas).
Proof.
  intros canvas data H. unfold analyzeImageQuality. rewrite H.
  eexists. split; [reflexivity|]. cbn. repeat split.
Qed.

(** C9.  On every image of at least 1x1 pixel, smaller than 3x3 or not,
    the assessment returns its metrics and throws nothing; brightness,
    contrast and sharpness are numbers, neither [NaN] nor an infinity.
    Every read of the sharpness computation goes through [getGrayscale],
    which gives 0 outside the buffer and a number inside; the division by
    the number of interior pixels is guarded, so that an image without
    interior pixels, and any image narrower or lower than 3 pixels, has
    sharpness 0.  The samples are bytes, as those of every
    [Uint8ClampedArray] are. *)
Theorem C9_assessment_total_on_every_image :
  forall canvas data,
    canvasImageData canvas = Some data ->
    clamped data ->
    (1 <= canvasWidth canvas)%Z -> (1 <= canvasHeight canvas)%Z ->
    len data = (4 * canvasWidth canvas * canvasHeight canvas)%Z ->
    let w := canvasWidth canvas in
    let h := canvasHeight canvas in
    (exists m,
        analyzeImageQuality canvas = inr m
        /\ is_finite (brightness m) = true
        /\ is_finite (contrast m) = true
        /\ is_finite (sharpness m) = true
        /\ ((w < 3 \/ h < 3)%Z -> sharpness m = of_Z 0))
    /\ (forall idx,
          (idx < 0 \/ len data <= idx)%Z ->
          getGrayscale data idx = of_Z 0)
    /\ (forall x y, exists v, sobelMagnitude data w x y = Finite v)
    /\ (forall s,
          sharpnessLoops data w h = (s, 0%nat) ->
          calculateSharpness data w h = of_Z 0)
    /\ (interior w h = [] -> calculateSharpness data w h = of_Z 0).
Proof.
  intros canvas data Hd Hc Hw Hh Hlen w h. fold w h in Hw, Hh, Hlen.
  destruct (whole_pixels data w h Hw Hh Hlen) as [Hn Hpos].
  assert (Hsmall : (w < 3 \/ h < 3)%Z ->
                   calculateSharpness data w h = of_Z 0).
  { intro Hs. apply (calculateSharpness_guard data w h (of_Z 0)).
    apply sharpnessLoops_small, Hs. }
  split; [|split; [|split; [|split]]].
  - destruct (analyzeImageQuality_metrics canvas data Hd)
      as (m & Hm & Hb & Hct & Hs).
    fold w h in Hs.
    exists m. split; [exact Hm|].
    rewrite Hb, Hct, Hs.
    destruct (brightness_number data _ Hc Hn Hpos) as (b & -> & _).
    destruct (contrast_number data _ Hc Hn Hpos) as (c & -> & _).
    destruct (sharpness_number data _ w h Hc Hn) as (s & E & _).
    split; [reflexivity|]. split; [reflexivity|].
    split; [rewrite E; reflexivity|exact Hsmall].
  - apply getGrayscale_outside.
  - intros x y.
    destruct (sobelMagnitude_within data _ w x y Hc Hn) as (v & E & _).
    exists v. exact E.
  - apply calculateSharpness_guard.
  - intro Hi. apply (calculateSharpness_guard data w h (of_Z 0)).
    rewrite sharpnessLoops_interior, Hi. reflexivity.
Qed.

Lemma clamped_solid :
  forall w h r g b a,
    (0 <= r <= 255)%Z -> (0 <= g <= 255)%Z -> (0 <= b <= 255)%Z ->
    (0 <= a <= 255)%Z -> clamped (solid w h r g b a).
Proof.
  intros w h r g b a R G B A. unfold solid, clamped.
  induction (w * h)%nat as [|k IH]; [constructor|].
  cbn [repeat List.concat app]. repeat (constructor; [assumption|]).
  exact IH.
Qed.

Lemma C9_assessment_total_on_every_image_witness :
  exists m,
    analyzeImageQuality (solidCanvas 2 1 200 100 50 255) = inr m
    /\ is_finite (brightness m) = true
    /\ is_finite (contrast m) = true
    /\ is_finite (sharpness m) = true
    /\ ((2 < 3 \/ 1 < 3)%Z -> sharpness m = of_Z 0).
Proof.
  assert (H1 : (1 <= canvasWidth (solidCanvas 2 1 200 100 50 255))%Z)
    by (simpl; lia).
  assert (H2 : (1 <= canvasHeight (solidCanvas 2 1 200 100 50 255))%Z)
    by (simpl; lia).
  assert (Hc : clamped (solid 2 1 200 100 50 255))
    by (apply clamped_solid; lia).
  exact (proj1 (C9_assessment_total_on_every_image
                  (solidCanvas 2 1 200 100 50 255)
                  (solid 2 1 200 100 50 255)
                  eq_refl Hc H1 H2 eq_refl)).
Defined.

(** ** Uniform images *)

Lemma uniformColourb_sound :
  forall data r g b,
    uniformColourb data r g b = true -> uniformColour data r g b.
Proof.
  intros data r g b.
  assert (H : forall n data,
             (List.length data <= n)%nat ->
             uniformColourb data r g b = true -> uniformColour data r g b).
  { clear data. induction n as [|n IH]; intros data Hn Hu k Hk.
    - lia.
    - destruct data as [|r' [|g' [|b' [|a rest]]]];
        try discriminate Hu; [cbn in Hk; lia|].
      cbn [uniformColourb] in Hu.
      apply andb_true_iff in Hu. destruct Hu as [Hu Hrest].
      apply andb_true_iff in Hu. destruct Hu as [Hu Hb].
      apply andb_true_iff in Hu. destruct Hu as [Hr Hg].
      apply Z.eqb_eq in Hr, Hg, Hb. subst r' g' b'.
      destruct k as [|k].
      + cbn. auto.
      + replace (4 * S k)%nat with (S (S (S (S (4 * k))))) by lia.
        cbn [nth Nat.add].
        cbn [List.length] in Hn, Hk.
        apply (IH rest); [lia|exact Hrest|lia]. }
  apply (H (List.length data)). lia.
Qed.

Lemma luminance_uniform :
  forall data n r g b k,
    uniformColour data r g b ->
    List.length data = (4 * n)%nat -> (k < n)%nat ->
    luminance data (4 * Z.of_nat k) = luma r g b.
Proof.
  intros data n r g b k U Hlen Hk.
  rewrite (luminance_pixel data n k Hlen Hk).
  destruct (U k ltac:(lia)) as (-> & -> & ->). reflexivity.
Qed.

Lemma lumaAt_uniform :
  forall data w h r g b x y,
    len data = (4 * w * h)%Z ->
    uniformColour data r g b ->
    (0 <= x < w)%Z -> (0 <= y < h)%Z ->
    lumaAt data w x y = luma r g b.
Proof.
  intros data w h r g b x y Hlen U Hx Hy.
  assert (B : (0 <= y * w + x < w * h)%Z) by nia.
  unfold lumaAt, sample. unfold len in Hlen.
  replace (Z.to_nat ((y * w + x) * 4 + 0))
    with (4 * Z.to_nat (y * w + x))%nat by lia.
  replace (Z.to_nat ((y * w + x) * 4 + 1))
    with (4 * Z.to_nat (y * w + x) + 1)%nat by lia.
  replace (Z.to_nat ((y * w + x) * 4 + 2))
    with (4 * Z.to_nat (y * w + x) + 2)%nat by lia.
  destruct (U (Z.to_nat (y * w + x)) ltac:(lia)) as (-> & -> & ->).
  reflexivity.
Qed.

(** The mean luma computed for a uniform image of at most [2 ^ 32] pixels
    is within [2 ^ -11] of the exact luma of its colour. *)
Lemma uniform_mean_near :
  forall data n r g b,
    uniformColour data r g b ->
    (0 <= r <= 255)%Z -> (0 <= g <= 255)%Z -> (0 <= b <= 255)%Z ->
    List.length data = (4 * n)%nat -> (0 < n)%nat ->
    (Z.of_nat n <= 2 ^ 32)%Z ->
    within (inject_Z (luma1000 r g b) / 1000 - (1 # 2048))
           (inject_Z (luma1000 r g b) / 1000 + (1 # 2048))
           (div (fold_left (fun sum i => add sum (luminance data i))
                           (countUp 0 (len data) 4) (of_Z 0))
                (div (of_Z (len data)) (of_Z 4))).
Proof.
  intros data n r g b U R G B Hlen Hn Hmax.
  rewrite (pixel_loop data n _ _ Hlen), (pixel_count data n Hlen).
  pose proof (luma_near r g b R G B) as Ln.
  pose proof (luma_within r g b R G B) as Lw.
  set (lam := inject_Z (luma1000 r g b) / 1000) in *.
  assert (Lam : 0 <= lam <= 255).
  { destruct Ln as (q & E & Q), Lw as (q' & E' & Q').
    rewrite E in E'. injection E' as <-.
    subst lam. unfold luma1000. rewrite !inject_Z_plus, !inject_Z_mult.
    destruct R as [R0 R1], G as [G0 G1], B as [B0 B1].
    rewrite Zle_Qle in R0, R1, G0, G1, B0, B1.
    change (inject_Z 0) with 0 in *. change (inject_Z 255) with 255 in *.
    change (inject_Z 299) with 299. change (inject_Z 587) with 587.
    change (inject_Z 114) with 114.
    unfold Qdiv. change (/ 1000) with (1 # 1000). Lqa.lra. }
  assert (S : within (inject_Z (Z.of_nat (0 + List.length (seq 0 n)))
                      * (lam - (1 # 1099511627776) - (1 # 4096)))
                     (inject_Z (Z.of_nat (0 + List.length (seq 0 n)))
                      * (lam + (1 # 1099511627776) + (1 # 4096)))
                (fold_left
                   (fun acc k => add acc (luminance data (4 * Z.of_nat k)))
                   (seq 0 n) (of_Z 0))).
  { apply fold_add_near.
    - intros k Hk. apply in_seq in Hk.
      rewrite (luminance_uniform data n r g b k U Hlen) by lia. exact Ln.
    - Lqa.lra.
    - Lqa.lra.
    - rewrite length_seq. cbn [Nat.add]. exact Hmax.
    - exists 0. split; [reflexivity|]. cbn [Z.of_nat].
      change (inject_Z 0) with 0. rewrite !Qmult_0_l. Lqa.lra. }
  rewrite length_seq in S. cbn [Nat.add] in S.
  assert (N1 : 1 <= inject_Z (Z.of_nat n)) by (apply one_le_nat, Hn).
  pose proof (div_near 8 _ _ _ _ _ S (round_count_within n Hmax)
                ltac:(Lqa.lra)) as D.
  change (pow2 (8 - 53)) with (1 # 35184372088832) in D.
  change (pow2 8) with 256 in D.
  revert N1 D. generalize (inject_Z (Z.of_nat n)). intros N N1 D.
  assert (Q1 : N * (lam - (1 # 1099511627776) - (1 # 4096)) / N
               == lam - (1 # 1099511627776) - (1 # 4096))
    by (field; Lqa.lra).
  assert (Q2 : N * (lam + (1 # 1099511627776) + (1 # 4096)) / N
               == lam + (1 # 1099511627776) + (1 # 4096))
    by (field; Lqa.lra).
  revert Q1 Q2 D.
  generalize (N * (lam - (1 # 1099511627776) - (1 # 4096)) / N).
  generalize (N * (lam + (1 # 1099511627776) + (1 # 4096)) / N).
  intros hi lo Q1 Q2 D.
  specialize (D ltac:(Lqa.lra) ltac:(Lqa.lra) ltac:(lia) ltac:(lia)).
  apply (within_weaken _ _ _ _ _ D); Lqa.lra.
Qed.

Lemma thousandths :
  forall r g b,
    inject_Z (luma1000 r g b) / 1000
    == inject_Z (luma1000 r g b) * (1 # 1000).
Proof. intros r g b. unfold Qdiv. reflexivity. Qed.

(** The brightness of a uniform image: the luma of its colour rounded to
    the nearest integer, and one of the two neighbours when the luma is
    half-way. *)
Lemma uniform_brightness :
  forall data n r g b,
    uniformColour data r g b ->
    (0 <= r <= 255)%Z -> (0 <= g <= 255)%Z -> (0 <= b <= 255)%Z ->
    List.length data = (4 * n)%nat -> (0 < n)%nat ->
    (Z.of_nat n <= 2 ^ 32)%Z ->
    (luma1000 r g b mod 1000 <> 500
     -> calculateBrightness data = of_Z ((luma1000 r g b + 500) / 1000))%Z
    /\ (luma1000 r g b mod 1000 = 500
        -> calculateBrightness data = of_Z (luma1000 r g b / 1000)
           \/ calculateBrightness data = of_Z (luma1000 r g b / 1000 + 1))%Z.
Proof.
  intros data n r g b U R G B Hlen Hn Hmax.
  destruct (uniform_mean_near data n r g b U R G B Hlen Hn Hmax)
    as (m & E & M).
  unfold calculateBrightness. rewrite E. cbn [Math_round].
  rewrite thousandths in M. revert M.
  generalize (luma1000 r g b). intros l M.
  split; intro H.
  - f_equal. apply Qfloor_unique.
    assert (K : (1000 * ((l + 500) / 1000) + 1 <= l + 500
                 <= 1000 * ((l + 500) / 1000) + 999)%Z)
      by (Z.to_euclidean_division_equations; lia).
    destruct K as [K1 K2]. rewrite Zle_Qle in K1, K2.
    rewrite !inject_Z_plus, !inject_Z_mult in K1, K2.
    change (inject_Z 1000) with 1000 in *. change (inject_Z 500) with 500 in *.
    change (inject_Z 1) with 1 in *. change (inject_Z 999) with 999 in *.
    Lqa.lra.
  - assert (K : (l = 1000 * (l / 1000) + 500)%Z)
      by (Z.to_euclidean_division_equations; lia).
    assert (K' : inject_Z l == 1000 * inject_Z (l / 1000) + 500).
    { rewrite K at 1. rewrite inject_Z_plus, inject_Z_mult. reflexivity. }
    destruct (Qlt_le_dec (m + (1 # 2)) (inject_Z (l / 1000) + 1)) as [C|C].
    + left. f_equal. apply Qfloor_unique. Lqa.lra.
    + right. f_equal. apply Qfloor_unique. rewrite inject_Z_plus.
      change (inject_Z 1) with 1. Lqa.lra.
Qed.

(** The contrast of a uniform image whose brightness [B] is within
    [d - 2 ^ -39] of the luma of its colour: at most the rounding of
    [d]. *)
Lemma uniform_contrast :
  forall data n r g b (B a e : Z) (d s : Q),
    uniformColour data r g b ->
    (0 <= r <= 255)%Z -> (0 <= g <= 255)%Z -> (0 <= b <= 255)%Z ->
    List.length data = (4 * n)%nat -> (0 < n)%nat ->
    (Z.of_nat n <= 2 ^ 32)%Z ->
    calculateBrightness data = of_Z B ->
    inject_Z B - (d - (1 # 549755813888))
    <= inject_Z (luma1000 r g b) / 1000
    <= inject_Z B + (d - (1 # 549755813888)) ->
    0 <= d <= 1 ->
    d * d == inject_Z a * pow2 e ->
    (0 <= a < 2 ^ 21)%Z -> (-1074 <= e <= 900)%Z ->
    rnd (sqrtQ (d * d)) <= s ->
    exists z, calculateContrast data = of_Z z
              /\ (0 <= z <= Qfloor (s + (1 # 2)))%Z.
Proof.
  intros data n r g b B a e d s U R G Bb Hlen Hn Hmax Eb Hd D01 Hsq Ha He Hs.
  unfold calculateContrast. rewrite Eb.
  rewrite (pixel_loop data n _ _ Hlen), (pixel_count data n Hlen).
  pose proof (luma_near r g b R G Bb) as Ln.
  pose proof (luma_within r g b R G Bb) as Lw.
  assert (T : forall k, In k (seq 0 n) ->
                        within 0 (d * d)
                          (Math_pow2 (sub (luminance data (4 * Z.of_nat k))
                                          (of_Z B)))).
  { intros k Hk. apply in_seq in Hk.
    rewrite (luminance_uniform data n r g b k U Hlen) by lia.
    unfold Math_pow2. apply (square_within d).
    - destruct Ln as (q & E & Q), Lw as (q' & E' & Q').
      rewrite E in E'. injection E' as <-. rewrite E.
      pose proof (sub_near 8 q q (inject_Z B) (inject_Z B)
                    (Finite q) (of_Z B) (within_exact q)
                    (within_exact (inject_Z B))) as Sb.
      change (pow2 (8 - 53)) with (1 # 35184372088832) in Sb.
      change (pow2 8) with 256 in Sb.
      rewrite thousandths in Q, Hd.
      revert Hd Q Sb. generalize (inject_Z (luma1000 r g b)).
      generalize (inject_Z B). intros vb vl Hd Q Sb.
      specialize (Sb ltac:(Lqa.lra) ltac:(Lqa.lra) ltac:(lia) ltac:(lia)).
      apply (within_weaken _ _ _ _ _ Sb); Lqa.lra.
    - apply Qle_lteq. right. apply rnd_exact. exists a, e.
      split; [exact Hsq|]. split; [|lia]. rewrite Z.abs_eq by lia.
      apply Z.lt_trans with (2 ^ 21)%Z; [lia|reflexivity].
    - apply Qle_lt_trans with 1; [|num].
      setoid_replace 1 with (1 * 1) by ring.
      apply Qmult_le_compat2; assumption. }
  assert (Ls : List.length (seq 0 n) = n) by apply length_seq.
  assert (M : within 0 (d * d)
                (div (fold_left
                        (fun acc k =>
                           add acc
                             (Math_pow2 (sub (luminance data (4 * Z.of_nat k))
                                             (of_Z B))))
                        (seq 0 n) (of_Z 0))
                     (round (inject_Z (Z.of_nat n))))).
  { apply (mean_within a e); try (rewrite Ls; assumption); try assumption.
    rewrite Ls. apply round_count_within, Hmax. }
  assert (S1 : rnd (sqrtQ (d * d)) <= 1).
  { assert (X : rnd (sqrtQ 1) == 1) by reflexivity. rewrite <- X.
    apply rnd_mono, sqrtQ_mono.
    - apply Qmult_le_0_compat; tauto.
    - setoid_replace 1 with (1 * 1) by ring.
      apply Qmult_le_compat2; assumption. }
  assert (Rt : within 0 (rnd (sqrtQ (d * d)))
                (Math_sqrt
                   (div (fold_left
                        (fun acc k =>
                           add acc
                             (Math_pow2 (sub (luminance data (4 * Z.of_nat k))
                                             (of_Z B))))
                        (seq 0 n) (of_Z 0))
                     (round (inject_Z (Z.of_nat n)))))).
  { apply (sqrt_within 0 (d * d)); [exact M|apply Qle_refl|num|
                                    apply Qle_refl|num|].
    apply Qle_lt_trans with 1; [exact S1|num]. }
  destruct (Math_round_within _ _ _ Rt) as (z & E & Z0 & Z1).
  exists z. split; [exact E|]. split; [exact Z0|].
  apply Z.le_trans with (1 := Z1). apply Qfloor_resp_le. Lqa.lra.
Qed.

(** Weights that add up to 0, on six equal lumas: what is left of the
    sum is rounding error, at most [2 ^ -39]. *)
Lemma weights_cancel :
  forall (k1 k2 k3 k4 k5 k6 : Z) q,
    0 <= q <= 255 ->
    (-2 <= k1 <= 2)%Z -> (-2 <= k2 <= 2)%Z -> (-2 <= k3 <= 2)%Z ->
    (-2 <= k4 <= 2)%Z -> (-2 <= k5 <= 2)%Z -> (-2 <= k6 <= 2)%Z ->
    (-4 <= k1 + k2 <= 4)%Z -> (-4 <= k1 + k2 + k3 <= 4)%Z ->
    (-4 <= k1 + k2 + k3 + k4 <= 4)%Z ->
    (-4 <= k1 + k2 + k3 + k4 + k5 <= 4)%Z ->
    (k1 + k2 + k3 + k4 + k5 + k6 = 0)%Z ->
    within (- (1 # 549755813888)) (1 # 549755813888)
      (add (add (add (add (add (mul (of_Z k1) (Finite q))
                               (mul (of_Z k2) (Finite q)))
                          (mul (of_Z k3) (Finite q)))
                     (mul (of_Z k4) (Finite q)))
                (mul (of_Z k5) (Finite q)))
           (mul (of_Z k6) (Finite q))).
Proof.
  intros k1 k2 k3 k4 k5 k6 q Q K1 K2 K3 K4 K5 K6 S2 S3 S4 S5 S6.
  assert (T : forall k : Z,
             (-2 <= k <= 2)%Z ->
             within (inject_Z k * q - (1 # 8796093022208))
                    (inject_Z k * q + (1 # 8796093022208))
                    (mul (of_Z k) (Finite q))).
  { intros k K. rewrite Zle_Qle in K. rewrite Zle_Qle in K.
    change (inject_Z (-2)) with (- (2)) in K. change (inject_Z 2) with 2 in K.
    unfold of_Z. revert K. generalize (inject_Z k). intros c K.
    assert (P : - (510) <= c * q <= 510).
    { destruct (Qlt_le_dec c 0) as [N|N].
      - assert (X : (- c) * q <= 2 * 255)
          by (apply Qmult_le_compat2; split; Lqa.lra).
        assert (Y : 0 <= (- c) * q)
          by (apply Qmult_le_0_compat; Lqa.lra).
        Lqa.lra.
      - assert (X : c * q <= 2 * 255)
          by (apply Qmult_le_compat2; split; Lqa.lra).
        assert (Y : 0 <= c * q) by (apply Qmult_le_0_compat; Lqa.lra).
        Lqa.lra. }
    unfold mul. cbn [JsArith.mul lift].
    pose proof (round_near (c * q) (c * q) (c * q) 10) as Rn.
    change (pow2 (10 - 53)) with (1 # 8796093022208) in Rn.
    change (pow2 10) with 1024 in Rn.
    apply Rn; try lia; Lqa.lra. }
  pose proof (T k1 K1) as T1. pose proof (T k2 K2) as T2.
  pose proof (T k3 K3) as T3. pose proof (T k4 K4) as T4.
  pose proof (T k5 K5) as T5. pose proof (T k6 K6) as T6. clear T.
  assert (B : forall s : Z,
             (-4 <= s <= 4)%Z -> - (1020) <= inject_Z s * q <= 1020).
  { intros s Hs. rewrite Zle_Qle in Hs. rewrite Zle_Qle in Hs.
    change (inject_Z (-4)) with (- (4)) in Hs.
    change (inject_Z 4) with 4 in Hs.
    revert Hs. generalize (inject_Z s). intros c Hs.
    destruct (Qlt_le_dec c 0) as [N|N].
    - assert (X : (- c) * q <= 4 * 255)
        by (apply Qmult_le_compat2; split; Lqa.lra).
      assert (Y : 0 <= (- c) * q) by (apply Qmult_le_0_compat; Lqa.lra).
      Lqa.lra.
    - assert (X : c * q <= 4 * 255)
        by (apply Qmult_le_compat2; split; Lqa.lra).
      assert (Y : 0 <= c * q) by (apply Qmult_le_0_compat; Lqa.lra).
      Lqa.lra. }
  pose proof (B _ S2) as B2. pose proof (B _ S3) as B3.
  pose proof (B _ S4) as B4. pose proof (B _ S5) as B5. clear B.
  assert (Z6 : inject_Z (k1 + k2 + k3 + k4 + k5 + k6) * q == 0)
    by (rewrite S6; ring).
  repeat rewrite inject_Z_plus in B2. repeat rewrite inject_Z_plus in B3.
  repeat rewrite inject_Z_plus in B4. repeat rewrite inject_Z_plus in B5.
  repeat rewrite inject_Z_plus in Z6.
  revert T1 T2 T3 T4 T5 T6 B2 B3 B4 B5 Z6.
  generalize (inject_Z k1), (inject_Z k2), (inject_Z k3), (inject_Z k4),
             (inject_Z k5), (inject_Z k6).
  intros c1 c2 c3 c4 c5 c6 T1 T2 T3 T4 T5 T6 B2 B3 B4 B5 Z6.
  pose proof (add_near 11 _ _ _ _ _ _ T1 T2) as A2.
  change (pow2 (11 - 53)) with (1 # 4398046511104) in A2.
  change (pow2 11) with 2048 in A2.
  specialize (A2 ltac:(Lqa.lra) ltac:(Lqa.lra) ltac:(lia) ltac:(lia)).
  pose proof (add_near 11 _ _ _ _ _ _ A2 T3) as A3.
  change (pow2 (11 - 53)) with (1 # 4398046511104) in A3.
  change (pow2 11) with 2048 in A3.
  specialize (A3 ltac:(Lqa.lra) ltac:(Lqa.lra) ltac:(lia) ltac:(lia)).
  pose proof (add_near 11 _ _ _ _ _ _ A3 T4) as A4.
  change (pow2 (11 - 53)) with (1 # 4398046511104) in A4.
  change (pow2 11) with 2048 in A4.
  specialize (A4 ltac:(Lqa.lra) ltac:(Lqa.lra) ltac:(lia) ltac:(lia)).
  pose proof (add_near 11 _ _ _ _ _ _ A4 T5) as A5.
  change (pow2 (11 - 53)) with (1 # 4398046511104) in A5.
  change (pow2 11) with 2048 in A5.
  specialize (A5 ltac:(Lqa.lra) ltac:(Lqa.lra) ltac:(lia) ltac:(lia)).
  pose proof (add_near 11 _ _ _ _ _ _ A5 T6) as A6.
  change (pow2 (11 - 53)) with (1 # 4398046511104) in A6.
  change (pow2 11) with 2048 in A6.
  specialize (A6 ltac:(Lqa.lra) ltac:(Lqa.lra) ltac:(lia) ltac:(lia)).
  apply (within_weaken _ _ _ _ _ A6); Lqa.lra.
Qed.

(** The sharpness of a uniform image is 0. *)
Lemma uniform_sharpness :
  forall data w h r g b,
    uniformColour data r g b ->
    (0 <= r <= 255)%Z -> (0 <= g <= 255)%Z -> (0 <= b <= 255)%Z ->
    (3 <= w)%Z -> (3 <= h)%Z -> (w * h <= 2 ^ 32)%Z ->
    len data = (4 * w * h)%Z ->
    calculateSharpness data w h = of_Z 0.
Proof.
  intros data w h r g b U R G B Hw Hh Hmax Hlen.
  destruct (luma_within r g b R G B) as (q & E & Q).
  assert (Mg : forall p, In p (interior w h) ->
                         within 0 (1 # 274877906944)
                           (sobelMagnitude data w (fst p) (snd p))).
  { intros [x y] Hp. apply interior_spec in Hp. destruct Hp as [Hx Hy].
    cbn [fst snd]. unfold sobelMagnitude. cbv zeta.
    replace ((y * w + x) * 4 - w * 4 - 4)%Z
      with (((y - 1) * w + (x - 1)) * 4)%Z by ring.
    replace ((y * w + x) * 4 - w * 4 + 4)%Z
      with (((y - 1) * w + (x + 1)) * 4)%Z by ring.
    replace ((y * w + x) * 4 - w * 4)%Z
      with (((y - 1) * w + x) * 4)%Z by ring.
    replace ((y * w + x) * 4 - 4)%Z with ((y * w + (x - 1)) * 4)%Z by ring.
    replace ((y * w + x) * 4 + 4)%Z with ((y * w + (x + 1)) * 4)%Z by ring.
    replace ((y * w + x) * 4 + w * 4 - 4)%Z
      with (((y + 1) * w + (x - 1)) * 4)%Z by ring.
    replace ((y * w + x) * 4 + w * 4 + 4)%Z
      with (((y + 1) * w + (x + 1)) * 4)%Z by ring.
    replace ((y * w + x) * 4 + w * 4)%Z
      with (((y + 1) * w + x) * 4)%Z by ring.
    rewrite !(getGrayscale_pixel data w h) by (assumption || lia).
    rewrite (lumaAt_uniform data w h r g b (x - 1) (y - 1)),
            (lumaAt_uniform data w h r g b x (y - 1)),
            (lumaAt_uniform data w h r g b (x + 1) (y - 1)),
            (lumaAt_uniform data w h r g b (x - 1) y),
            (lumaAt_uniform data w h r g b (x + 1) y),
            (lumaAt_uniform data w h r g b (x - 1) (y + 1)),
            (lumaAt_uniform data w h r g b x (y + 1)),
            (lumaAt_uniform data w h r g b (x + 1) (y + 1))
      by (assumption || lia).
    rewrite E.
    apply (sqrt_within 0 (1 # 151115727451828646838272)); [|num..].
    apply (add_within 0 (1 # 302231454903657293676544)
                      0 (1 # 302231454903657293676544)); [| |num..].
    - apply (square_within (1 # 549755813888)); [|num..].
      apply weights_cancel; try lia. exact Q.
    - apply (square_within (1 # 549755813888)); [|num..].
      apply weights_cancel; try lia. exact Q. }
  unfold calculateSharpness. rewrite sharpnessLoops_interior.
  pose proof (length_interior w h ltac:(lia) ltac:(lia)) as L.
  assert (P : (0 < List.length (interior w h))%nat) by (rewrite L; nia).
  destruct (Nat.ltb_spec 0 (List.length (interior w h))) as [_|C]; [|lia].
  assert (M : within 0 (1 # 274877906944)
                (div (fold_left
                        (fun acc p =>
                           add acc (sobelMagnitude data w (fst p) (snd p)))
                        (interior w h) (of_Z 0))
                     (of_Z (Z.of_nat (List.length (interior w h)))))).
  { apply (mean_within 1 (-38)); try assumption.
    - reflexivity.
    - lia.
    - lia.
    - rewrite L, Z2Nat.id by nia. nia.
    - apply within_exact. }
  destruct (Math_round_within _ _ _ M) as (z & Ez & Z0 & Z1).
  rewrite Ez. f_equal.
  change (Qfloor (0 + (1 # 2))) with 0%Z in Z0.
  change (Qfloor ((1 # 274877906944) + (1 # 2))) with 0%Z in Z1. lia.
Qed.

(** A luma that is not half-way between two integers is nearer than
    0.499 to the integer it rounds to. *)
Lemma nearest_thousandth :
  forall l : Z,
    (l mod 1000 <> 500)%Z ->
    inject_Z ((l + 500) / 1000) - (499 # 1000)
    <= inject_Z l / 1000
    <= inject_Z ((l + 500) / 1000) + (499 # 1000).
Proof.
  intros l H.
  assert (K : (1000 * ((l + 500) / 1000) <= l + 499
               /\ l <= 1000 * ((l + 500) / 1000) + 499)%Z)
    by (Z.to_euclidean_division_equations; lia).
  revert K. generalize ((l + 500) / 1000)%Z. intros k K.
  destruct K as [K1 K2].
  rewrite Zle_Qle in K1. rewrite Zle_Qle in K2.
  rewrite inject_Z_plus, inject_Z_mult in K1.
  rewrite inject_Z_plus, inject_Z_mult in K2.
  change (inject_Z 1000) with 1000 in K1, K2.
  change (inject_Z 499) with 499 in K1, K2.
  unfold Qdiv. change (/ 1000) with (1 # 1000).
  revert K1 K2. generalize (inject_Z l), (inject_Z k). intros x y K1 K2.
  split; Lqa.lra.
Qed.

(** A luma half-way between two integers. *)
Lemma half_thousandth :
  forall l : Z,
    (l mod 1000 = 500)%Z ->
    inject_Z l / 1000 == inject_Z (l / 1000) + (1 # 2).
Proof.
  intros l H.
  assert (K : (l = 1000 * (l / 1000) + 500)%Z)
    by (Z.to_euclidean_division_equations; lia).
  revert K. generalize (l / 1000)%Z. intros k ->.
  rewrite inject_Z_plus, inject_Z_mult.
  change (inject_Z 1000) with 1000. change (inject_Z 500) with 500.
  unfold Qdiv. change (/ 1000) with (1 # 1000). ring.
Qed.

(** C3.  A uniform image of at least 3x3 and at most [2 ^ 32] pixels has
    sharpness 0.  Its brightness is the luma [0.299 R + 0.587 G + 0.114 B]
    of its colour rounded to the nearest integer, and its contrast is 0,
    whenever that luma is not half-way between two integers.  When it is
    half-way, the brightness is one of the two integers next to it, as the
    rounding of the binary64 sums decides, and the contrast is 0 or 1. *)
Theorem C3_uniform_image_metrics :
  forall canvas data r g b,
    canvasImageData canvas = Some data ->
    (3 <= canvasWidth canvas)%Z -> (3 <= canvasHeight canvas)%Z ->
    (canvasWidth canvas * canvasHeight canvas <= 2 ^ 32)%Z ->
    len data = (4 * canvasWidth canvas * canvasHeight canvas)%Z ->
    uniformColourb data r g b = true ->
    (0 <= r <= 255)%Z -> (0 <= g <= 255)%Z -> (0 <= b <= 255)%Z ->
    exists m,
      analyzeImageQuality canvas = inr m
      /\ sharpness m = of_Z 0
      /\ ((luma1000 r g b mod 1000 <> 500)%Z ->
          brightness m = of_Z ((luma1000 r g b + 500) / 1000)
          /\ contrast m = of_Z 0)
      /\ ((luma1000 r g b mod 1000 = 500)%Z ->
          (brightness m = of_Z (luma1000 r g b / 1000)
           \/ brightness m = of_Z (luma1000 r g b / 1000 + 1))
          /\ (contrast m = of_Z 0 \/ contrast m = of_Z 1)).
Proof.
  intros canvas data r g b Hd Hw Hh Hmax Hlen Hu R G B.
  apply uniformColourb_sound in Hu.
  destruct (analyzeImageQuality_metrics canvas data Hd)
    as (m & Em & Eb & Ec & Es).
  exists m. split; [exact Em|].
  destruct (whole_pixels data (canvasWidth canvas) (canvasHeight canvas)
              ltac:(lia) ltac:(lia) Hlen) as [Hn Hp].
  assert (Hm : (Z.of_nat (Z.to_nat (canvasWidth canvas * canvasHeight canvas))
                <= 2 ^ 32)%Z) by (rewrite Z2Nat.id by nia; exact Hmax).
  destruct (uniform_brightness data _ r g b Hu R G B Hn Hp Hm) as [Bn Bh].
  split; [rewrite Es; apply (uniform_sharpness data _ _ r g b); assumption|].
  rewrite Eb, Ec. split; intro H.
  - specialize (Bn H). split; [exact Bn|].
    pose proof (nearest_thousandth _ H) as N.
    destruct (uniform_contrast data _ r g b _ 1046529 (-22)
                (1023 # 2048) (1023 # 2048) Hu R G B Hn Hp Hm Bn)
      as (z & Ez & Z0 & Z1).
    + revert N. generalize (inject_Z (luma1000 r g b) / 1000).
      generalize (inject_Z ((luma1000 r g b + 500) / 1000)).
      intros x y N. split; Lqa.lra.
    + split; num.
    + reflexivity.
    + lia.
    + lia.
    + num.
    + rewrite Ez. f_equal.
      change (Qfloor ((1023 # 2048) + (1 # 2))) with 0%Z in Z1. lia.
  - specialize (Bh H). split; [exact Bh|].
    pose proof (half_thousandth _ H) as N.
    assert (C : forall K : Z,
               (K = luma1000 r g b / 1000
                \/ K = luma1000 r g b / 1000 + 1)%Z ->
               calculateBrightness data = of_Z K ->
               calculateContrast data = of_Z 0
               \/ calculateContrast data = of_Z 1).
    { intros K HK EK.
      destruct (uniform_contrast data _ r g b K 16641 (-16)
                  (129 # 256) (129 # 256) Hu R G B Hn Hp Hm EK)
        as (z & Ez & Z0 & Z1).
      - assert (X : inject_Z K == inject_Z (luma1000 r g b / 1000)
                    \/ inject_Z K == inject_Z (luma1000 r g b / 1000) + 1).
        { destruct HK as [->| ->]; [left; reflexivity|right].
          rewrite inject_Z_plus. reflexivity. }
        revert N X. generalize (inject_Z (luma1000 r g b) / 1000).
        generalize (inject_Z (luma1000 r g b / 1000)), (inject_Z K).
        intros x y l N X. destruct X as [X|X]; split; Lqa.lra.
      - split; num.
      - reflexivity.
      - lia.
      - lia.
      - num.
      - rewrite Ez.
        change (Qfloor ((129 # 256) + (1 # 2))) with 1%Z in Z1.
        assert (D : z = 0%Z \/ z = 1%Z) by lia.
        destruct D as [->| ->]; [left|right]; reflexivity. }
    destruct Bh as [E|E]; [apply (C _ (or_introl eq_refl) E)
                          |apply (C _ (or_intror eq_refl) E)].
Qed.

Lemma C3_uniform_image_metrics_witness :
  exists m,
    analyzeImageQuality (solidCanvas 3 3 10 20 30 255) = inr m
    /\ sharpness m = of_Z 0
    /\ ((luma1000 10 20 30 mod 1000 <> 500)%Z ->
        brightness m = of_Z ((luma1000 10 20 30 + 500) / 1000)
        /\ contrast m = of_Z 0)
    /\ ((luma1000 10 20 30 mod 1000 = 500)%Z ->
        (brightness m = of_Z (luma1000 10 20 30 / 1000)
         \/ brightness m = of_Z (luma1000 10 20 30 / 1000 + 1))
        /\ (contrast m = of_Z 0 \/ contrast m = of_Z 1)).
Proof.
  apply (C3_uniform_image_metrics (solidCanvas 3 3 10 20 30 255)
           (solid 3 3 10 20 30 255) 10 20 30 eq_refl).
  - simpl. lia.
  - simpl. lia.
  - simpl. lia.
  - reflexivity.
  - reflexivity.
  - lia.
  - lia.
  - lia.
Defined.

(** Against the contrast 0 of every uniform image: the luma of the colour
    (0, 0, 250) is 28.5; the brightness is 29 and the contrast 1. *)
Lemma C3_counterexample_half_way_luma :
  luma1000 0 0 250 = 28500%Z
  /\ uniformColourb (solid 3 3 0 0 250 255) 0 0 250 = true
  /\ exists m,
       analyzeImageQuality (solidCanvas 3 3 0 0 250 255) = inr m
       /\ brightness m = of_Z 29
       /\ contrast m = of_Z 1
       /\ contrast m <> of_Z 0.
Proof.
  split; [reflexivity|]. split; [reflexivity|].
  eexists. split; [reflexivity|].
  assert (C : calculateContrast (solid 3 3 0 0 250 255) = of_Z 1)
    by (vm_compute; reflexivity).
  cbn [brightness contrast sharpness].
  split; [vm_compute; reflexivity|].
  split; [exact C|]. rewrite C. discriminate.
Qed.

(** The three outcomes of a half-way luma.  The luma of (0, 36, 12) is
    22.5, computed as 22.499999999999996: brightness 22, contrast 0.  That
    of (1, 147, 8) is 87.5, computed as 87.50000000000001: brightness 88,
    contrast 0.  That of (0, 0, 250) is computed exactly: brightness 29,
    contrast 1. *)
Example luma_of_0_36_12 :
  luma 0 36 12 = Finite (6333186975989759 # 281474976710656).
Proof. vm_compute. reflexivity. Qed.

Example half_way_rounded_down :
  luma1000 0 36 12 = 22500%Z
  /\ calculateBrightness (solid 3 3 0 36 12 255) = of_Z 22
  /\ calculateContrast (solid 3 3 0 36 12 255) = of_Z 0.
Proof. split; [reflexivity|]. split; vm_compute; reflexivity. Qed.

Example half_way_rounded_up :
  luma1000 1 147 8 = 87500%Z
  /\ calculateBrightness (solid 3 3 1 147 8 255) = of_Z 88
  /\ calculateContrast (solid 3 3 1 147 8 255) = of_Z 0.
Proof. split; [reflexivity|]. split; vm_compute; reflexivity. Qed.

End ImageFacts.

(* ================================================================== *)
(** * More on the quality tier and the recommendations *)

Module ScoringOrderFacts.

Import Scoring TierOrder.

(** Every comparison of two rationals in the goal or in a hypothesis is
    decided, the impossible cases being closed by linear arithmetic. *)
Ltac decide_Qle :=
  repeat match goal with
    | |- context [Qle_bool ?a ?b] =>
        let E := fresh "E" in
        destruct (Qle_bool a b) eqn:E;
        [ apply Qle_bool_iff in E
        | apply not_true_iff_false in E; rewrite Qle_bool_iff in E ];
        cbn [andb orb negb];
        try (exfalso; Lqa.lra)
    | H : context [Qle_bool ?a ?b] |- _ =>
        let E := fresh "E" in
        destruct (Qle_bool a b) eqn:E;
        [ apply Qle_bool_iff in E
        | apply not_true_iff_false in E; rewrite Qle_bool_iff in E ];
        cbn [andb orb negb] in H;
        try discriminate H;
        try (exfalso; Lqa.lra)
    end.

Lemma tierRank_of_score :
  forall b c s p b' c' s' p',
    qualityScore b c s p <= qualityScore b' c' s' p' ->
    tierRank (determineQuality b c s p)
    <= tierRank (determineQuality b' c' s' p').
Proof.
  intros b c s p b' c' s' p' H. unfold determineQuality.
  set (n := qualityScore b c s p) in *.
  set (m := qualityScore b' c' s' p') in *.
  destruct (Nat.leb_spec 10 n); destruct (Nat.leb_spec 10 m);
    destruct (Nat.leb_spec 7 n); destruct (Nat.leb_spec 7 m);
    destruct (Nat.leb_spec 4 n); destruct (Nat.leb_spec 4 m);
    cbn; lia.
Qed.

Lemma brightnessPoints_rising :
  forall x y,
    le x y = true -> le y (of_Z 120) = true ->
    brightnessPoints x <= brightnessPoints y.
Proof.
  intros x y Hxy Hy. unfold brightnessPoints, ge.
  destruct x as [| |qx|]; destruct y as [| |qy|];
    cbn in Hxy, Hy; try discriminate; cbn [le of_Z andb]; try lia.
  unfold of_Z, inject_Z in *. decide_Qle; lia.
Qed.

Lemma brightnessPoints_falling :
  forall x y,
    le x y = true -> le (of_Z 180) x = true ->
    brightnessPoints y <= brightnessPoints x.
Proof.
  intros x y Hxy Hx. unfold brightnessPoints, ge.
  destruct x as [| |qx|]; destruct y as [| |qy|];
    cbn in Hxy, Hx; try discriminate; cbn [le of_Z andb]; try lia.
  unfold of_Z, inject_Z in *. decide_Qle; lia.
Qed.

(** X1.  Moving the brightness towards the band [120, 180] never lowers the
    score nor the tier: below the band a larger brightness, above it a
    smaller one, scores at least as much, the other metrics being equal. *)
Theorem X1_brightness_towards_band :
  forall x y c s p,
    le x y = true ->
    (le y (of_Z 120) = true ->
     qualityScore x c s p <= qualityScore y c s p
     /\ tierRank (determineQuality x c s p)
        <= tierRank (determineQuality y c s p))
    /\ (le (of_Z 180) x = true ->
        qualityScore y c s p <= qualityScore x c s p
        /\ tierRank (determineQuality y c s p)
           <= tierRank (determineQuality x c s p)).
Proof.
  intros x y c s p Hxy. split; intro H.
  - assert (S : qualityScore x c s p <= qualityScore y c s p).
    { unfold qualityScore.
      pose proof (brightnessPoints_rising x y Hxy H). lia. }
    split; [exact S|apply tierRank_of_score, S].
  - assert (S : qualityScore y c s p <= qualityScore x c s p).
    { unfold qualityScore.
      pose proof (brightnessPoints_falling x y Hxy H). lia. }
    split; [exact S|apply tierRank_of_score, S].
Qed.

Lemma X1_brightness_towards_band_witness :
  le (of_Z 90) (of_Z 110) = true
  /\ le (of_Z 110) (of_Z 120) = true
  /\ qualityScore (of_Z 90) (of_Z 65) (of_Z 20) (of_Z 2073600)
     <= qualityScore (of_Z 110) (of_Z 65) (of_Z 20) (of_Z 2073600).
Proof.
  split; [reflexivity|]. split; [reflexivity|].
  exact (proj1 (proj1 (X1_brightness_towards_band
                         (of_Z 90) (of_Z 110) (of_Z 65) (of_Z 20)
                         (of_Z 2073600) eq_refl) eq_refl)).
Defined.

Lemma thresholdPoints_monotone :
  forall (t3 t2 t1 : Z) x y,
    le x y = true ->
    (if ge x (of_Z t3) then 3 else if ge x (of_Z t2) then 2
     else if ge x (of_Z t1) then 1 else 0)
    <= (if ge y (of_Z t3) then 3 else if ge y (of_Z t2) then 2
        else if ge y (of_Z t1) then 1 else 0).
Proof.
  intros t3 t2 t1 x y Hxy. unfold ge.
  destruct x as [| |qx|]; destruct y as [| |qy|];
    cbn in Hxy; try discriminate; cbn [le of_Z]; try lia.
  - unfold of_Z in *. apply Qle_bool_iff in Hxy.
    assert (T : forall t, Qle_bool (inject_Z t) qx = true ->
                          Qle_bool (inject_Z t) qy = true).
    { intros t Ht. apply Qle_bool_iff. apply Qle_bool_iff in Ht.
      eapply Qle_trans; eassumption. }
    destruct (Qle_bool (inject_Z t3) qx) eqn:E3;
      [rewrite (T _ E3); lia|].
    destruct (Qle_bool (inject_Z t2) qx) eqn:E2;
      [rewrite (T _ E2); destruct (Qle_bool (inject_Z t3) qy); lia|].
    destruct (Qle_bool (inject_Z t1) qx) eqn:E1;
      [rewrite (T _ E1); destruct (Qle_bool (inject_Z t3) qy);
       destruct (Qle_bool (inject_Z t2) qy); lia|].
    lia.
  - destruct (Qle_bool _ qx); [lia|].
    destruct (Qle_bool _ qx); [lia|]. destruct (Qle_bool _ qx); lia.
Qed.

(** X2.  A sharper or larger image never scores less and never gets a worse
    tier, brightness and contrast being equal. *)
Theorem X2_sharper_or_larger_never_worse :
  forall b c s s' p p',
    le s s' = true -> le p p' = true ->
    sharpnessPoints s <= sharpnessPoints s'
    /\ resolutionPoints p <= resolutionPoints p'
    /\ qualityScore b c s p <= qualityScore b c s' p'
    /\ tierRank (determineQuality b c s p)
       <= tierRank (determineQuality b c s' p').
Proof.
  intros b c s s' p p' Hs Hp.
  pose proof (thresholdPoints_monotone 15 10 5 s s' Hs) as A.
  pose proof (thresholdPoints_monotone 2073600 921600 307200 p p' Hp) as B.
  fold (sharpnessPoints s) (sharpnessPoints s') in A.
  fold (resolutionPoints p) (resolutionPoints p') in B.
  assert (S : qualityScore b c s p <= qualityScore b c s' p')
    by (unfold qualityScore; lia).
  repeat split; try assumption. apply tierRank_of_score, S.
Qed.

Lemma X2_sharper_or_larger_never_worse_witness :
  le (of_Z 7) (of_Z 12) = true
  /\ le (of_Z 307200) (of_Z 921600) = true
  /\ sharpnessPoints (of_Z 7) <= sharpnessPoints (of_Z 12).
Proof.
  split; [reflexivity|]. split; [reflexivity|].
  exact (proj1 (X2_sharper_or_larger_never_worse
                  (of_Z 150) (of_Z 65) (of_Z 7) (of_Z 12)
                  (of_Z 307200) (of_Z 921600) eq_refl eq_refl)).
Defined.

Lemma recommendations_optimal_iff :
  forall b c s p,
    generateRecommendations b c s p = [msgOptimal]
    <-> anyDeficiency b c s p = false.
Proof.
  intros b c s p.
  unfold generateRecommendations, anyDeficiency, lightingDeficient,
    contrastDeficient, sharpnessDeficient, resolutionDeficient.
  destruct (lt b (of_Z 80)); destruct (gt b (of_Z 220));
    destruct (lt c (of_Z 20)); destruct (lt s (of_Z 5));
    destruct (lt p (of_Z 307200)); cbn [app List.length Nat.eqb orb];
    split; intro H; try reflexivity; try discriminate H.
Qed.

Lemma lighting_ok_iff_points :
  forall b, b <> NaN ->
    (lightingDeficient b = false <-> 1 <= brightnessPoints b).
Proof.
  intros b Hb. unfold lightingDeficient, brightnessPoints, gt, lt, ge.
  destruct b as [| |q|]; try congruence; cbn;
    [split; [discriminate|lia]| |split; [discriminate|lia]].
  unfold of_Z, inject_Z. decide_Qle; split; intro H; try lia;
    try reflexivity; try discriminate H.
Qed.

Lemma contrast_points_no_deficiency :
  forall c, 1 <= contrastPoints c -> contrastDeficient c = false.
Proof.
  intros c. unfold contrastDeficient, contrastPoints, lt, ge.
  destruct c as [| |q|]; cbn; try lia; try reflexivity.
  unfold of_Z, inject_Z. decide_Qle; intro H; try lia; reflexivity.
Qed.

Lemma contrast_ok_points :
  forall c,
    contrastDeficient c = false -> le c (of_Z 120) = true ->
    1 <= contrastPoints c.
Proof.
  intros c. unfold contrastDeficient, contrastPoints, lt, ge.
  destruct c as [| |q|]; cbn; try discriminate.
  unfold of_Z, inject_Z. decide_Qle; intros H K; try lia;
    try discriminate H; try discriminate K.
Qed.

Lemma threshold_ok_iff_points :
  forall (t3 t2 t1 : Z) x,
    (t1 <= t2 <= t3)%Z -> x <> NaN ->
    (lt x (of_Z t1) = false
     <-> 1 <= (if ge x (of_Z t3) then 3 else if ge x (of_Z t2) then 2
               else if ge x (of_Z t1) then 1 else 0)).
Proof.
  intros t3 t2 t1 x Ht Hx. unfold lt, ge.
  destruct x as [| |q|]; try congruence; cbn;
    [split; [discriminate|lia]| |split; [lia|reflexivity]].
  unfold of_Z.
  destruct (Qle_bool (inject_Z t1) q) eqn:E1; cbn [negb].
  - destruct (Qle_bool (inject_Z t3) q); [split; [lia|reflexivity]|].
    destruct (Qle_bool (inject_Z t2) q); split; try lia; reflexivity.
  - assert (T : forall t, (t1 <= t)%Z -> Qle_bool (inject_Z t) q = false).
    { intros t Hle. apply not_true_iff_false. intro C.
      apply Qle_bool_iff in C. apply not_true_iff_false in E1. apply E1.
      apply Qle_bool_iff. eapply Qle_trans; [|exact C].
      rewrite <- Zle_Qle. exact Hle. }
    rewrite (T t3), (T t2) by lia. split; [discriminate|lia].
Qed.

(** X3.  An excellent image gets no advice: its recommendations are the
    single "optimal" message.  Conversely, when the metrics are numbers, the
    recommendations are the "optimal" message and the contrast is at most
    120, the tier is not poor.  The bound on the contrast matters: a contrast
    above 120 scores nothing and triggers no advice, so that the tier can be
    poor under the "optimal" message. *)
Theorem X3_tier_against_recommendations :
  forall b c s p,
    (determineQuality b c s p = excellent ->
     generateRecommendations b c s p = [msgOptimal])
    /\ (generateRecommendations b c s p = [msgOptimal] ->
        b <> NaN -> s <> NaN -> p <> NaN -> le c (of_Z 120) = true ->
        determineQuality b c s p <> poor)
    /\ (determineQuality (of_Z 80) (of_Z 200) (of_Z 5) (of_Z 307200) = poor
        /\ generateRecommendations (of_Z 80) (of_Z 200) (of_Z 5)
                                   (of_Z 307200) = [msgOptimal]).
Proof.
  intros b c s p.
  pose proof (banded_le_3 (inBand 120 180) (inBand 100 200) (inBand 80 220) b)
    as Bb.
  pose proof (banded_le_3 (inBand 50 80) (inBand 30 100) (inBand 20 120) c)
    as Bc.
  pose proof (banded_le_3 (fun s => ge s (of_Z 15)) (fun s => ge s (of_Z 10))
                          (fun s => ge s (of_Z 5)) s) as Bs.
  pose proof (banded_le_3 (fun p => ge p (of_Z 2073600))
                          (fun p => ge p (of_Z 921600))
                          (fun p => ge p (of_Z 307200)) p) as Bp.
  change (brightnessPoints b <= 3) in Bb. change (contrastPoints c <= 3) in Bc.
  change (sharpnessPoints s <= 3) in Bs. change (resolutionPoints p <= 3) in Bp.
  split; [|split].
  - intro He. apply recommendations_optimal_iff.
    assert (S : 10 <= qualityScore b c s p).
    { unfold determineQuality in He.
      destruct (Nat.leb_spec 10 (qualityScore b c s p)); [assumption|].
      destruct (7 <=? qualityScore b c s p); [discriminate|].
      destruct (4 <=? qualityScore b c s p); discriminate. }
    unfold qualityScore in S.
    assert (Nb : b <> NaN) by (intros ->; cbn in S; lia).
    assert (Ns : s <> NaN) by (intros ->; cbn in S; lia).
    assert (Np : p <> NaN) by (intros ->; cbn in S; lia).
    unfold anyDeficiency.
    rewrite (proj2 (lighting_ok_iff_points b Nb)) by lia.
    rewrite (contrast_points_no_deficiency c) by lia.
    unfold sharpnessDeficient, resolutionDeficient.
    rewrite (proj2 (threshold_ok_iff_points 15 10 5 s ltac:(lia) Ns))
      by (change (1 <= sharpnessPoints s); lia).
    rewrite (proj2 (threshold_ok_iff_points 2073600 921600 307200 p
                      ltac:(lia) Np))
      by (change (1 <= resolutionPoints p); lia).
    reflexivity.
  - intros Ho Nb Ns Np Hc Hpoor.
    apply recommendations_optimal_iff in Ho. unfold anyDeficiency in Ho.
    apply orb_false_iff in Ho. destruct Ho as [Ho Dp].
    apply orb_false_iff in Ho. destruct Ho as [Ho Ds].
    apply orb_false_iff in Ho. destruct Ho as [Db Dc].
    apply (lighting_ok_iff_points b Nb) in Db.
    pose proof (contrast_ok_points c Dc Hc) as Pc.
    apply (threshold_ok_iff_points 15 10 5 s ltac:(lia) Ns) in Ds.
    apply (threshold_ok_iff_points 2073600 921600 307200 p ltac:(lia) Np)
      in Dp.
    change (1 <= sharpnessPoints s) in Ds.
    change (1 <= resolutionPoints p) in Dp.
    unfold determineQuality in Hpoor.
    assert (S : 4 <= qualityScore b c s p) by (unfold qualityScore; lia).
    destruct (10 <=? qualityScore b c s p); [discriminate|].
    destruct (7 <=? qualityScore b c s p); [discriminate|].
    destruct (Nat.leb_spec 4 (qualityScore b c s p)); [discriminate|lia].
  - split; reflexivity.
Qed.

Lemma X3_tier_against_recommendations_witness :
  generateRecommendations (of_Z 150) (of_Z 65) (of_Z 20) (of_Z 2073600)
  = [msgOptimal].
Proof.
  exact (proj1 (X3_tier_against_recommendations
                  (of_Z 150) (of_Z 65) (of_Z 20) (of_Z 2073600)) eq_refl).
Defined.

End ScoringOrderFacts.

(* ================================================================== *)
(** * More on the poller and the scanner page *)

Module ScannerPageFacts.

Import EquipmentScanner ScannerPage PollerFacts.
#[local] Open Scope string_scope.
#[local] Open Scope list_scope.

Lemma failed_status :
  forall r,
    status r = "failed" ->
    (status r =? "completed") = false /\ (status r =? "failed") = true.
Proof. intros r H. rewrite H. split; reflexivity. Qed.

(** X4.  When a status check answers 'failed', the job ends at once in the
    Failed state with the backend's [error_message], or with 'Analysis
    failed' when that message is null or empty; the status label reads
    'failed', nothing is stored, no timer is armed and no later action
    issues another check. *)
Theorem X4_remote_failure_is_fatal :
  forall w r,
    phase (poller w) = AwaitingReply ->
    status r = "failed" ->
    let w' := step w (Deliver (Resolved r)) in
    Failed (failureMessage r) w'
    /\ analysisStatus (ui w') = "failed"
    /\ effects w'
       = effects w
         ++ [ConsoleError "Error checking analysis status:"
                          (ErrorObject (failureMessage r));
             ToastError (failureMessage r)]
    /\ analysisHistory w' = analysisHistory w
    /\ (forall actions,
          checks (run actions w') = checks w
          /\ polling (run actions w') = false).
Proof.
  intros w r Hph Hst w'.
  destruct (failed_status r Hst) as (Hc & Hf).
  assert (Hw : w' = catchBlock (ErrorObject (failureMessage r))
                      (setAnalysisStatus (status r) (setPhase Idle w))).
  { subst w'. cbn -[String.eqb showZ]. rewrite Hph.
    unfold checkStatusResume, tryBlock. rewrite Hc, Hf. reflexivity. }
  destruct (catchBlock_failed (setAnalysisStatus (status r) (setPhase Idle w))
              (failureMessage r) eq_refl) as (F & E & Hh).
  cbv zeta in F, E, Hh. rewrite <- Hw in F, E, Hh.
  change (effects (setAnalysisStatus (status r) (setPhase Idle w)))
    with (effects w) in E.
  change (analysisHistory (setAnalysisStatus (status r) (setPhase Idle w)))
    with (analysisHistory w) in Hh.
  assert (I : phase (poller w') = Idle)
    by (pose proof F as F'; unfold Failed in F'; tauto).
  assert (Hk : checks w' = checks w).
  { unfold checks at 1. rewrite E, checks_app. cbn. lia. }
  split; [exact F|]. split; [rewrite Hw, Hst; reflexivity|].
  split; [exact E|]. split; [exact Hh|].
  intro actions.
  pose proof (idle_forever actions w' I) as S.
  rewrite (samePolling_checks _ _ S), Hk.
  destruct S as (Sp & _).
  split; [reflexivity|]. unfold polling. rewrite Sp, I. reflexivity.
Qed.

Lemma X4_remote_failure_is_fatal_witness :
  phase (poller scanning) = AwaitingReply
  /\ status (respond "failed" emptyPayload) = "failed"
  /\ Failed "Analysis failed"
       (step scanning (Deliver (Resolved (respond "failed" emptyPayload)))).
Proof.
  split; [reflexivity|]. split; [reflexivity|].
  exact (proj1 (X4_remote_failure_is_fatal scanning
                  (respond "failed" emptyPayload) eq_refl eq_refl)).
Defined.

(** ** The budget of a poll *)

Ltac open_world w ph :=
  let p := fresh "p" in
  destruct w as [[? ? ? ? ? ? ? ? ? ?] ? p ?];
  destruct p as [? ? ? ph].

Lemma step_withinBudget :
  forall c0 t0 h0 a w,
    withinBudget c0 t0 h0 w -> withinBudget c0 t0 h0 (step w a).
Proof.
  intros c0 t0 h0 a w H. open_world w ph.
  unfold withinBudget, checks, timers, polling in *.
  cbn -[String.eqb showZ maxRetries Nat.ltb] in H.
  destruct a as [[r|e]| |]; destruct ph;
    cbn -[String.eqb showZ maxRetries Nat.ltb];
    cbn -[String.eqb showZ maxRetries Nat.ltb] in H;
    try exact H.
  - unfold checkStatusResume, tryBlock.
    cbn -[String.eqb showZ maxRetries Nat.ltb].
    destruct (status r =? "completed").
    { cbn -[showZ maxRetries].
      rewrite !filter_app, !length_app. cbn -[maxRetries].
      repeat split; try lia; discriminate. }
    destruct (status r =? "failed").
    { cbn -[maxRetries]. rewrite !filter_app, !length_app. cbn -[maxRetries].
      repeat split; try lia; discriminate. }
    destruct ((status r =? "pending") || (status r =? "processing")).
    + match goal with
      | |- context [(?n <? maxRetries)%nat] =>
          destruct (Nat.ltb_spec n maxRetries)
      end.
      * cbn -[maxRetries]. rewrite !filter_app, !length_app.
        cbn -[maxRetries]. repeat split; try lia.
      * cbn -[maxRetries]. rewrite !filter_app, !length_app.
        cbn -[maxRetries]. repeat split; try lia; discriminate.
    + cbn -[maxRetries]. repeat split; try lia; discriminate.
  - cbn -[maxRetries]. rewrite !filter_app, !length_app. cbn -[maxRetries].
    repeat split; try lia; discriminate.
  - rewrite !filter_app, !length_app. cbn -[maxRetries].
    repeat split; try lia.
Qed.

Lemma run_withinBudget :
  forall c0 t0 h0 actions w,
    withinBudget c0 t0 h0 w -> withinBudget c0 t0 h0 (run actions w).
Proof.
  intros c0 t0 h0 actions. induction actions as [|a actions IH]; intros w H.
  - exact H.
  - rewrite run_cons. apply IH, step_withinBudget, H.
Qed.

Lemma start_withinBudget :
  forall captured job w,
    withinBudget (checks w) (timers w) (List.length (analysisHistory w))
                 (pollAnalysisResult captured job w).
Proof.
  intros captured job w. unfold withinBudget, checks, timers, polling.
  cbn -[maxRetries]. rewrite !filter_app, !length_app. cbn.
  unfold maxRetries. repeat split; lia.
Qed.

Lemma step_timersOf2000 :
  forall e0 a w,
    (exists new, effects w = e0 ++ new /\ timersOf2000 new) ->
    exists new, effects (step w a) = e0 ++ new /\ timersOf2000 new.
Proof.
  intros e0 a w (new & E & T).
  assert (Grow : forall es,
             timersOf2000 es ->
             exists new', (e0 ++ new) ++ es = e0 ++ new'
                          /\ timersOf2000 new').
  { intros es Hes. exists (new ++ es). split; [apply eq_sym, app_assoc|].
    intros d Hd. apply in_app_or in Hd. destruct Hd; [apply T|apply Hes]; auto. }
  assert (Keep : exists new', e0 ++ new = e0 ++ new' /\ timersOf2000 new')
    by (exists new; split; [reflexivity|exact T]).
  open_world w ph. cbn in E. subst.
  destruct a as [[r|e]| |]; destruct ph;
    cbn -[String.eqb showZ maxRetries Nat.ltb]; try exact Keep.
  - unfold checkStatusResume, tryBlock.
    cbn -[String.eqb showZ maxRetries Nat.ltb].
    destruct (status r =? "completed").
    { cbn -[showZ]. apply Grow. intros d [Hd|[]]. discriminate Hd. }
    destruct (status r =? "failed").
    { cbn. rewrite <- app_assoc. apply Grow.
      intros d [Hd|[Hd|[]]]; discriminate Hd. }
    destruct ((status r =? "pending") || (status r =? "processing")).
    + match goal with
      | |- context [(?n <? maxRetries)%nat] => destruct (n <? maxRetries)%nat
      end.
      * cbn. apply Grow. intros d [Hd|[]]. congruence.
      * cbn. rewrite <- app_assoc. apply Grow.
        intros d [Hd|[Hd|[]]]; discriminate Hd.
    + exact Keep.
  - cbn. rewrite <- app_assoc. apply Grow.
    intros d [Hd|[Hd|[]]]; discriminate Hd.
  - apply Grow. intros d [Hd|[]]. discriminate Hd.
Qed.

Lemma run_timersOf2000 :
  forall captured job w0 actions,
    exists new,
      effects (run actions (pollAnalysisResult captured job w0))
      = effects w0 ++ new
      /\ timersOf2000 new.
Proof.
  intros captured job w0 actions.
  induction actions as [|a actions IH] using rev_ind.
  - exists [GetAnalysisResult job]. split; [reflexivity|].
    intros d [Hd|[]]. discriminate Hd.
  - rewrite run_app. apply (step_timersOf2000 (effects w0)), IH.
Qed.

(** X5.  Whatever the backend answers and whatever the user does, one call
    of [pollAnalysisResult] issues at most 31 status checks and arms at most
    30 timers, each of 2000 ms; every check but the first follows a timer of
    its own; at most one result is stored, and none while the job is still
    polled. *)
Theorem X5_poll_never_exceeds_its_budget :
  forall captured job w0 actions,
    let w := run actions (pollAnalysisResult captured job w0) in
    checks w <= checks w0 + 31
    /\ timers w <= timers w0 + 30
    /\ checks w - checks w0
       = timers w - timers w0
         + match phase (poller w) with TimerPending => 0 | _ => 1 end
    /\ List.length (analysisHistory w0) <= List.length (analysisHistory w)
       <= List.length (analysisHistory w0) + 1
    /\ (polling w = true ->
        List.length (analysisHistory w) = List.length (analysisHistory w0))
    /\ (exists new, effects w = effects w0 ++ new /\ timersOf2000 new).
Proof.
  intros captured job w0 actions w.
  pose proof (run_withinBudget _ _ _ actions _
                (start_withinBudget captured job w0)) as B.
  fold w in B. unfold withinBudget in B.
  destruct B as (B1 & B2 & B3 & B4 & B5). unfold maxRetries in B1.
  split; [destruct (phase (poller w)); lia|].
  split; [lia|]. split; [destruct (phase (poller w)); lia|].
  split; [exact B4|]. split; [exact B5|].
  apply run_timersOf2000.
Qed.

(** ** The poller and the variables of the page *)

Lemma step_sameJob :
  forall a w1 w2, sameJob w1 w2 -> sameJob (step w1 a) (step w2 a).
Proof.
  intros a w1 w2 H.
  destruct w1 as [u1 h1 p1 e1]. destruct w2 as [u2 h2 p2 e2].
  unfold sameJob in H. cbn in H. destruct H as (H1 & H2 & H3). subst.
  destruct p2 as [j c n ph].
  destruct a as [[r|e]| |]; destruct ph;
    cbn -[String.eqb showZ maxRetries Nat.ltb];
    try (repeat split; fail).
  unfold checkStatusResume, tryBlock.
  cbn -[String.eqb showZ maxRetries Nat.ltb].
  destruct (status r =? "completed"); [repeat split|].
  destruct (status r =? "failed"); [repeat split|].
  destruct ((status r =? "pending") || (status r =? "processing"));
    [|repeat split].
  destruct (n <? maxRetries)%nat; repeat split.
Qed.

Lemma run_sameJob :
  forall actions w1 w2,
    sameJob w1 w2 -> sameJob (run actions w1) (run actions w2).
Proof.
  induction actions as [|a actions IH]; intros w1 w2 H; [exact H|].
  rewrite !run_cons. apply IH, step_sameJob, H.
Qed.

(** X6.  The poller never reads a variable of the component: whatever a
    handler does to those variables, the run that follows issues the same
    checks, arms the same timers, raises the same toasts and stores the same
    results.  So [resetScannerComplete], which clears the job id, the status
    label and the results but leaves [isAnalyzing] as it is, cancels nothing
    either. *)
Theorem X6_page_variables_do_not_steer_the_poller :
  forall (f : ScannerState -> ScannerState) actions w,
    sameJob (run actions (withUi f w)) (run actions w)
    /\ checks (run actions (withUi f w)) = checks (run actions w)
    /\ polling (run actions (withUi f w)) = polling (run actions w)
    /\ sameJob (run actions (resetScannerComplete w)) (run actions w)
    /\ isAnalyzing (ui (resetScannerComplete w)) = isAnalyzing (ui w)
    /\ currentJobId (ui (resetScannerComplete w)) = None
    /\ analysisStatus (ui (resetScannerComplete w)) = "".
Proof.
  intros f actions w.
  assert (S : sameJob (run actions (withUi f w)) (run actions w))
    by (apply run_sameJob; repeat split).
  assert (R : sameJob (run actions (resetScannerComplete w)) (run actions w))
    by (apply run_sameJob; repeat split).
  split; [exact S|].
  destruct S as (Sp & Se & _).
  split; [unfold checks; rewrite Se; reflexivity|].
  split; [unfold polling; rewrite Sp; reflexivity|].
  split; [exact R|]. repeat split.
Qed.

(** ** What the page shows during a scan *)

Lemma step_pageConsistent :
  forall h0 a w, pageConsistent h0 w -> pageConsistent h0 (step w a).
Proof.
  intros h0 a w H. open_world w ph.
  unfold pageConsistent, polling in *.
  cbn -[String.eqb showZ maxRetries Nat.ltb] in H.
  destruct H as (H1 & H2 & H3).
  destruct a as [[r|e]| |]; destruct ph;
    cbn -[String.eqb showZ maxRetries Nat.ltb];
    try exact (conj H1 (conj H2 H3)).
  - (* an answer arrives *)
    destruct (H1 eq_refl) as (A1 & A2 & A3 & A4). subst.
    unfold checkStatusResume, tryBlock.
    cbn -[String.eqb showZ maxRetries Nat.ltb].
    destruct (status r =? "completed").
    { cbn -[showZ]. split; [discriminate|]. split; [congruence|reflexivity]. }
    destruct (status r =? "failed").
    { cbn. split; [discriminate|]. repeat split. }
    destruct ((status r =? "pending") || (status r =? "processing")).
    + match goal with
      | |- context [(?n <? maxRetries)%nat] => destruct (n <? maxRetries)%nat
      end.
      * cbn. split; [repeat split|]. split; [congruence|discriminate].
      * cbn. split; [discriminate|]. repeat split.
    + cbn. split; [discriminate|]. split; [congruence|reflexivity].
  - (* the request is rejected *)
    destruct (H1 eq_refl) as (A1 & A2 & A3 & A4). subst.
    intuition congruence.
  - (* reset, nothing polled *)
    intuition congruence.
  - (* reset, a request in flight *)
    destruct (H1 eq_refl) as (A1 & A2 & A3 & A4). subst.
    intuition congruence.
  - (* reset, a timer armed *)
    destruct (H1 eq_refl) as (A1 & A2 & A3 & A4). subst.
    intuition congruence.
Qed.

Lemma run_pageConsistent :
  forall h0 actions w,
    pageConsistent h0 w -> pageConsistent h0 (run actions w).
Proof.
  intros h0 actions. induction actions as [|a actions IH]; intros w H.
  - exact H.
  - rewrite run_cons. apply IH, step_pageConsistent, H.
Qed.

(** X7.  From the moment [analyzeImage] has its job, and whatever happens
    next: while the job is polled the page is analysing and shows neither an
    error nor results, and nothing has been stored; an error is only ever
    shown with the analysis off, without results and with nothing stored;
    and the analysis is never off while the job is still polled. *)
Theorem X7_page_consistent_during_scan :
  forall captured imageData fileName job w0 actions,
    pageConsistent (List.length (analysisHistory w0))
      (run actions (analyzeImage captured imageData fileName job w0)).
Proof.
  intros captured imageData fileName job w0 actions.
  apply run_pageConsistent.
  unfold pageConsistent, polling. cbn.
  split; [repeat split|]. split; [congruence|discriminate].
Qed.

(** X8.  When the backend rejects the submitted image, [analyzeImage] has
    already wiped the results of the previous scan: the page is left with the
    message of the rejection (or 'Failed to analyze image' when what was
    thrown is no [Error]), not analysing, without results and without job,
    the status label still reading 'pending'; no status check is issued and
    nothing is stored.  When no earlier poll is in flight the page then stays
    exactly so, whatever answers and timers arrive later. *)
Theorem X8_rejected_submission :
  forall imageData fileName err w,
    let w' := analyzeImageRejected imageData fileName err w in
    error (ui w')
    = Some match err with
           | ErrorObject message => message
           | NotAnError => "Failed to analyze image"
           end
    /\ isAnalyzing (ui w') = false
    /\ equipmentItems (ui w') = []
    /\ analysisMetadata (ui w') = None
    /\ currentJobId (ui w') = None
    /\ analysisStatus (ui w') = "pending"
    /\ capturedImage (ui w')
       = Some ("data:image/jpeg;base64," ++ imageData)%string
    /\ checks w' = checks w
    /\ analysisHistory w' = analysisHistory w
    /\ poller w' = poller w
    /\ (phase (poller w) = Idle ->
        forall replies, run (answers replies) w' = w').
Proof.
  intros imageData fileName err w. cbv zeta.
  assert (P : poller (analyzeImageRejected imageData fileName err w)
              = poller w) by reflexivity.
  repeat match goal with |- _ /\ _ => split end; try reflexivity.
  - unfold checks. cbn. rewrite !filter_app, !length_app. cbn. lia.
  - intros Hidle replies. apply idle_answers. rewrite P. exact Hidle.
Qed.

Lemma X8_rejected_submission_witness :
  run (answers [Rejected NotAnError; Resolved (respond "completed" emptyPayload)])
      (analyzeImageRejected "AAAA" "scan.jpg" NotAnError mounted)
  = analyzeImageRejected "AAAA" "scan.jpg" NotAnError mounted.
Proof.
  apply (X8_rejected_submission "AAAA" "scan.jpg" NotAnError mounted).
  reflexivity.
Defined.

End ScannerPageFacts.

(* ================================================================== *)
(** * Abandoning a scan *)

Module ScannerVisitFacts.

Import EquipmentScanner ScannerPage ScannerVisit PollerFacts ScannerPageFacts.
#[local] Open Scope string_scope.
#[local] Open Scope list_scope.

Lemma visit_cons :
  forall e events v, visit (e :: events) v = visit events (visitStep v e).
Proof. reflexivity. Qed.

(** ** The poller does not see the page *)

Lemma dropUpdates_sameJob : forall w w', sameJob (dropUpdates w w') w'.
Proof. intros w w'. repeat split. Qed.

Lemma sameJob_trans :
  forall w1 w2 w3, sameJob w1 w2 -> sameJob w2 w3 -> sameJob w1 w3.
Proof.
  intros w1 w2 w3 (A1 & A2 & A3) (B1 & B2 & B3).
  repeat split; congruence.
Qed.

Lemma sameJob_sym : forall w1 w2, sameJob w1 w2 -> sameJob w2 w1.
Proof. intros w1 w2 (A1 & A2 & A3). repeat split; congruence. Qed.

Lemma closureStep_sameJob :
  forall a v, sameJob (world (closureStep v a)) (step (world v) a).
Proof.
  intros a v. unfold closureStep. cbn [world].
  destruct (onScreen v); [repeat split|apply dropUpdates_sameJob].
Qed.

Lemma visitStep_sameJob :
  forall e v1 v2,
    sameJob (world v1) (world v2) ->
    sameJob (world (visitStep v1 e)) (world (visitStep v2 e)).
Proof.
  intros e v1 v2 H.
  assert (C : forall a,
             sameJob (world (closureStep v1 a)) (world (closureStep v2 a))).
  { intro a.
    apply sameJob_trans with (step (world v1) a);
      [apply closureStep_sameJob|].
    apply sameJob_trans with (step (world v2) a);
      [apply step_sameJob, H|apply sameJob_sym, closureStep_sameJob]. }
  assert (R : forall w, sameJob (resetScanner w) w) by (intro w; repeat split).
  destruct e as [reply| |control|item]; cbn [visitStep].
  - apply C.
  - apply C.
  - destruct (rendered control v1), (rendered control v2); cbn [world].
    + apply sameJob_trans with (world v1); [apply R|].
      apply sameJob_trans with (world v2); [exact H|apply sameJob_sym, R].
    + apply sameJob_trans with (world v1); [apply R|exact H].
    + apply sameJob_trans with (world v2); [exact H|apply sameJob_sym, R].
    + exact H.
  - destruct (showsScanner (path item)); exact H.
Qed.

Lemma visit_sameJob :
  forall events v1 v2,
    sameJob (world v1) (world v2) ->
    sameJob (world (visit events v1)) (world (visit events v2)).
Proof.
  induction events as [|e events IH]; intros v1 v2 H; [exact H|].
  rewrite !visit_cons. apply IH, visitStep_sameJob, H.
Qed.

(** ** No reset while the job is polled *)

(** No run of [checkStatus] sets [analysisResult]. *)
Lemma step_analysisResult :
  forall a w,
    analysisResult (ui w) = None -> analysisResult (ui (step w a)) = None.
Proof.
  intros a w H. open_world w ph. cbn in H. subst.
  destruct a as [[r|e]| |]; destruct ph;
    cbn -[String.eqb showZ maxRetries Nat.ltb]; try reflexivity.
  unfold checkStatusResume, tryBlock.
  cbn -[String.eqb showZ maxRetries Nat.ltb].
  destruct (status r =? "completed"); [reflexivity|].
  destruct (status r =? "failed"); [reflexivity|].
  destruct ((status r =? "pending") || (status r =? "processing"));
    [|reflexivity].
  match goal with
  | |- context [(?n <? maxRetries)%nat] => destruct (n <? maxRetries)%nat
  end; reflexivity.
Qed.

(** A job that is polled after a step was polled before it. *)
Lemma step_polling_before :
  forall a w, polling (step w a) = true -> polling w = true.
Proof.
  intros a w. open_world w ph. unfold polling.
  destruct a as [[r|e]| |]; destruct ph;
    cbn -[String.eqb showZ maxRetries Nat.ltb]; congruence.
Qed.

(** A run of [checkStatus] after which the job is still polled has set no
    error. *)
Lemma step_error :
  forall a w,
    polling (step w a) = true ->
    error (ui w) = None -> error (ui (step w a)) = None.
Proof.
  intros a w. open_world w ph. unfold polling.
  destruct a as [[r|e]| |]; destruct ph;
    cbn -[String.eqb showZ maxRetries Nat.ltb]; try congruence.
  unfold checkStatusResume, tryBlock.
  cbn -[String.eqb showZ maxRetries Nat.ltb].
  destruct (status r =? "completed"); [cbn; congruence|].
  destruct (status r =? "failed"); [cbn; congruence|].
  destruct ((status r =? "pending") || (status r =? "processing"));
    [|cbn; congruence].
  match goal with
  | |- context [(?n <? maxRetries)%nat] => destruct (n <? maxRetries)%nat
  end; cbn; congruence.
Qed.

(** Through a visit, [analysisResult] stays [null], and no error is set
    while the job is polled. *)
Lemma visitStep_quiet :
  forall e v,
    analysisResult (ui (world v)) = None
    /\ (polling (world v) = true -> error (ui (world v)) = None) ->
    analysisResult (ui (world (visitStep v e))) = None
    /\ (polling (world (visitStep v e)) = true ->
        error (ui (world (visitStep v e))) = None).
Proof.
  intros e v [A E].
  assert (C : forall a,
             analysisResult (ui (world (closureStep v a))) = None
             /\ (polling (world (closureStep v a)) = true ->
                 error (ui (world (closureStep v a))) = None)).
  { intro a. unfold closureStep. cbn [world]. destruct (onScreen v).
    - split; [apply step_analysisResult, A|].
      intro P. apply step_error; [exact P|].
      apply E, (step_polling_before a), P.
    - split; [exact A|]. intro P. cbn [dropUpdates ui].
      apply E, (step_polling_before a). exact P. }
  destruct e as [reply| |control|item]; cbn [visitStep].
  - apply C.
  - apply C.
  - destruct (rendered control v); [|split; assumption].
    split; reflexivity.
  - destruct (showsScanner (path item)); split; assumption.
Qed.

Lemma visit_quiet :
  forall events v,
    analysisResult (ui (world v)) = None
    /\ (polling (world v) = true -> error (ui (world v)) = None) ->
    analysisResult (ui (world (visit events v))) = None
    /\ (polling (world (visit events v)) = true ->
        error (ui (world (visit events v))) = None).
Proof.
  induction events as [|e events IH]; intros v H; [exact H|].
  rewrite visit_cons. apply IH, visitStep_quiet, H.
Qed.

Lemma rendered_quiet :
  forall c v,
    analysisResult (ui (world v)) = None ->
    error (ui (world v)) = None ->
    rendered c v = false.
Proof.
  intros c v A E. unfold rendered. rewrite A, E.
  destruct c; apply andb_false_r.
Qed.

(** ** Off screen *)

(** Once the instance is unmounted it stays so, and its variables change no
    more. *)
Lemma visitStep_off_screen :
  forall e v,
    onScreen v = false ->
    onScreen (visitStep v e) = false
    /\ ui (world (visitStep v e)) = ui (world v).
Proof.
  intros e v H. destruct e as [reply| |control|item]; cbn [visitStep].
  - unfold closureStep. rewrite H. split; reflexivity.
  - unfold closureStep. rewrite H. split; reflexivity.
  - unfold rendered. rewrite H. cbn [andb]. split; [exact H|reflexivity].
  - destruct (showsScanner (path item)); split;
      try exact H; reflexivity.
Qed.

Lemma visit_off_screen :
  forall events v,
    onScreen v = false ->
    onScreen (visit events v) = false
    /\ ui (world (visit events v)) = ui (world v).
Proof.
  induction events as [|e events IH]; intros v H;
    [split; [exact H|reflexivity]|].
  rewrite visit_cons.
  destruct (visitStep_off_screen e v H) as [O U].
  destruct (IH _ O) as [O' U']. split; [exact O'|congruence].
Qed.

(** C2, as the code has it.  Nothing cancels the poller.  From the moment
    [analyzeImage] has its job and whatever happened since, while the job
    is polled (a request in flight or a timer armed) the page renders none
    of the three controls bound to [resetScanner], and a click on one does
    nothing; [resetScanner] itself touches neither the poller nor the
    store.  Leaving the page by an entry of the drawer unmounts the
    component and cancels nothing: the request or the timer stays, and
    whatever happens next the poller issues the same checks, arms the same
    timers, raises the same toasts and stores the same results as if the
    user had stayed, while the variables of the component are updated no
    more.  In particular an armed timer still fires its check, and a
    'completed' answer still raises its toast and adds its result to the
    history. *)
Theorem C2_abandoning_does_not_cancel :
  forall captured imageData fileName job w0 before after,
    let v :=
      visit before (arrive (analyzeImage captured imageData fileName job w0))
    in
    polling (world v) = true ->
    (forall control,
        rendered control v = false /\ visitStep v (Click control) = v)
    /\ samePolling (resetScanner (world v)) (world v)
    /\ (forall item,
          showsScanner (path item) = false ->
          let left := visitStep v (Navigate item) in
          onScreen left = false
          /\ poller (world left) = poller (world v)
          /\ polling (world left) = true
          /\ sameJob (world (visit after left)) (world (visit after v))
          /\ ui (world (visit after left)) = ui (world v)
          /\ checks (world (visit after left))
             = checks (world (visit after v))
          /\ (phase (poller (world v)) = TimerPending ->
              checks (world (visitStep left TimerElapses))
              = checks (world v) + 1)
          /\ (phase (poller (world v)) = AwaitingReply ->
              forall r,
                status r = "completed" ->
                let done := visitStep left (Settles (Resolved r)) in
                effects (world done)
                = effects (world v)
                  ++ [ToastSuccess "Equipment analysis completed!"]
                /\ List.length (analysisHistory (world done))
                   = S (List.length (analysisHistory (world v)))
                /\ ui (world done) = ui (world v))).
Proof.
  intros captured imageData fileName job w0 before after v Hp.
  assert (Q : analysisResult (ui (world v)) = None
              /\ (polling (world v) = true -> error (ui (world v)) = None)).
  { subst v. apply visit_quiet. cbn. split; [reflexivity|]. reflexivity. }
  destruct Q as [QA QE]. specialize (QE Hp).
  split; [|split].
  - intro control.
    pose proof (rendered_quiet control v QA QE) as R.
    split; [exact R|]. cbn [visitStep]. rewrite R. reflexivity.
  - apply resetScanner_samePolling.
  - intros item Hi left. subst left. cbn [visitStep]. rewrite Hi.
    set (left := {| world := world v; onScreen := false |}).
    assert (S : sameJob (world (visit after left)) (world (visit after v)))
      by (apply visit_sameJob; repeat split).
    split; [reflexivity|]. split; [reflexivity|]. split; [exact Hp|].
    split; [exact S|].
    split; [exact (proj2 (visit_off_screen after left eq_refl))|]. split.
    { destruct S as (_ & Se & _). unfold checks. rewrite Se. reflexivity. }
    split.
    + intro Ht. cbn [visitStep closureStep left world onScreen].
      cbn [step]. rewrite Ht. unfold checks. cbn.
      rewrite filter_app, length_app. cbn. reflexivity.
    + intros Ha r Hr.
      destruct (round_completed (world v) r Ha Hr) as (_ & Ef & Lh & _).
      cbn [visitStep closureStep left world onScreen dropUpdates
           effects analysisHistory ui].
      split; [exact Ef|]. split; [exact Lh|reflexivity].
Qed.

Lemma C2_abandoning_does_not_cancel_witness :
  polling (world scanningVisit) = true
  /\ rendered TryAgain scanningVisit = false
  /\ visitStep scanningVisit (Click TryAgain) = scanningVisit.
Proof.
  split; [reflexivity|].
  exact (proj1 (C2_abandoning_does_not_cancel
                  None "aGVsbG8=" "photo.jpg" "job-1" mounted [] []
                  eq_refl) TryAgain).
Defined.

(** C2, as the claim has it, fails.  The first answer is 'pending' and a
    timer is armed; the user then picks 'Reports' in the drawer, which
    unmounts the scanner.  The timer still fires and a further status check
    leaves; its answer, 'completed', raises the completion toast and adds
    the result to the history. *)
Lemma C2_counterexample_leave_then_check :
  let v1 := visitStep scanningVisit
              (Settles (Resolved (respond "pending" emptyPayload))) in
  let v2 := visitStep v1 (Navigate ReportsItem) in
  let v3 := visit [TimerElapses;
                   Settles (Resolved (respond "completed" onePayload))] v2 in
  polling (world v1) = true
  /\ onScreen v2 = false
  /\ checks (world v2) = 1
  /\ checks (world v3) = 2
  /\ analysisHistory (world v2) = []
  /\ List.length (analysisHistory (world v3)) = 1
  /\ effects (world v3)
     = effects (world v2) ++ [GetAnalysisResult "job-1";
                              ToastSuccess "Equipment analysis completed!"].
Proof.
  cbv zeta.
  repeat match goal with |- _ /\ _ => split end; vm_compute; reflexivity.
Qed.

End ScannerVisitFacts.

(* ================================================================== *)
(** * Properties of the asset store *)

Module AssetStoreFacts.

Import AssetStore.
#[local] Open Scope string_scope.
#[local] Open Scope list_scope.

Lemma store_eta :
  forall s,
    {| assets := assets s; auditLogs := auditLogs s;
       registeredItems := registeredItems s |} = s.
Proof. intros []. reflexivity. Qed.

Lemma find_none_filter :
  forall target (l : list Asset),
    find (fun a => (id a =? target)%Z) l = None ->
    filter (fun a => negb (id a =? target)%Z) l = l.
Proof.
  intros target l. induction l as [|a l IH]; intro H; [reflexivity|].
  cbn in *. destruct (id a =? target)%Z; [discriminate|].
  cbn. rewrite IH by exact H. reflexivity.
Qed.

Lemma find_id_none_iff :
  forall target (l : list Asset),
    find (fun a => (id a =? target)%Z) l = None
    <-> (forall a, In a l -> id a <> target).
Proof.
  intros target l. split.
  - intros H a Ha E.
    pose proof (find_none _ _ H a Ha) as N. cbn in N.
    apply Z.eqb_neq in N. contradiction.
  - intro H. induction l as [|a l IH]; [reflexivity|].
    cbn. destruct (Z.eqb_spec (id a) target) as [E|_].
    + exfalso. apply (H a); [left; reflexivity|exact E].
    + apply IH. intros a' Ha'. apply H. right. exact Ha'.
Qed.

Lemma deleteAsset_assets :
  forall clock target s,
    assets (deleteAsset clock target s)
    = filter (fun a => negb (id a =? target)%Z) (assets s)
    /\ registeredItems (deleteAsset clock target s) = registeredItems s.
Proof.
  intros clock target s. unfold deleteAsset.
  destruct (find _ (assets s)) eqn:F; [split; reflexivity|].
  split; [symmetry; apply find_none_filter, F|reflexivity].
Qed.

(** X9.  [deleteAsset] removes every asset carrying the id and nothing
    else, the others keeping their order; it appends one 'DELETED' audit
    entry, made from the first asset that carried the id; when no asset
    carries the id the store is left as it is, with no audit entry, so that
    deleting twice is deleting once. *)
Theorem X9_deleteAsset_removes_the_id :
  forall clock clock' target s,
    let s' := deleteAsset clock target s in
    assets s' = filter (fun a => negb (id a =? target)%Z) (assets s)
    /\ (forall a, In a (assets s') <-> In a (assets s) /\ id a <> target)
    /\ registeredItems s' = registeredItems s
    /\ ((forall a, In a (assets s) -> id a <> target) -> s' = s)
    /\ (forall first,
          find (fun a => (id a =? target)%Z) (assets s) = Some first ->
          auditLogs s'
          = auditLogs s
            ++ [ {| log_id := now clock;
                    log_asset_tag := asset_tag first;
                    action := "DELETED";
                    timestamp := isoString clock;
                    log_location := location first;
                    log_notes := Some "Asset removed from system" |} ])
    /\ deleteAsset clock' target s' = s'.
Proof.
  intros clock clock' target s s'.
  assert (A : assets s' = filter (fun a => negb (id a =? target)%Z) (assets s)).
  { subst s'. unfold deleteAsset.
    destruct (find _ (assets s)) eqn:F; [reflexivity|].
    symmetry. apply find_none_filter, F. }
  assert (M : forall a, In a (assets s') <-> In a (assets s) /\ id a <> target).
  { intro a. rewrite A, filter_In, negb_true_iff, Z.eqb_neq. tauto. }
  split; [exact A|]. split; [exact M|].
  split; [subst s'; unfold deleteAsset; destruct (find _ (assets s));
          reflexivity|].
  split; [|split].
  - intro H. apply find_id_none_iff in H. subst s'. unfold deleteAsset.
    rewrite H. reflexivity.
  - intros first F. subst s'. unfold deleteAsset. rewrite F. reflexivity.
  - unfold deleteAsset at 1.
    assert (N : find (fun a => (id a =? target)%Z) (assets s') = None).
    { apply find_id_none_iff. intros a Ha. apply M in Ha. tauto. }
    rewrite N. reflexivity.
Qed.

(** X10.  The id of an asset is the clock reading at its registration, and
    nothing makes it unique: two assets added at the same reading share
    their id, and deleting by that id removes both, along with any older
    asset that carried it. *)
Theorem X10_same_clock_same_fate :
  forall clock logClock1 logClock2 delClock d1 d2 s,
    let s2 := addAsset clock logClock2 d2 (addAsset clock logClock1 d1 s) in
    getTotalAssets s2 = getTotalAssets s + 2
    /\ (exists a1 a2,
          assets s2 = assets s ++ [a1; a2]
          /\ id a1 = now clock /\ id a2 = now clock
          /\ asset_tag a1 = d_asset_tag d1 /\ asset_tag a2 = d_asset_tag d2)
    /\ assets (deleteAsset delClock (now clock) s2)
       = filter (fun a => negb (id a =? now clock)%Z) (assets s)
    /\ getTotalAssets (deleteAsset delClock (now clock) s2)
       <= getTotalAssets s.
Proof.
  intros clock logClock1 logClock2 delClock d1 d2 s s2.
  assert (E : exists a1 a2,
             assets s2 = assets s ++ [a1; a2]
             /\ id a1 = now clock /\ id a2 = now clock
             /\ asset_tag a1 = d_asset_tag d1
             /\ asset_tag a2 = d_asset_tag d2).
  { subst s2. cbn. eexists. eexists.
    rewrite <- app_assoc. split; [reflexivity|]. repeat split. }
  assert (D : assets (deleteAsset delClock (now clock) s2)
              = filter (fun a => negb (id a =? now clock)%Z) (assets s)).
  { destruct (deleteAsset_assets delClock (now clock) s2)
      as [-> _].
    destruct E as (a1 & a2 & -> & I1 & I2 & _).
    rewrite filter_app. cbn. rewrite I1, I2, Z.eqb_refl. cbn.
    apply app_nil_r. }
  split; [|split; [exact E|split; [exact D|]]].
  - destruct E as (a1 & a2 & E & _). unfold getTotalAssets.
    rewrite E, length_app. reflexivity.
  - unfold getTotalAssets. rewrite D. apply filter_length_le.
Qed.

Lemma map_update_absent :
  forall target updates (l : list Asset),
    (forall a, In a l -> id a <> target) ->
    map (fun asset => if (id asset =? target)%Z then merge asset updates
                      else asset) l = l.
Proof.
  intros target updates l. induction l as [|a l IH]; intro H; [reflexivity|].
  cbn. destruct (Z.eqb_spec (id a) target) as [E|_].
  - exfalso. apply (H a); [left; reflexivity|exact E].
  - rewrite IH by (intros a' Ha'; apply H; right; exact Ha'). reflexivity.
Qed.

Lemma find_id_map_update :
  forall target updates (l : list Asset),
    u_id updates = None \/ u_id updates = Some target ->
    find (fun a => (id a =? target)%Z)
         (map (fun asset => if (id asset =? target)%Z then merge asset updates
                            else asset) l)
    = option_map (fun a => merge a updates)
                 (find (fun a => (id a =? target)%Z) l).
Proof.
  intros target updates l Hid. induction l as [|a l IH]; [reflexivity|].
  cbn. destruct (Z.eqb_spec (id a) target) as [E|N].
  - cbn. destruct Hid as [Hid|Hid]; rewrite Hid; cbn.
    + rewrite E, Z.eqb_refl. reflexivity.
    + rewrite Z.eqb_refl. reflexivity.
  - apply Z.eqb_neq in N. rewrite N. exact IH.
Qed.

(** An update that carries another id moves every asset away from
    [target]. *)
Lemma find_id_map_renamed :
  forall target updates i (l : list Asset),
    u_id updates = Some i -> i <> target ->
    find (fun a => (id a =? target)%Z)
         (map (fun asset => if (id asset =? target)%Z then merge asset updates
                            else asset) l)
    = None.
Proof.
  intros target updates i l Hid Hi. induction l as [|a l IH]; [reflexivity|].
  cbn. destruct (Z.eqb_spec (id a) target) as [E|N].
  - cbn. rewrite Hid. cbn.
    destruct (Z.eqb_spec i target) as [C|_]; [contradiction|exact IH].
  - apply Z.eqb_neq in N. rewrite N. exact IH.
Qed.

(** X11.  [updateAsset] keeps the number and the order of the assets and
    leaves those with another id as they are; an update that carries no id
    keeps every id.  An update without location, or with an empty one, adds
    no audit entry, and an update for an id that no asset has changes
    nothing.  An update with a non-empty location, for an id that an asset
    has, appends one 'MOVED' entry naming the new location when it carries
    no id or the same id; when it carries another id, the assets are found
    under [target] no more and no entry is written. *)
Theorem X11_updateAsset_effect :
  forall clock target updates s,
    let s' := updateAsset clock target updates s in
    List.length (assets s') = List.length (assets s)
    /\ assets s'
       = map (fun a => if (id a =? target)%Z then merge a updates else a)
             (assets s)
    /\ (u_id updates = None -> map id (assets s') = map id (assets s))
    /\ (truthy (u_location updates) = false -> auditLogs s' = auditLogs s)
    /\ ((forall a, In a (assets s) -> id a <> target) -> s' = s)
    /\ (u_id updates = None \/ u_id updates = Some target ->
        truthy (u_location updates) = true ->
        forall first,
          find (fun a => (id a =? target)%Z) (assets s) = Some first ->
          exists entry,
            auditLogs s' = auditLogs s ++ [entry]
            /\ action entry = "MOVED"
            /\ log_asset_tag entry
               = orElse (u_asset_tag updates) (asset_tag first)
            /\ Some (log_location entry) = u_location updates)
    /\ (forall i,
          u_id updates = Some i -> i <> target ->
          auditLogs s' = auditLogs s).
Proof.
  intros clock target updates s s'.
  assert (A : assets s'
              = map (fun a => if (id a =? target)%Z then merge a updates
                              else a) (assets s)).
  { subst s'. unfold updateAsset.
    destruct (truthy (u_location updates)); [|reflexivity].
    cbn [assets setAssets]. destruct (find _ _); reflexivity. }
  split; [rewrite A; apply length_map|]. split; [exact A|].
  split; [|split; [|split; [|split]]].
  - intro Hid. rewrite A, map_map. apply map_ext. intro a.
    destruct (id a =? target)%Z; [|reflexivity]. cbn. rewrite Hid. reflexivity.
  - intro Hl. subst s'. unfold updateAsset. rewrite Hl. reflexivity.
  - intro Hno. subst s'. unfold updateAsset.
    rewrite (map_update_absent target updates (assets s) Hno).
    unfold setAssets. rewrite store_eta.
    apply find_id_none_iff in Hno. rewrite Hno.
    destruct (truthy (u_location updates)); reflexivity.
  - intros Hid Hl first F. subst s'. unfold updateAsset. rewrite Hl.
    cbn [assets setAssets].
    rewrite (find_id_map_update target updates (assets s) Hid), F.
    cbn [option_map]. eexists. split; [reflexivity|]. cbn.
    split; [reflexivity|]. split; [reflexivity|].
    destruct (u_location updates); [reflexivity|discriminate Hl].
  - intros i Hid Hi. subst s'. unfold updateAsset.
    destruct (truthy (u_location updates)); [|reflexivity].
    cbn [assets setAssets].
    rewrite (find_id_map_renamed target updates i (assets s) Hid Hi).
    reflexivity.
Qed.

Lemma filter_status_partition :
  forall l : list Asset,
    Forall knownStatus l ->
    List.length (filter (fun a => status a =? "Active") l)
    + List.length (filter (fun a => status a =? "Missing") l)
    + List.length (filter (fun a => status a =? "Out of Service") l)
    = List.length l.
Proof.
  induction 1 as [|a l Ha _ IH]; [reflexivity|].
  cbn [filter]. destruct Ha as [E|[E|E]]; rewrite E; cbn; lia.
Qed.

Lemma percentage_bounds :
  forall part total,
    part <= total -> 0 < total ->
    exists p, percentage part total = JsNumber.of_Z p /\ (0 <= p <= 100)%Z.
Proof.
  intros part total Hle Hpos. unfold percentage.
  assert (Ht : (1 <= inject_Z (Z.of_nat total))%Q)
    by (rewrite <- (Zle_Qle 1); lia).
  assert (Hp : (0 <= inject_Z (Z.of_nat part))%Q)
    by (rewrite <- (Zle_Qle 0); lia).
  assert (Hpt : (inject_Z (Z.of_nat part) <= inject_Z (Z.of_nat total))%Q)
    by (rewrite <- Zle_Qle; lia).
  assert (D : Double.within 0 1
                (Double.div (JsNumber.of_Z (Z.of_nat part))
                            (JsNumber.of_Z (Z.of_nat total)))).
  { unfold Double.div, JsNumber.of_Z. cbn [JsArith.div].
    assert (NZ : JsArith.isZero (inject_Z (Z.of_nat total)) = false).
    { unfold JsArith.isZero.
      destruct (Qeq_bool (inject_Z (Z.of_nat total)) 0) eqn:E;
        [|reflexivity].
      apply Qeq_bool_iff in E. exfalso. Lqa.lra. }
    rewrite NZ. cbn [Double.lift].
    apply (DoubleFacts.round_within _ 0 1); try (vm_compute; congruence).
    split.
    - apply Qle_shift_div_l; [Lqa.lra|]. rewrite Qmult_0_l. exact Hp.
    - apply Qle_shift_div_r; [Lqa.lra|]. rewrite Qmult_1_l. exact Hpt. }
  assert (M : Double.within 0 100
                (Double.mul (Double.div (JsNumber.of_Z (Z.of_nat part))
                                        (JsNumber.of_Z (Z.of_nat total)))
                            (JsNumber.of_Z 100))).
  { destruct D as (q & -> & Q).
    unfold Double.mul, JsNumber.of_Z, JsArith.mul. cbn [Double.lift].
    apply (DoubleFacts.round_within _ 0 100); try (vm_compute; congruence).
    change (inject_Z 100) with 100%Q. split; Lqa.lra. }
  destruct (DoubleFacts.Math_round_within _ _ _ M) as (z & E & Z0 & Z1).
  exists z. split; [exact E|].
  change (Qfloor (0 + (1 # 2))) with 0%Z in Z0.
  change (Qfloor (100 + (1 # 2))) with 100%Z in Z1. lia.
Qed.

(** The rounding of the quotient shows: 23 assets of 40 are 57.5 percent,
    computed as 57.49999999999999, and reported as 57. *)
Example percentage_23_of_40 : percentage 23 40 = JsNumber.of_Z 57.
Proof. vm_compute. reflexivity. Qed.

(** X12.  In the statistics of the reports page no count exceeds the
    total, both percentages are integers between 0 and 100 and are 0 for an
    empty store, and when every asset has one of the three statuses of its
    type, the active, missing and out-of-service counts add up to the
    total. *)
Theorem X12_stats_add_up :
  forall s,
    let st := stats s in
    total st = List.length (assets s)
    /\ active st <= total st /\ missing st <= total st
    /\ needsRepair st <= total st /\ outOfService st <= total st
    /\ (exists p, activePercentage st = JsNumber.of_Z p /\ (0 <= p <= 100)%Z)
    /\ (exists p, missingPercentage st = JsNumber.of_Z p
                  /\ (0 <= p <= 100)%Z)
    /\ (assets s = [] -> activePercentage st = JsNumber.of_Z 0
                         /\ missingPercentage st = JsNumber.of_Z 0)
    /\ (Forall knownStatus (assets s) ->
        active st + missing st + outOfService st = total st).
Proof.
  intros s st. subst st. unfold stats.
  cbn [total active missing needsRepair outOfService activePercentage
       missingPercentage].
  unfold getTotalAssets, getActiveAssets, getMissingAssets,
    getAssetsNeedingRepair.
  pose proof (filter_length_le (fun a => status a =? "Active") (assets s))
    as La.
  pose proof (filter_length_le (fun a => status a =? "Missing") (assets s))
    as Lm.
  pose proof (filter_length_le (fun a => condition a =? "Needs Repair")
                               (assets s)) as Lr.
  pose proof (filter_length_le (fun a => status a =? "Out of Service")
                               (assets s)) as Lo.
  split; [reflexivity|]. split; [exact La|]. split; [exact Lm|].
  split; [exact Lr|]. split; [exact Lo|].
  assert (P : forall part,
             part <= List.length (assets s) ->
             exists p,
               (if (0 <? List.length (assets s))%nat
                then percentage part (List.length (assets s))
                else JsNumber.of_Z 0) = JsNumber.of_Z p
               /\ (0 <= p <= 100)%Z).
  { intros part Hle.
    destruct (Nat.ltb_spec 0 (List.length (assets s))) as [Hpos|_].
    - apply percentage_bounds; assumption.
    - exists 0%Z. split; [reflexivity|lia]. }
  split; [apply P, La|]. split; [apply P, Lm|]. split.
  - intros ->. split; reflexivity.
  - apply filter_status_partition.
Qed.

Lemma existsb_eqb_In :
  forall (k : string) (l : list string),
    existsb (String.eqb k) l = true <-> In k l.
Proof.
  intros k l. rewrite existsb_exists. split.
  - intros (x & Hx & E). apply String.eqb_eq in E. subst. exact Hx.
  - intro H. exists k. split; [exact H|apply String.eqb_refl].
Qed.

Lemma filter_neq_absent :
  forall (k : string) (l : list string),
    ~ In k l -> filter (fun x => negb (x =? k)) l = l.
Proof.
  intros k l. induction l as [|x l IH]; intro H; [reflexivity|].
  cbn. destruct (String.eqb_spec x k) as [E|_].
  - exfalso. apply H. left. exact E.
  - cbn. rewrite IH by (intro C; apply H; right; exact C). reflexivity.
Qed.

(** X13.  The registered items behave as a set: adding a key makes it a
    member and adding it again changes nothing; removing a key makes it a
    non-member; neither touches the membership of another key nor creates a
    duplicate; and removing a key that has just been added to a set that did
    not have it gives the set back. *)
Theorem X13_registered_items_are_a_set :
  forall k s,
    In k (registeredItems (addRegisteredItem k s))
    /\ addRegisteredItem k (addRegisteredItem k s) = addRegisteredItem k s
    /\ ~ In k (registeredItems (removeRegisteredItem k s))
    /\ (forall k', k' <> k ->
          (In k' (registeredItems (addRegisteredItem k s))
           <-> In k' (registeredItems s))
          /\ (In k' (registeredItems (removeRegisteredItem k s))
              <-> In k' (registeredItems s)))
    /\ (NoDup (registeredItems s) ->
        NoDup (registeredItems (addRegisteredItem k s))
        /\ NoDup (registeredItems (removeRegisteredItem k s)))
    /\ (~ In k (registeredItems s) ->
        removeRegisteredItem k (addRegisteredItem k s) = s)
    /\ assets (addRegisteredItem k s) = assets s
    /\ assets (removeRegisteredItem k s) = assets s.
Proof.
  intros k s. unfold addRegisteredItem, removeRegisteredItem.
  cbn [registeredItems setRegisteredItems assets].
  destruct (existsb (String.eqb k) (registeredItems s)) eqn:E.
  - pose proof (proj1 (existsb_eqb_In k _) E) as Hin.
    split; [exact Hin|]. split.
    { unfold setRegisteredItems. cbn. rewrite E. reflexivity. }
    split.
    { rewrite filter_In, negb_true_iff, String.eqb_neq. tauto. }
    split.
    { intros k' Hk. split; [tauto|].
      rewrite filter_In, negb_true_iff, String.eqb_neq. tauto. }
    split.
    { intro N. split; [exact N|apply NoDup_filter, N]. }
    split; [intro C; contradiction|]. split; reflexivity.
  - assert (Hnot : ~ In k (registeredItems s)).
    { intro C. apply existsb_eqb_In in C. congruence. }
    split; [apply in_or_app; right; left; reflexivity|]. split.
    { unfold setRegisteredItems. cbn.
      assert (E' : existsb (String.eqb k) (registeredItems s ++ [k]) = true).
      { apply existsb_eqb_In, in_or_app. right. left. reflexivity. }
      rewrite E'. reflexivity. }
    split.
    { rewrite filter_In, negb_true_iff, String.eqb_neq. tauto. }
    split.
    { intros k' Hk. split.
      - rewrite in_app_iff. cbn. intuition congruence.
      - rewrite filter_In, negb_true_iff, String.eqb_neq. tauto. }
    split.
    { intro N. split; [|apply NoDup_filter, N].
      apply NoDup_app; [exact N|repeat constructor; intros []|].
      intros x Hx [Hk|[]]. subst. contradiction. }
    split; [|split; reflexivity].
    intros _. unfold setRegisteredItems. cbn.
    rewrite filter_app, (filter_neq_absent k _ Hnot). cbn.
    rewrite String.eqb_refl. cbn. rewrite app_nil_r. apply store_eta.
Qed.

Section CaseFoldingFacts.

Variable toLowerCase : string -> string.
Variable trim : string -> string.

Lemma getAssetByTag_none :
  forall tag s,
    getAssetByTag toLowerCase tag s = None
    <-> ~ In (toLowerCase tag) (foldedTags toLowerCase s).
Proof.
  intros tag s. unfold getAssetByTag, foldedTags.
  induction (assets s) as [|a l IH]; cbn.
  - tauto.
  - destruct (String.eqb_spec (toLowerCase (asset_tag a)) (toLowerCase tag))
      as [E|N].
    + split; [discriminate|]. intro C. exfalso. apply C. left. exact E.
    + rewrite IH. tauto.
Qed.

(** X14.  The registration form keeps the tags of the store distinct up to
    case: [handleSubmit] adds an asset only when the form is valid and no
    asset has the tag in any case, and then it adds exactly that one asset,
    at the end, with its 'REGISTERED' audit entry; otherwise it leaves the
    store as it is. *)
Theorem X14_handleSubmit_keeps_tags_distinct :
  forall clock logClock formData s,
    let s' := handleSubmit toLowerCase trim clock logClock formData s in
    (NoDup (foldedTags toLowerCase s) -> NoDup (foldedTags toLowerCase s'))
    /\ (s' = s
        \/ (validateForm trim formData = true
            /\ ~ In (toLowerCase (f_asset_tag formData))
                    (foldedTags toLowerCase s)
            /\ (exists a,
                  assets s' = assets s ++ [a]
                  /\ asset_tag a = f_asset_tag formData
                  /\ id a = now clock)
            /\ (exists entry,
                  auditLogs s' = auditLogs s ++ [entry]
                  /\ action entry = "REGISTERED"
                  /\ log_asset_tag entry = f_asset_tag formData)))
    /\ (validateForm trim formData = false -> s' = s)
    /\ (In (toLowerCase (f_asset_tag formData)) (foldedTags toLowerCase s) ->
        s' = s).
Proof.
  intros clock logClock formData s s'. subst s'. unfold handleSubmit.
  destruct (validateForm trim formData) eqn:V; cbn [negb].
  2:{ split; [auto|]. split; [left; reflexivity|]. split; reflexivity. }
  destruct (getAssetByTag toLowerCase (f_asset_tag formData) s) eqn:G.
  - split; [auto|]. split; [left; reflexivity|]. split; reflexivity.
  - pose proof (proj1 (getAssetByTag_none _ _) G) as Hnot.
    split; [|split; [right|split; [discriminate|intro C; contradiction]]].
    + intro N. unfold foldedTags. cbn. rewrite map_app. cbn.
      apply NoDup_app; [exact N|repeat constructor; intros []|].
      intros x Hx [Hk|[]]. subst. contradiction.
    + split; [reflexivity|]. split; [exact Hnot|]. split.
      * eexists. split; [reflexivity|]. split; reflexivity.
      * eexists. split; [reflexivity|]. split; reflexivity.
Qed.

(** X15.  Looking an asset up by tag after adding it: [getAssetByTag] gives
    the first asset whose tag matches up to case, so the asset just added is
    found when no earlier asset matches, and is shadowed by the earlier one
    otherwise, [addAsset] itself checking nothing. *)
Theorem X15_lookup_after_addAsset :
  forall clock logClock assetData tag s,
    toLowerCase tag = toLowerCase (d_asset_tag assetData) ->
    let s' := addAsset clock logClock assetData s in
    (forall earlier,
        getAssetByTag toLowerCase tag s = Some earlier ->
        getAssetByTag toLowerCase tag s' = Some earlier)
    /\ (getAssetByTag toLowerCase tag s = None ->
        exists a,
          getAssetByTag toLowerCase tag s' = Some a
          /\ asset_tag a = d_asset_tag assetData
          /\ id a = now clock
          /\ location a = d_location assetData)
    /\ (exists a, getAssetByTag toLowerCase tag s' = Some a
                  /\ toLowerCase (asset_tag a) = toLowerCase tag).
Proof.
  intros clock logClock assetData tag s Htag s'.
  subst s'. unfold getAssetByTag. cbn [assets addAsset addAuditLog setAssets].
  set (p := fun asset => toLowerCase (asset_tag asset) =? toLowerCase tag).
  assert (Hnew : forall a, asset_tag a = d_asset_tag assetData -> p a = true).
  { intros a Ha. subst p. cbn. rewrite Ha, Htag. apply String.eqb_refl. }
  assert (Happ : forall l (x : Asset),
             find p (l ++ [x])
             = match find p l with
               | Some a => Some a
               | None => if p x then Some x else None
               end).
  { intros l x. induction l as [|a l IH]; cbn.
    - destruct (p x); reflexivity.
    - destruct (p a); [reflexivity|exact IH]. }
  rewrite Happ. rewrite Hnew by reflexivity.
  split; [intros earlier ->; reflexivity|]. split.
  - intros ->. eexists. split; [reflexivity|]. repeat split.
  - destruct (find p (assets s)) as [a|] eqn:F.
    + exists a. split; [reflexivity|].
      apply find_some in F. destruct F as [_ F]. subst p. cbn in F.
      apply String.eqb_eq in F. exact F.
    + eexists. split; [reflexivity|]. cbn. symmetry. exact Htag.
Qed.

End CaseFoldingFacts.

Lemma X15_lookup_after_addAsset_witness :
  exists a,
    getAssetByTag (fun x => x) "DB-001"
      (addAsset {| now := 1700000000000; isoString := "2023-11-14" |}
                {| now := 1700000000001; isoString := "2023-11-14" |}
                (sampleData "DB-001") initialStore) = Some a
    /\ asset_tag a = "DB-001".
Proof.
  destruct (proj1 (proj2 (X15_lookup_after_addAsset (fun x => x)
              {| now := 1700000000000; isoString := "2023-11-14" |}
              {| now := 1700000000001; isoString := "2023-11-14" |}
              (sampleData "DB-001") "DB-001" initialStore eq_refl))
              eq_refl) as (a & Ha & Ht & _).
  exists a. split; [exact Ha|exact Ht].
Defined.

End AssetStoreFacts.

(* ================================================================== *)
(** * Properties of the sharpening filter and of the adjustments *)

Module ImageEnhanceFacts.

Import JsNumber ImageAnalysisUtils ImageEnhance ImageFacts.
#[local] Open Scope Z_scope.

(** ** Writes *)

Lemma length_update :
  forall i v l, List.length (update i v l) = List.length l.
Proof.
  intros i v l. revert i. induction l as [|h t IH]; intros [|i]; cbn;
    try reflexivity. rewrite IH. reflexivity.
Qed.

Lemma length_write :
  forall l i v, List.length (write l i v) = List.length l.
Proof.
  intros l i v. unfold write. destruct (i <? 0); [reflexivity|].
  apply length_update.
Qed.

Lemma nth_update :
  forall i j v l,
    nth i (update j v l) 0
    = if ((i =? j)%nat && (j <? List.length l)%nat)%bool then v
      else nth i l 0.
Proof.
  intros i j v l. revert i j. induction l as [|h t IH]; intros i j.
  - cbn. destruct i, j; cbn; try reflexivity.
    rewrite andb_false_r. reflexivity.
  - destruct j as [|j]; destruct i as [|i]; cbn [update nth List.length];
      try reflexivity.
    rewrite IH. reflexivity.
Qed.

Lemma nth_write :
  forall (i : nat) j v l,
    nth i (write l j v) 0
    = if ((j =? Z.of_nat i) && (Z.of_nat i <? len l))%bool then v
      else nth i l 0.
Proof.
  intros i j v l. unfold write, len.
  destruct (Z.ltb_spec j 0) as [Hj|Hj].
  - destruct (Z.eqb_spec j (Z.of_nat i)); [lia|reflexivity].
  - rewrite nth_update.
    destruct (Nat.eqb_spec i (Z.to_nat j)) as [E|N];
      destruct (Z.eqb_spec j (Z.of_nat i)) as [E'|N']; try lia; cbn [andb];
      [|reflexivity].
    destruct (Nat.ltb_spec (Z.to_nat j) (List.length l));
      destruct (Z.ltb_spec (Z.of_nat i) (Z.of_nat (List.length l)));
      try lia; reflexivity.
Qed.

(** A sequence of writes whose values at an index agree: the index holds
    that value if one of the writes hits it, and its old value otherwise. *)
Lemma nth_fold_write :
  forall (T : Type) (idx val : T -> Z) (ts : list T) (data : list Z)
         (i : nat) (V : Z),
    (forall t, In t ts -> idx t = Z.of_nat i -> val t = V) ->
    nth i (fold_left (fun nd t => write nd (idx t) (val t)) ts data) 0
    = if (existsb (fun t => idx t =? Z.of_nat i) ts
          && (Z.of_nat i <? len data))%bool
      then V else nth i data 0.
Proof.
  intros T idx val ts. induction ts as [|t ts IH]; intros data i V H.
  - reflexivity.
  - cbn [fold_left existsb].
    rewrite (IH (write data (idx t) (val t)) i V)
      by (intros t' Ht'; apply H; right; exact Ht').
    unfold len at 1. rewrite length_write. fold (len data).
    rewrite nth_write.
    destruct (existsb (fun t0 => idx t0 =? Z.of_nat i) ts);
      destruct (Z.ltb_spec (Z.of_nat i) (len data));
      destruct (Z.eqb_spec (idx t) (Z.of_nat i)) as [E|N];
      cbn [andb orb]; try reflexivity.
    apply H; [left; reflexivity|exact E].
Qed.

Lemma length_fold_write :
  forall (T : Type) (idx val : T -> Z) (ts : list T) (data : list Z),
    List.length (fold_left (fun nd t => write nd (idx t) (val t)) ts data)
    = List.length data.
Proof.
  intros T idx val ts. induction ts as [|t ts IH]; intro data;
    [reflexivity|].
  cbn [fold_left]. rewrite IH. apply length_write.
Qed.

Lemma fold_left_flat_map :
  forall (A B C : Type) (f : A -> C -> A) (g : B -> list C) (l : list B)
         (a : A),
    fold_left f (flat_map g l) a
    = fold_left (fun a x => fold_left f (g x) a) l a.
Proof.
  intros A B C f g l. induction l as [|x l IH]; intro a; [reflexivity|].
  cbn [flat_map fold_left]. rewrite fold_left_app. apply IH.
Qed.

Lemma fold_left_map_list :
  forall (A B C : Type) (f : A -> C -> A) (h : B -> C) (l : list B) (a : A),
    fold_left f (map h l) a = fold_left (fun a x => f a (h x)) l a.
Proof.
  intros A B C f h l. induction l as [|x l IH]; intro a; [reflexivity|].
  cbn [map fold_left]. apply IH.
Qed.

Lemma fold_left_ext_list :
  forall (A B : Type) (f g : A -> B -> A) (l : list B) (a : A),
    (forall a x, f a x = g a x) -> fold_left f l a = fold_left g l a.
Proof.
  intros A B f g l. induction l as [|x l IH]; intros a H; [reflexivity|].
  cbn [fold_left]. rewrite H. apply IH, H.
Qed.

(** ** The sharpening filter as a list of writes *)

Lemma applySharpenFilter_writes :
  forall data w h,
    applySharpenFilter data w h
    = fold_left
        (fun nd t =>
           let '(x, y, c) := t in
           write nd ((y * w + x) * 4 + c)
                 (clampStore (sharpenSum data w x y c)))
        (interiorSamples w h) data.
Proof.
  intros data w h. unfold applySharpenFilter, interiorSamples.
  rewrite fold_left_flat_map. apply fold_left_ext_list. intros nd y.
  rewrite fold_left_flat_map. apply fold_left_ext_list. intros nd' x.
  rewrite fold_left_map_list. reflexivity.
Qed.

Lemma countUp_kernel : countUp (-1) 2 1 = [-1; 0; 1].
Proof. reflexivity. Qed.

Lemma countUp_channels : countUp 0 3 1 = [0; 1; 2].
Proof. reflexivity. Qed.

Lemma readZ_sample :
  forall data w h x y c,
    len data = 4 * w * h ->
    0 <= x < w -> 0 <= y < h -> 0 <= c < 4 ->
    readZ data ((y * w + x) * 4 + c) = Some (sample data w x y c).
Proof.
  intros data w h x y c Hlen Hx Hy Hc.
  assert (B : 0 <= y * w + x < w * h) by nia.
  unfold readZ, sample.
  destruct (Z.ltb_spec ((y * w + x) * 4 + c) 0) as [C|_]; [lia|].
  apply nth_error_nth'. unfold len in Hlen. lia.
Qed.

Lemma sharpenSum_interior :
  forall data w h x y c,
    len data = 4 * w * h ->
    1 <= x < w - 1 -> 1 <= y < h - 1 -> 0 <= c < 4 ->
    clampStore (sharpenSum data w x y c) = sharpened data w x y c.
Proof.
  intros data w h x y c Hlen Hx Hy Hc.
  unfold sharpenSum. rewrite countUp_kernel.
  cbn [fold_left].
  rewrite !(readZ_sample data w h) by (assumption || lia).
  repeat match goal with
    | |- context [readZ sharpenKernel ?e] =>
        let v := eval vm_compute in (readZ sharpenKernel e) in
        change (readZ sharpenKernel e) with v
    end.
  cbn [clampStore]. unfold sharpened, clampByte.
  replace (x + -1) with (x - 1) by lia.
  replace (y + -1) with (y - 1) by lia.
  replace (x + 0) with x by lia. replace (y + 0) with y by lia.
  f_equal. f_equal. ring.
Qed.

Lemma interiorSamples_spec :
  forall w h x y c,
    In (x, y, c) (interiorSamples w h)
    <-> 1 <= x < w - 1 /\ 1 <= y < h - 1 /\ 0 <= c < 3.
Proof.
  intros w h x y c. unfold interiorSamples.
  rewrite in_flat_map. split.
  - intros (y' & Hy' & H). apply in_flat_map in H.
    destruct H as (x' & Hx' & H). apply in_map_iff in H.
    destruct H as (c' & E & Hc'). inversion E; subst.
    apply In_countUp_1 in Hy'. apply In_countUp_1 in Hx'.
    apply In_countUp_1 in Hc'. lia.
  - intros (Hx & Hy & Hc). exists y. split; [apply In_countUp_1; lia|].
    apply in_flat_map. exists x. split; [apply In_countUp_1; lia|].
    apply (in_map (fun c0 => (x, y, c0))). apply In_countUp_1. lia.
Qed.

Lemma sample_index :
  forall w x y c x' y' c',
    0 <= x < w -> 0 <= x' < w -> 0 <= c < 4 -> 0 <= c' < 4 ->
    (y' * w + x') * 4 + c' = (y * w + x) * 4 + c ->
    x' = x /\ y' = y /\ c' = c.
Proof.
  intros w x y c x' y' c' Hx Hx' Hc Hc' E.
  assert (Ec : c' = c) by lia. subst c'.
  assert (Ep : y' * w + x' = y * w + x) by lia.
  assert (Ey : y' = y) by nia. subst y'. lia.
Qed.

Lemma applySharpenFilter_samples :
  forall data w h,
    len data = 4 * w * h ->
    let result := applySharpenFilter data w h in
    List.length result = List.length data
    /\ (forall x y c,
          1 <= x < w - 1 -> 1 <= y < h - 1 -> 0 <= c < 3 ->
          sample result w x y c = sharpened data w x y c)
    /\ (forall x y c,
          0 <= x < w -> 0 <= y < h -> 0 <= c < 4 ->
          x = 0 \/ x = w - 1 \/ y = 0 \/ y = h - 1 \/ c = 3 ->
          sample result w x y c = sample data w x y c).
Proof.
  intros data w h Hlen result. subst result.
  rewrite applySharpenFilter_writes.
  set (idx := fun t : Z * Z * Z => let '(x, y, c) := t in (y * w + x) * 4 + c).
  set (val := fun t : Z * Z * Z =>
                let '(x, y, c) := t in
                clampStore (sharpenSum data w x y c)).
  assert (F : forall nd,
             fold_left (fun nd t => let '(x, y, c) := t in
                                    write nd ((y * w + x) * 4 + c)
                                          (clampStore (sharpenSum data w x y c)))
                       (interiorSamples w h) nd
             = fold_left (fun nd t => write nd (idx t) (val t))
                         (interiorSamples w h) nd).
  { intro nd. apply fold_left_ext_list. intros a [[x y] c]. reflexivity. }
  rewrite F. clear F.
  split; [apply length_fold_write|]. split.
  - intros x y c Hx Hy Hc. unfold sample at 1.
    assert (B : 0 <= y * w + x < w * h) by nia.
    rewrite (nth_fold_write _ idx val _ data _ (sharpened data w x y c)).
    + rewrite Z2Nat.id by lia.
      assert (E : existsb (fun t => idx t =? (y * w + x) * 4 + c)
                          (interiorSamples w h) = true).
      { apply existsb_exists. exists (x, y, c).
        split; [apply interiorSamples_spec; lia|]. apply Z.eqb_refl. }
      rewrite E. destruct (Z.ltb_spec ((y * w + x) * 4 + c) (len data));
        [reflexivity|lia].
    + intros [[x' y'] c'] Ht Ei. rewrite Z2Nat.id in Ei by lia.
      apply interiorSamples_spec in Ht. cbn in Ei.
      destruct (sample_index w x y c x' y' c') as (-> & -> & ->); try lia.
      cbn. apply (sharpenSum_interior data w h); lia.
  - intros x y c Hx Hy Hc Hborder. unfold sample.
    assert (B : 0 <= y * w + x < w * h) by nia.
    rewrite (nth_fold_write _ idx val _ data _ 0).
    + rewrite Z2Nat.id by lia.
      assert (E : existsb (fun t => idx t =? (y * w + x) * 4 + c)
                          (interiorSamples w h) = false).
      { apply not_true_iff_false. intro C. apply existsb_exists in C.
        destruct C as ([[x' y'] c'] & Ht & Ei). apply Z.eqb_eq in Ei.
        apply interiorSamples_spec in Ht. cbn in Ei.
        destruct (sample_index w x y c x' y' c') as (-> & -> & ->); lia. }
      rewrite E. reflexivity.
    + intros [[x' y'] c'] Ht Ei. rewrite Z2Nat.id in Ei by lia.
      apply interiorSamples_spec in Ht. cbn in Ei.
      destruct (sample_index w x y c x' y' c') as (-> & -> & ->); lia.
Qed.

(** X16.  The sharpening filter keeps the size of the buffer and rewrites
    the colour samples of the pixels that are not on the border, and only
    those: each becomes five times its old value minus its four direct
    neighbours of the same channel, brought into the range 0..255, every
    value being read from the image as it was before the filter.  The alpha
    samples and the pixels of the border are left as they are. *)
Theorem X16_sharpen_filter_samples :
  forall data w h,
    len data = 4 * w * h ->
    let result := applySharpenFilter data w h in
    List.length result = List.length data
    /\ (forall x y c,
          1 <= x < w - 1 -> 1 <= y < h - 1 -> 0 <= c < 3 ->
          sample result w x y c = sharpened data w x y c)
    /\ (forall x y c,
          0 <= x < w -> 0 <= y < h -> 0 <= c < 4 ->
          x = 0 \/ x = w - 1 \/ y = 0 \/ y = h - 1 \/ c = 3 ->
          sample result w x y c = sample data w x y c).
Proof. exact applySharpenFilter_samples. Qed.

Lemma X16_sharpen_filter_samples_witness :
  len sample3x3 = 4 * 3 * 3
  /\ sample (applySharpenFilter sample3x3 3 3) 3 1 1 0
     = sharpened sample3x3 3 1 1 0.
Proof.
  split; [reflexivity|].
  exact (proj1 (proj2 (X16_sharpen_filter_samples sample3x3 3 3 eq_refl))
           1 1 0 ltac:(lia) ltac:(lia) ltac:(lia)).
Defined.

(** ** Samples stay bytes *)

Lemma clamped_update :
  forall i v l, 0 <= v <= 255 -> clamped l -> clamped (update i v l).
Proof.
  intros i v l Hv. revert i. unfold clamped.
  induction l as [|h t IH]; intros i Hl; [destruct i; constructor|].
  inversion Hl; subst. destruct i as [|i]; cbn; constructor; auto.
Qed.

Lemma clamped_write :
  forall l i v, 0 <= v <= 255 -> clamped l -> clamped (write l i v).
Proof.
  intros l i v Hv Hl. unfold write. destruct (i <? 0); [exact Hl|].
  apply clamped_update; assumption.
Qed.

Lemma clampStore_range : forall sum, 0 <= clampStore sum <= 255.
Proof. intros [s|]; cbn; lia. Qed.

Lemma toUint8Clamp_range : forall a, 0 <= JsArith.toUint8Clamp a <= 255.
Proof.
  intros [| |q|]; cbn; try lia.
  destruct (Qle_bool q 0) eqn:E0; [lia|].
  destruct (Qle_bool 255 q) eqn:E255; [lia|].
  apply not_true_iff_false in E0, E255.
  rewrite Qle_bool_iff in E0, E255.
  apply Qnot_le_lt in E0, E255.
  assert (F0 : 0 <= Qfloor q).
  { change 0 with (Qfloor 0). apply Qfloor_resp_le, Qlt_le_weak, E0. }
  assert (F1 : Qfloor q < 255).
  { rewrite Zlt_Qlt. eapply Qle_lt_trans; [apply Qfloor_le|exact E255]. }
  destruct (q ?= inject_Z (Qfloor q) + (1 # 2))%Q;
    [destruct (Z.even (Qfloor q))|..]; lia.
Qed.

Lemma clamped_fold_write :
  forall (T : Type) (idx val : T -> Z) (ts : list T) (data : list Z),
    (forall t, 0 <= val t <= 255) ->
    clamped data ->
    clamped (fold_left (fun nd t => write nd (idx t) (val t)) ts data).
Proof.
  intros T idx val ts. induction ts as [|t ts IH]; intros data Hv Hd;
    [exact Hd|].
  cbn [fold_left]. apply IH; [exact Hv|]. apply clamped_write; auto.
Qed.

Lemma clamped_applySharpenFilter :
  forall data w h, clamped data -> clamped (applySharpenFilter data w h).
Proof.
  intros data w h Hd. rewrite applySharpenFilter_writes.
  rewrite (fold_left_ext_list _ _ _
             (fun nd t =>
                write nd ((fun t : Z * Z * Z =>
                             let '(x, y, c) := t in (y * w + x) * 4 + c) t)
                      ((fun t : Z * Z * Z =>
                          let '(x, y, c) := t in
                          clampStore (sharpenSum data w x y c)) t)))
    by (intros a [[x y] c]; reflexivity).
  apply clamped_fold_write; [|exact Hd].
  intros [[x y] c]. apply clampStore_range.
Qed.

Lemma length_applySharpenFilter :
  forall data w h,
    List.length (applySharpenFilter data w h) = List.length data.
Proof.
  intros data w h. rewrite applySharpenFilter_writes.
  rewrite (fold_left_ext_list _ _ _
             (fun nd t =>
                write nd ((fun t : Z * Z * Z =>
                             let '(x, y, c) := t in (y * w + x) * 4 + c) t)
                      ((fun t : Z * Z * Z =>
                          let '(x, y, c) := t in
                          clampStore (sharpenSum data w x y c)) t)))
    by (intros a [[x y] c]; reflexivity).
  apply length_fold_write.
Qed.

Lemma adjustAt_keeps :
  forall f data i,
    List.length (adjustAt f data i) = List.length data
    /\ (clamped data -> clamped (adjustAt f data i)).
Proof.
  intros f data i. unfold adjustAt. split; [apply length_write|].
  apply clamped_write, toUint8Clamp_range.
Qed.

Lemma adjustColours_keeps :
  forall f data,
    List.length (adjustColours f data) = List.length data
    /\ (clamped data -> clamped (adjustColours f data)).
Proof.
  intros f data. unfold adjustColours.
  generalize (countUp 0 (len data) 4). intro idxs.
  revert data. induction idxs as [|i idxs IH]; intro data; [split; auto|].
  cbn [fold_left].
  destruct (adjustAt_keeps f data i) as [L1 C1].
  destruct (adjustAt_keeps f (adjustAt f data i) (i + 1)) as [L2 C2].
  destruct (adjustAt_keeps f (adjustAt f (adjustAt f data i) (i + 1)) (i + 2))
    as [L3 C3].
  destruct (IH (adjustAt f (adjustAt f (adjustAt f data i) (i + 1)) (i + 2)))
    as [L C].
  split; [rewrite L, L3, L2, L1; reflexivity|auto].
Qed.

(** X17.  Whatever the options, a number, [NaN] or an infinity for the
    brightness and the contrast, sharpening or not, and whatever the size of
    the image, [enhanceImage] gives back a canvas of the same dimensions with
    as many samples as before, each still in the range 0..255; it throws only
    when the canvas has no 2D context. *)
Theorem X17_enhanceImage_keeps_size_and_range :
  forall canvas options,
    (canvasImageData canvas = None ->
     enhanceImage canvas options = inl "Could not get canvas context"%string)
    /\ (forall data,
          canvasImageData canvas = Some data ->
          exists data',
            enhanceImage canvas options
            = inr {| canvasWidth := canvasWidth canvas;
                     canvasHeight := canvasHeight canvas;
                     canvasImageData := Some data' |}
            /\ List.length data' = List.length data
            /\ (clamped data -> clamped data')).
Proof.
  intros canvas options. unfold enhanceImage. split.
  - intros ->. reflexivity.
  - intros data ->. eexists. split; [reflexivity|].
    set (d1 := match optBrightness options with
               | Some b => adjustColours (brighten b) data
               | None => data
               end).
    set (d2 := match optContrast options with
               | Some c => adjustColours (stretch (contrastFactorOf c)) d1
               | None => d1
               end).
    assert (K1 : List.length d1 = List.length data
                 /\ (clamped data -> clamped d1)).
    { subst d1. destruct (optBrightness options);
        [apply adjustColours_keeps|split; auto]. }
    assert (K2 : List.length d2 = List.length data
                 /\ (clamped data -> clamped d2)).
    { subst d2. destruct K1 as [L1 C1]. destruct (optContrast options).
      - destruct (adjustColours_keeps (stretch (contrastFactorOf n)) d1)
          as [L C].
        split; [rewrite L; exact L1|auto].
      - split; auto. }
    destruct K2 as [L2 C2]. destruct (optSharpen options).
    + split; [rewrite length_applySharpenFilter; exact L2|].
      intro Hd. apply clamped_applySharpenFilter, C2, Hd.
    + split; [exact L2|exact C2].
Qed.

(** ** The adjustments, sample by sample *)

Lemma readN_in :
  forall data (i : nat),
    (i < List.length data)%nat ->
    readN data (Z.of_nat i) = of_Z (nth i data 0).
Proof.
  intros data i H. unfold readN, readZ.
  destruct (Z.ltb_spec (Z.of_nat i) 0); [lia|].
  rewrite Nat2Z.id, (nth_error_nth' data 0 H). reflexivity.
Qed.

(** In-place writes at distinct indices: each index visited holds the
    image of its old value, the others keep theirs. *)
Lemma nth_fold_adjust :
  forall (K : number -> Z) (js : list Z) (data : list Z) (i : nat),
    NoDup js ->
    nth i (fold_left (fun acc j => write acc j (K (readN acc j))) js data) 0
    = if (existsb (fun j => j =? Z.of_nat i) js
          && (Z.of_nat i <? len data))%bool
      then K (of_Z (nth i data 0)) else nth i data 0.
Proof.
  intros K js. induction js as [|j js IH]; intros data i N; [reflexivity|].
  inversion N as [|? ? Hj N']; subst.
  cbn [fold_left existsb]. rewrite (IH _ i N').
  unfold len at 1. rewrite length_write. fold (len data).
  rewrite !nth_write.
  destruct (Z.eqb_spec j (Z.of_nat i)) as [E|NE]; cbn [andb orb].
  - assert (X : existsb (fun j0 => j0 =? Z.of_nat i) js = false).
    { apply not_true_iff_false. intro C. apply existsb_exists in C.
      destruct C as (j' & Hj' & Ej'). apply Z.eqb_eq in Ej'. subst.
      contradiction. }
    rewrite X. cbn [andb].
    destruct (Z.ltb_spec (Z.of_nat i) (len data)) as [L|L]; [|reflexivity].
    subst j. rewrite readN_in by (unfold len in L; lia). reflexivity.
  - reflexivity.
Qed.

Lemma colourIndices_from :
  forall n m,
    let l := flat_map (fun i => [i; i + 1; i + 2])
                      (map (fun k => 4 * Z.of_nat k) (seq m n)) in
    NoDup l
    /\ (forall j, In j l <->
                  4 * Z.of_nat m <= j < 4 * Z.of_nat (m + n) /\ j mod 4 <> 3).
Proof.
  induction n as [|n IH]; intros m l; subst l.
  - cbn [seq map flat_map]. split; [constructor|]. intro j.
    split; [intros []|intros [H _]; lia].
  - cbn [seq map flat_map app]. destruct (IH (S m)) as [N M].
    assert (Hm : forall j,
               In j (flat_map (fun i => [i; i + 1; i + 2])
                              (map (fun k => 4 * Z.of_nat k) (seq (S m) n))) ->
               4 * Z.of_nat m + 4 <= j).
    { intros j Hj. apply M in Hj. lia. }
    split.
    + constructor; [intros [C|[C|C]]; try lia; apply Hm in C; lia|].
      constructor; [intros [C|C]; try lia; apply Hm in C; lia|].
      constructor; [intro C; apply Hm in C; lia|exact N].
    + intro j. cbn [In]. rewrite M. split.
      * intros [E|[E|[E|[H1 H2]]]]; subst;
          (split; [lia|Z.to_euclidean_division_equations; lia]).
      * intros [H1 H2].
        destruct (Z_lt_dec j (4 * Z.of_nat m + 4)) as [L|L]; [|right; right; right; split; [lia|exact H2]].
        assert (j = 4 * Z.of_nat m \/ j = 4 * Z.of_nat m + 1
                \/ j = 4 * Z.of_nat m + 2)
          by (Z.to_euclidean_division_equations; lia).
        intuition.
Qed.

Lemma adjustColours_fold :
  forall f data n,
    List.length data = (4 * n)%nat ->
    adjustColours f data
    = fold_left (fun acc j => write acc j (adjusted f (readN acc j)))
                (colourIndices n) data.
Proof.
  intros f data n Hlen. unfold adjustColours, colourIndices.
  unfold len. rewrite Hlen, Nat2Z.inj_mul. simpl (Z.of_nat 4).
  rewrite countUp_4, fold_left_flat_map. reflexivity.
Qed.

(** What an adjustment does to a buffer of whole pixels: the alpha samples
    stay, every colour sample becomes the image of its old value. *)
Lemma adjustColours_samples :
  forall f data n (i : nat),
    List.length data = (4 * n)%nat ->
    (i < 4 * n)%nat ->
    nth i (adjustColours f data) 0
    = if (Z.of_nat i mod 4 =? 3) then nth i data 0
      else adjusted f (of_Z (nth i data 0)).
Proof.
  intros f data n i Hlen Hi.
  rewrite (adjustColours_fold f data n Hlen).
  destruct (colourIndices_from n 0) as [N M]. cbv zeta in N, M.
  fold (colourIndices n) in N, M.
  rewrite (nth_fold_adjust (adjusted f) _ data i N).
  destruct (Z.ltb_spec (Z.of_nat i) (len data)) as [_|C];
    [|unfold len in C; lia].
  rewrite andb_true_r.
  destruct (Z.eqb_spec (Z.of_nat i mod 4) 3) as [E|NE].
  - assert (X : existsb (fun j => j =? Z.of_nat i) (colourIndices n) = false).
    { apply not_true_iff_false. intro C. apply existsb_exists in C.
      destruct C as (j & Hj & Ej). apply Z.eqb_eq in Ej. subst.
      apply M in Hj. tauto. }
    rewrite X. reflexivity.
  - assert (X : existsb (fun j => j =? Z.of_nat i) (colourIndices n) = true).
    { apply existsb_exists. exists (Z.of_nat i).
      split; [apply M; lia|apply Z.eqb_refl]. }
    rewrite X. reflexivity.
Qed.

(** ** Storing an integer *)

Lemma adjusted_integer :
  forall (f : number -> number) (v : number) (q : Q) (n : Z),
    f v = Finite q -> (q == inject_Z n)%Q ->
    adjusted f v = clampByte n.
Proof.
  intros f v q n Hf Hq. unfold adjusted, clampByte. rewrite Hf.
  unfold JsArith.Math_max, JsArith.Math_min, of_Z, le.
  destruct (Qle_bool (inject_Z 0) q) eqn:E0.
  - apply Qle_bool_iff in E0. rewrite Hq, <- Zle_Qle in E0.
    destruct (Qle_bool (inject_Z 255) q) eqn:E255.
    + apply Qle_bool_iff in E255. rewrite Hq, <- Zle_Qle in E255.
      cbn. lia.
    + apply not_true_iff_false in E255.
      rewrite Qle_bool_iff, Hq, <- Zle_Qle in E255.
      unfold JsArith.toUint8Clamp.
      destruct (Qle_bool q 0) eqn:Z0.
      * apply Qle_bool_iff in Z0. rewrite Hq in Z0.
        change 0%Q with (inject_Z 0) in Z0. rewrite <- Zle_Qle in Z0. lia.
      * destruct (Qle_bool 255 q) eqn:Z255.
        { apply Qle_bool_iff in Z255. rewrite Hq in Z255.
          change 255%Q with (inject_Z 255) in Z255.
          rewrite <- Zle_Qle in Z255. lia. }
        rewrite (Qfloor_comp _ _ Hq), Qfloor_Z.
        assert (L : (q ?= inject_Z n + (1 # 2))%Q = Lt).
        { rewrite <- Qlt_alt, Hq. generalize (inject_Z n). intro t.
          Lqa.lra. }
        rewrite L. lia.
  - apply not_true_iff_false in E0.
    rewrite Qle_bool_iff, Hq, <- Zle_Qle in E0. cbn. lia.
Qed.

Lemma clampByte_id : forall v, 0 <= v <= 255 -> clampByte v = v.
Proof. intros v H. unfold clampByte. lia. Qed.

Lemma brighten_integer :
  forall z v, adjusted (brighten (of_Z z)) (of_Z v) = clampByte (v + z).
Proof.
  intros z v. apply (adjusted_integer _ _ (inject_Z v + inject_Z z)).
  - reflexivity.
  - rewrite inject_Z_plus. reflexivity.
Qed.

(** X18.  The brightness adjustment by an integer, on a buffer of whole
    pixels: every colour sample becomes its value plus the adjustment,
    brought back into 0..255, and the alpha samples stay.  An adjustment of
    0 changes nothing in an image of bytes, and a brightness of [NaN] turns
    every colour sample into 0. *)
Theorem X18_brightness_adjustment :
  forall data n z (i : nat),
    List.length data = (4 * n)%nat ->
    (i < 4 * n)%nat ->
    nth i (adjustColours (brighten (of_Z z)) data) 0
    = (if Z.of_nat i mod 4 =? 3 then nth i data 0
       else clampByte (nth i data 0 + z))
    /\ nth i (adjustColours (brighten NaN) data) 0
       = (if Z.of_nat i mod 4 =? 3 then nth i data 0 else 0)
    /\ (clamped data -> adjustColours (brighten (of_Z 0)) data = data).
Proof.
  intros data n z i Hlen Hi.
  rewrite !(adjustColours_samples _ data n i Hlen Hi), brighten_integer.
  split; [reflexivity|]. split.
  - destruct (Z.of_nat i mod 4 =? 3); reflexivity.
  - intro Hc. apply (nth_ext _ _ 0 0).
    + apply adjustColours_keeps.
    + intros k Hk.
      assert (Hk' : (k < 4 * n)%nat)
        by (rewrite (proj1 (adjustColours_keeps _ data)) in Hk; lia).
      rewrite (adjustColours_samples _ data n k Hlen Hk'), brighten_integer.
      destruct (Z.of_nat k mod 4 =? 3); [reflexivity|].
      rewrite Z.add_0_r. apply clampByte_id, nth_clamped; [exact Hc|lia].
Qed.

Lemma X18_brightness_adjustment_witness :
  nth 4 (adjustColours (brighten (of_Z 100)) sample3x3) 0
  = clampByte (nth 4 sample3x3 0 + 100).
Proof.
  exact (proj1 (X18_brightness_adjustment sample3x3 9 100 4 eq_refl
                  ltac:(lia))).
Defined.

(** X19.  Two brightness adjustments in the same direction add up: on an
    image of bytes, brightening by [a] and then by [b], both non-negative
    integers, is brightening by [a + b], and likewise for two darkenings. *)
Theorem X19_brightness_adjustments_compose :
  forall data n a b,
    List.length data = (4 * n)%nat ->
    clamped data ->
    (0 <= a /\ 0 <= b) \/ (a <= 0 /\ b <= 0) ->
    adjustColours (brighten (of_Z b)) (adjustColours (brighten (of_Z a)) data)
    = adjustColours (brighten (of_Z (a + b))) data.
Proof.
  intros data n a b Hlen Hc Hab.
  destruct (adjustColours_keeps (brighten (of_Z a)) data) as [L1 _].
  apply (nth_ext _ _ 0 0).
  - rewrite !(proj1 (adjustColours_keeps _ _)). reflexivity.
  - intros k Hk.
    assert (Hk' : (k < 4 * n)%nat)
      by (rewrite !(proj1 (adjustColours_keeps _ _)) in Hk; lia).
    rewrite (adjustColours_samples _ _ n k (eq_trans L1 Hlen) Hk').
    rewrite !(adjustColours_samples _ data n k Hlen Hk'), !brighten_integer.
    destruct (Z.of_nat k mod 4 =? 3); [reflexivity|].
    pose proof (nth_clamped data k Hc ltac:(lia)).
    unfold clampByte. lia.
Qed.

Lemma X19_brightness_adjustments_compose_witness :
  adjustColours (brighten (of_Z 40))
                (adjustColours (brighten (of_Z 30)) sample3x3)
  = adjustColours (brighten (of_Z (30 + 40))) sample3x3.
Proof.
  apply (X19_brightness_adjustments_compose sample3x3 9 30 40).
  - reflexivity.
  - unfold clamped, sample3x3. repeat constructor; lia.
  - left. lia.
Defined.

(** ** The contrast adjustment at its two special values *)

Lemma contrastFactor_0 :
  exists c, contrastFactorOf (of_Z 0) = Finite c /\ (c == 1)%Q.
Proof. eexists. split; [vm_compute; reflexivity|reflexivity]. Qed.

Lemma contrastFactor_259 : contrastFactorOf (of_Z 259) = PosInfinity.
Proof. reflexivity. Qed.

Lemma stretch_by_1 :
  forall v, adjusted (stretch (contrastFactorOf (of_Z 0))) (of_Z v)
            = clampByte v.
Proof.
  intro v. destruct contrastFactor_0 as (c & -> & Hc).
  apply (adjusted_integer _ _
           (c * (inject_Z v + - inject_Z 128) + inject_Z 128)).
  - reflexivity.
  - rewrite Hc. generalize (inject_Z v). intro t.
    change (inject_Z 128) with (128 # 1)%Q. Lqa.lra.
Qed.

Lemma stretch_by_infinity :
  forall v, adjusted (stretch (contrastFactorOf (of_Z 259))) (of_Z v)
            = if 128 <? v then 255 else 0.
Proof.
  intro v. rewrite contrastFactor_259.
  unfold adjusted, stretch, of_Z. cbn [JsArith.sub JsArith.neg JsArith.add
                                        JsArith.mul].
  unfold JsArith.infinityTimes, JsArith.isZero, JsArith.isNeg.
  assert (Q0 : (inject_Z v + - inject_Z 128 == inject_Z (v - 128))%Q).
  { unfold Z.sub. rewrite inject_Z_plus, inject_Z_opp. reflexivity. }
  destruct (Qeq_bool (inject_Z v + - inject_Z 128) 0) eqn:E.
  - apply Qeq_bool_iff in E. unfold Qeq in E. cbn in E.
    destruct (Z.ltb_spec 128 v); [lia|]. reflexivity.
  - apply Qeq_bool_neq in E.
    assert (Hne : v <> 128).
    { intros ->. apply E. reflexivity. }
    destruct (Qle_bool 0 (inject_Z v + - inject_Z 128)) eqn:L; cbn [negb xorb].
    + apply Qle_bool_iff in L. unfold Qle in L. cbn in L.
      destruct (Z.ltb_spec 128 v); [|lia]. reflexivity.
    + apply not_true_iff_false in L. rewrite Qle_bool_iff in L.
      unfold Qle in L. cbn in L.
      destruct (Z.ltb_spec 128 v); [lia|]. reflexivity.
Qed.

(** X20.  The contrast adjustment at its two special values, on a buffer
    of whole pixels.  A contrast of 0 gives the factor 1 and leaves an image
    of bytes as it is.  A contrast of 259 makes the factor a division by
    zero, an infinity: every colour sample above 128 becomes 255 and every
    other one, 128 included, becomes 0; the alpha samples stay. *)
Theorem X20_contrast_at_0_and_259 :
  forall data n (i : nat),
    List.length data = (4 * n)%nat ->
    (i < 4 * n)%nat ->
    nth i (adjustColours (stretch (contrastFactorOf (of_Z 259))) data) 0
    = (if Z.of_nat i mod 4 =? 3 then nth i data 0
       else if 128 <? nth i data 0 then 255 else 0)
    /\ (clamped data ->
        adjustColours (stretch (contrastFactorOf (of_Z 0))) data = data).
Proof.
  intros data n i Hlen Hi.
  rewrite (adjustColours_samples _ data n i Hlen Hi), stretch_by_infinity.
  split; [reflexivity|].
  intro Hc. apply (nth_ext _ _ 0 0).
  - apply adjustColours_keeps.
  - intros k Hk.
    assert (Hk' : (k < 4 * n)%nat)
      by (rewrite (proj1 (adjustColours_keeps _ data)) in Hk; lia).
    rewrite (adjustColours_samples _ data n k Hlen Hk'), stretch_by_1.
    destruct (Z.of_nat k mod 4 =? 3); [reflexivity|].
    apply clampByte_id, nth_clamped; [exact Hc|lia].
Qed.

Lemma X20_contrast_at_0_and_259_witness :
  nth 4 (adjustColours (stretch (contrastFactorOf (of_Z 259))) sample3x3) 0
  = 255.
Proof.
  exact (proj1 (X20_contrast_at_0_and_259 sample3x3 9 4 eq_refl ltac:(lia))).
Defined.

(** ** Images that the sharpening filter leaves alone *)

Lemma applySharpenFilter_small :
  forall data w h, w < 3 \/ h < 3 -> applySharpenFilter data w h = data.
Proof.
  intros data w h [H|H]; unfold applySharpenFilter.
  - rewrite (countUp_1_empty 1 (w - 1)) by lia.
    induction (countUp 1 (h - 1) 1) as [|y ys IH]; [reflexivity|exact IH].
  - rewrite (countUp_1_empty 1 (h - 1)) by lia. reflexivity.
Qed.

Lemma sample_uniform :
  forall data w h r g b x y,
    len data = 4 * w * h ->
    uniformColour data r g b ->
    0 <= x < w -> 0 <= y < h ->
    sample data w x y 0 = r /\ sample data w x y 1 = g
    /\ sample data w x y 2 = b.
Proof.
  intros data w h r g b x y Hlen U Hx Hy.
  assert (B : 0 <= y * w + x < w * h) by nia.
  unfold sample.
  replace (Z.to_nat ((y * w + x) * 4 + 0))
    with (4 * Z.to_nat (y * w + x))%nat by lia.
  replace (Z.to_nat ((y * w + x) * 4 + 1))
    with (4 * Z.to_nat (y * w + x) + 1)%nat by lia.
  replace (Z.to_nat ((y * w + x) * 4 + 2))
    with (4 * Z.to_nat (y * w + x) + 2)%nat by lia.
  apply U. unfold len in Hlen. lia.
Qed.

(** X21.  The sharpening filter leaves two kinds of image exactly as they
    are: an image narrower or lower than 3 pixels, which has no pixel off
    the border, and an image of bytes whose pixels all have the same
    colour. *)
Theorem X21_sharpen_fixed_points :
  forall data w h,
    (w < 3 \/ h < 3 -> applySharpenFilter data w h = data)
    /\ (forall r g b,
          len data = 4 * w * h ->
          uniformColourb data r g b = true ->
          0 <= r <= 255 -> 0 <= g <= 255 -> 0 <= b <= 255 ->
          applySharpenFilter data w h = data).
Proof.
  intros data w h. split; [apply applySharpenFilter_small|].
  intros r g b Hlen Hu Hr Hg Hb.
  destruct (Z_lt_dec w 3) as [Sw|Sw]; [apply applySharpenFilter_small; auto|].
  destruct (Z_lt_dec h 3) as [Sh|Sh]; [apply applySharpenFilter_small; auto|].
  apply uniformColourb_sound in Hu.
  destruct (applySharpenFilter_samples data w h Hlen) as (L & HIn & HOut).
  apply (nth_ext _ _ 0 0); [exact L|].
  intros k Hk. rewrite L in Hk. unfold len in Hlen.
  set (p := Z.of_nat k / 4). set (c := Z.of_nat k mod 4).
  set (x := p mod w). set (y := p / w).
  assert (Hc : 0 <= c < 4) by (subst c; apply Z.mod_pos_bound; lia).
  assert (Hp : Z.of_nat k = p * 4 + c)
    by (subst p c; Z.to_euclidean_division_equations; lia).
  assert (Hx : 0 <= x < w) by (subst x; apply Z.mod_pos_bound; lia).
  assert (Hpxy : p = y * w + x)
    by (subst x y; rewrite Z.mul_comm; apply Z.div_mod; lia).
  assert (Hy : 0 <= y < h) by nia.
  assert (Hk' : k = Z.to_nat ((y * w + x) * 4 + c)) by lia.
  rewrite Hk'. fold (sample (applySharpenFilter data w h) w x y c).
  fold (sample data w x y c).
  destruct (Z_lt_dec c 3) as [C3|C3];
    [|apply HOut; try assumption; right; right; right; right; lia].
  destruct (Z_lt_dec x 1) as [X0|X0]; [apply HOut; auto; left; lia|].
  destruct (Z_le_dec (w - 1) x) as [X1|X1];
    [apply HOut; auto; right; left; lia|].
  destruct (Z_lt_dec y 1) as [Y0|Y0];
    [apply HOut; auto; right; right; left; lia|].
  destruct (Z_le_dec (h - 1) y) as [Y1|Y1];
    [apply HOut; auto; right; right; right; left; lia|].
  rewrite HIn by lia. unfold sharpened.
  destruct (sample_uniform data w h r g b x y) as (S0 & S1 & S2);
    try assumption; try lia.
  destruct (sample_uniform data w h r g b x (y - 1)) as (T0 & T1 & T2);
    try assumption; try lia.
  destruct (sample_uniform data w h r g b (x - 1) y) as (L0 & L1 & L2);
    try assumption; try lia.
  destruct (sample_uniform data w h r g b (x + 1) y) as (R0 & R1 & R2);
    try assumption; try lia.
  destruct (sample_uniform data w h r g b x (y + 1)) as (B0 & B1 & B2);
    try assumption; try lia.
  assert (Cc : c = 0 \/ c = 1 \/ c = 2) by lia.
  destruct Cc as [-> | [-> | ->]].
  - rewrite S0, T0, L0, R0, B0. unfold clampByte. lia.
  - rewrite S1, T1, L1, R1, B1. unfold clampByte. lia.
  - rewrite S2, T2, L2, R2, B2. unfold clampByte. lia.
Qed.

Lemma X21_sharpen_fixed_points_witness :
  applySharpenFilter (solid 2 3 90 80 70 255) 2 3 = solid 2 3 90 80 70 255
  /\ applySharpenFilter (solid 3 3 90 80 70 255) 3 3
     = solid 3 3 90 80 70 255.
Proof.
  split.
  - apply (proj1 (X21_sharpen_fixed_points (solid 2 3 90 80 70 255) 2 3)). left. lia.
  - apply (proj2 (X21_sharpen_fixed_points (solid 3 3 90 80 70 255) 3 3)
             90 80 70); [reflexivity|reflexivity|lia|lia|lia].
Defined.

End ImageEnhanceFacts.

(* ================================================================== *)
(** * The ranges of the pixel metrics *)

Module MetricRangeFacts.

Import JsNumber Double ImageAnalysisUtils DoubleFacts ImageFacts.
#[local] Open Scope Q_scope.

(** X22.  On an image of at least one and at most [2 ^ 32] pixels whose
    samples are bytes, the brightness and the contrast that the assessment
    computes both lie between 0 and 255. *)
Theorem X22_brightness_and_contrast_range :
  forall data n,
    List.length data = (4 * n)%nat -> (0 < n)%nat ->
    (Z.of_nat n <= 2 ^ 32)%Z ->
    clamped data ->
    exists b c,
      calculateBrightness data = of_Z b
      /\ calculateContrast data = of_Z c
      /\ (0 <= b <= 255)%Z /\ (0 <= c <= 255)%Z.
Proof.
  intros data n Hlen Hn Hmax Hc.
  assert (Ls : List.length (seq 0 n) = n) by apply length_seq.
  assert (Dn : within (inject_Z (Z.of_nat (List.length (seq 0 n))))
                      (inject_Z (Z.of_nat (List.length (seq 0 n))))
                      (round (inject_Z (Z.of_nat n)))).
  { rewrite Ls. apply round_count_within, Hmax. }
  assert (B : exists b, calculateBrightness data = of_Z b
                        /\ (0 <= b <= 255)%Z).
  { unfold calculateBrightness.
    rewrite (pixel_loop data n _ _ Hlen), (pixel_count data n Hlen).
    assert (M : within 0 255
                  (div (fold_left
                          (fun acc k =>
                             add acc (luminance data (4 * Z.of_nat k)))
                          (seq 0 n) (of_Z 0))
                       (round (inject_Z (Z.of_nat n))))).
    { apply (mean_within 255 0); try (rewrite Ls; assumption); try lia.
      - reflexivity.
      - intros k Hk. apply in_seq in Hk.
        apply (luminance_within data n); [assumption..|lia].
      - exact Dn. }
    destruct (Math_round_within _ _ _ M) as (z & E & Z0 & Z1).
    exists z. split; [exact E|]. split; [exact Z0|exact Z1]. }
  destruct B as (b & Eb & Hb). exists b.
  unfold calculateContrast. rewrite Eb.
  rewrite (pixel_loop data n _ _ Hlen), (pixel_count data n Hlen).
  assert (Wb : within 0 255 (of_Z b)) by (apply within_byte, Hb).
  assert (M : within 0 65025
                (div (fold_left
                        (fun acc k =>
                           add acc
                             (Math_pow2 (sub (luminance data (4 * Z.of_nat k))
                                             (of_Z b))))
                        (seq 0 n) (of_Z 0))
                     (round (inject_Z (Z.of_nat n))))).
  { apply (mean_within 65025 0); try (rewrite Ls; assumption); try lia.
    - reflexivity.
    - intros k Hk. apply in_seq in Hk. unfold Math_pow2.
      apply (square_within 255); [|num..].
      apply (sub_within 0 255 0 255); [|exact Wb|num..].
      apply (luminance_within data n); [assumption..|lia].
    - exact Dn. }
  assert (R : within 0 255
                (Math_sqrt
                   (div (fold_left
                        (fun acc k =>
                           add acc
                             (Math_pow2 (sub (luminance data (4 * Z.of_nat k))
                                             (of_Z b))))
                        (seq 0 n) (of_Z 0))
                     (round (inject_Z (Z.of_nat n)))))).
  { apply (sqrt_within 0 65025); [exact M|num..]. }
  destruct (Math_round_within _ _ _ R) as (z & E & Z0 & Z1).
  exists z. split; [reflexivity|]. split; [exact E|].
  split; [exact Hb|]. split; [exact Z0|exact Z1].
Qed.

Lemma X22_brightness_and_contrast_range_witness :
  exists b c,
    calculateBrightness sample3x3 = of_Z b
    /\ calculateContrast sample3x3 = of_Z c
    /\ (0 <= b <= 255)%Z /\ (0 <= c <= 255)%Z.
Proof.
  apply (X22_brightness_and_contrast_range sample3x3 9 eq_refl).
  - lia.
  - cbn. lia.
  - exact clamped_sample3x3.
Defined.

(** X23.  On an image of bytes at least 3 pixels wide and high, of at
    most [2 ^ 32] pixels, the sharpness that the assessment computes lies
    between 0 and 1442: no Sobel gradient of lumas between 0 and 255 is
    longer than [1020 * sqrt 2]. *)
Theorem X23_sharpness_range :
  forall data w h,
    (3 <= w)%Z -> (3 <= h)%Z -> (w * h <= 2 ^ 32)%Z ->
    len data = (4 * w * h)%Z ->
    clamped data ->
    exists s,
      calculateSharpness data w h = of_Z s /\ (0 <= s <= 1442)%Z.
Proof.
  intros data w h Hw Hh Hmax Hlen Hc.
  destruct (whole_pixels data w h ltac:(lia) ltac:(lia) Hlen) as [Hn _].
  unfold calculateSharpness. rewrite sharpnessLoops_interior.
  pose proof (length_interior w h ltac:(lia) ltac:(lia)) as L.
  assert (P : (0 < List.length (interior w h))%nat) by (rewrite L; nia).
  destruct (Nat.ltb_spec 0 (List.length (interior w h))) as [_|C]; [|lia].
  assert (Le : (Z.of_nat (List.length (interior w h)) <= 2 ^ 32)%Z)
    by (rewrite L; nia).
  assert (M : within 0 magnitudeTop
                (div (fold_left
                        (fun acc p =>
                           add acc (sobelMagnitude data w (fst p) (snd p)))
                        (interior w h) (of_Z 0))
                     (of_Z (Z.of_nat (List.length (interior w h)))))).
  { apply (mean_within 1477119 (-10)); try assumption; try lia.
    - reflexivity.
    - intros p _.
      apply (sobelMagnitude_within data (Z.to_nat (w * h)) w); assumption.
    - apply within_exact. }
  destruct (Math_round_within _ _ _ M) as (z & E & Z0 & Z1).
  exists z. split; [exact E|]. split; [exact Z0|exact Z1].
Qed.

Lemma X23_sharpness_range_witness :
  exists s, calculateSharpness sample3x3 3 3 = of_Z s /\ (0 <= s <= 1442)%Z.
Proof.
  apply (X23_sharpness_range sample3x3 3 3).
  - lia.
  - lia.
  - lia.
  - reflexivity.
  - exact clamped_sample3x3.
Defined.

End MetricRangeFacts.
